(** * Polls backend: the WebSocket vote handlers over a model of the store

    A shallow embedding of the handlers of [src/resources/votes.mjs]
    ([connectHandler], [disconnectHandler], [messagesHandler]), of the later
    revision of [messagesHandler] kept in [src/unnamed/part_002], which adds
    [createdAt] to the Vote record and to the broadcast payload, and of
    [createPollHandler] of [src/resources/polls.mjs].

    The two DynamoDB tables are finite maps.  Every [ddbDocClient.send] is one
    request, which the store may refuse; an update whose expression reads a
    missing attribute is rejected; a query returns the items of a partition
    in the byte order of their sort keys; a batch write takes at most 25
    items.  [PostToConnection] fails for connections whose transport is gone.
    Handlers are state transformers over a [World]; exceptions are values of
    a small state-and-error monad, and the state reached when an exception is
    raised is kept, as it is in the running program.  Events are handled one
    at a time.

    The second part of the file embeds the rest of the backend on the same
    store: the read handlers and the dispatcher of the first revision of
    [src/resources/polls.mjs], the single-poll handlers and
    [deletePollHandler] of its second revision, and the WebSocket authorizer
    of [src/resources/auth.mjs], whose token verification is a parameter.
    The list handlers of the second revision read a secondary index and are
    not embedded.  A query or a scan returns every matching item, and a batch
    write that the store accepts applies all its requests: the tables are
    taken to stay within one page of the store. *)

From stdpp Require Import base gmap list strings pretty sorting fin_maps.
From Stdlib Require Import ZArith Ascii.

(** ** Data model *)

(** [conn.Item.user] and the [user] attribute of a Vote record. *)
Record User := { name : string; email : string }.

Definition Timestamp := string.

(** Items of POLLS_TABLE.  The three shapes are the three [Item] literals the
    handlers write: the poll header, one item per option, one per vote.  The
    index attributes (GSI1PK, GSI2PK) that the later [createPollHandler] adds
    to the header are read by no handler modelled here and are left out. *)
Inductive Item :=
| PollItem (pollId question : string) (owner : User) (createdAt : Timestamp)
| OptionItem (optionId : Z) (text : string) (votesCount : Z)
| VoteItem (optionId : Z) (user : User) (createdAt : option Timestamp).

(** Items of CONNECTIONS_TABLE: [{ PK: connectionId, user: {name, email} }];
    the handler tests [conn.Item.user] for presence. *)
Record ConnItem := { conn_user : option User }.

(** The primary key [{ PK, SK }] of POLLS_TABLE. *)
Abbreviation Key := (string * string)%type.
Abbreviation Table := (gmap (string * string) Item).
Abbreviation ConnTable := (gmap string ConnItem).

#[global] Instance User_eq_dec : EqDecision User.
Proof. solve_decision. Defined.
#[global] Instance Item_eq_dec : EqDecision Item.
Proof. solve_decision. Defined.
#[global] Instance ConnItem_eq_dec : EqDecision ConnItem.
Proof. solve_decision. Defined.

(** One element of the [options] array of the broadcast payload.  A field is
    [None] when the JavaScript value is [undefined] (attribute absent) or,
    for [id], when [Number] does not yield a decimal integer. *)
Record OptionEntry := {
  id : option Z;
  text : option string;
  votesCount : option Z
}.

(** The object passed to [JSON.stringify] for [PostToConnectionCommand]. *)
Record Payload := {
  p_pollId : string;
  p_options : list OptionEntry;
  p_user : User;
  p_createdAt : option Timestamp
}.

(** What a handler can throw. *)
Inductive Error :=
| SyntaxError            (* JSON.parse rejects the body *)
| UserNotFound           (* new Error("User not found for this connection") *)
| ServiceUnavailable     (* the store refuses the request *)
| ValidationException    (* the store rejects the request as malformed *)
| GoneException          (* PostToConnection on a closed connection *)
| UndefinedValue.        (* the document client meets [undefined] in an item *)

Definition message (err : Error) : string :=
  match err with
  | SyntaxError => "Unexpected token in JSON"
  | UserNotFound => "User not found for this connection"
  | ServiceUnavailable => "Service Unavailable"
  | ValidationException => "The provided expression refers to an attribute that does not exist in the item"
  | GoneException => "Gone"
  | UndefinedValue => "Pass options.removeUndefinedValues=true to remove undefined values from map/array/set."
  end.

Inductive LogLine :=
| LogConnect (connectionId : string)        (* console.log("CONNECT:", connectionId) *)
| LogDisconnect (connectionId : string)     (* console.log("DISCONNECT:", connectionId) *)
| LogError (err : Error)                    (* console.log(err) *)
| LogSendError (err : Error)                (* console.error("Send error:", err) *)
| LogHandlerError (err : Error)             (* console.error("Error in messagesHandler:", err) *)
| LogCreateError (err : Error).             (* console.error("Error creating poll:", err) *)

(** Response bodies, before [JSON.stringify]. *)
Inductive Body :=
| ErrorBody (error : string)                       (* { error } *)
| MessageBody (message : string)                   (* { message } *)
| CreatedBody (pollId message : string)            (* { pollId, message } *)
| FailureBody (message error : string).            (* { message, error } *)

Record Response := { statusCode : Z; body : option Body }.

(** The state the handlers act on. *)
Record World := {
  POLLS_TABLE : Table;
  CONNECTIONS_TABLE : ConnTable;
  (** messages accepted by the transport, newest first *)
  posted : list (string * Payload);
  (** console output, newest first *)
  console : list LogLine;
  (** connection ids whose transport is closed: posting to them fails *)
  stale : gset string;
  (** availability of the store: the head says whether the next request is
      refused; once the list is exhausted every request is served *)
  outages : list bool
}.

Definition with_polls (f : Table → Table) (w : World) : World :=
  {| POLLS_TABLE := f (POLLS_TABLE w); CONNECTIONS_TABLE := CONNECTIONS_TABLE w;
     posted := posted w; console := console w; stale := stale w;
     outages := outages w |}.

Definition with_connections (f : ConnTable → ConnTable) (w : World) : World :=
  {| POLLS_TABLE := POLLS_TABLE w; CONNECTIONS_TABLE := f (CONNECTIONS_TABLE w);
     posted := posted w; console := console w; stale := stale w;
     outages := outages w |}.

Definition with_posted (m : string * Payload) (w : World) : World :=
  {| POLLS_TABLE := POLLS_TABLE w; CONNECTIONS_TABLE := CONNECTIONS_TABLE w;
     posted := m :: posted w; console := console w; stale := stale w;
     outages := outages w |}.

Definition with_console (l : LogLine) (w : World) : World :=
  {| POLLS_TABLE := POLLS_TABLE w; CONNECTIONS_TABLE := CONNECTIONS_TABLE w;
     posted := posted w; console := l :: console w; stale := stale w;
     outages := outages w |}.

Definition tick (w : World) : World :=
  {| POLLS_TABLE := POLLS_TABLE w; CONNECTIONS_TABLE := CONNECTIONS_TABLE w;
     posted := posted w; console := console w; stale := stale w;
     outages := tail (outages w) |}.

Definition refused (w : World) : bool :=
  match outages w with
  | true :: _ => true
  | _ => false
  end.

(** ** The monad of handler bodies *)

Inductive Outcome (A : Type) :=
| Return (a : A)
| Throw (err : Error).
Arguments Return {A} a.
Arguments Throw {A} err.

Definition M (A : Type) : Type := World → Outcome A * World.

Definition ret {A} (a : A) : M A := λ w, (Return a, w).
Definition throw {A} (err : Error) : M A := λ w, (Throw err, w).
Definition bind {A B} (c : M A) (k : A → M B) : M B :=
  λ w, match c w with
       | (Return a, w') => k a w'
       | (Throw err, w') => (Throw err, w')
       end.

Notation "'await' x ← c ;; k" := (bind c (λ x, k))
  (at level 10, x name, c at level 99, k at level 200,
   format "'[v' 'await'  x  ←  c  ;;  '/' k ']'").
Notation "'run' c ;; k" := (bind c (λ _, k))
  (at level 10, c at level 99, k at level 200,
   format "'[v' 'run'  c  ;;  '/' k ']'").

(** [try { c } catch (err) { h err }] where the catch block cannot throw. *)
Definition try_catch {A} (c : M A) (h : Error → World → A * World)
  : World → A * World :=
  λ w, match c w with
       | (Return a, w') => (a, w')
       | (Throw err, w') => h err w'
       end.

Definition console_log (l : LogLine) : M unit :=
  λ w, (Return tt, with_console l w).

(** ** JavaScript string helpers *)

(** [s.split(sep)] for a one-character separator. *)
Fixpoint split (sep : ascii) (s : string) : list string :=
  match s with
  | EmptyString => [EmptyString]
  | String c s' =>
      if decide (c = sep) then EmptyString :: split sep s'
      else match split sep s' with
           | [] => [String c EmptyString]
           | seg :: segs => String c seg :: segs
           end
  end.

Fixpoint digits (acc : Z) (s : string) : option Z :=
  match s with
  | EmptyString => Some acc
  | String c s' =>
      match Ascii.is_nat c with
      | Some d => digits (10 * acc + Z.of_nat d) s'
      | None => None
      end
  end.

(** The double nearest to the integer [n], ties to the even significand: the
    integer itself up to magnitude 2^53, a multiple of a power of two beyond;
    [None] when the nearest double is an infinity.  The result is the exact
    value of the double: 12345678901234567168 for 12345678901234567890, which
    JavaScript prints with the fewest digits that read back as the same
    double, 12345678901234567000. *)
Definition nearest_double (n : Z) : option Z :=
  let m := Z.abs n in
  if (m <=? 2 ^ 53)%Z then Some n
  else
    let e := (Z.log2 m - 52)%Z in
    let q := Z.shiftr m e in
    let r := Z.land m (Z.ones e) in
    let half := (2 ^ (e - 1))%Z in
    let q' := if (r <? half)%Z || ((r =? half)%Z && Z.even q) then q else (q + 1)%Z in
    let v := Z.shiftl q' e in
    if (v <? 2 ^ 1024)%Z then Some (Z.sgn n * v)%Z else None.

(** [Number(x)] where [x] is a string or [undefined] ([None]).  The model
    covers strings of decimal digits with an optional leading minus, which
    is what the sort keys written by [createPollHandler] end in: the result
    is the double nearest to the integer written, which is that integer up
    to magnitude 2^53.  [None] stands for a result that is no integer: an
    infinity there and, on every other argument, whatever [Number] returns
    (NaN for most). *)
Definition Number (x : option string) : option Z :=
  match x with
  | None => None
  | Some (String "-"%char (String c s)) =>
      digits 0 (String c s) ≫= λ n, nearest_double (- n)
  | Some s => digits 0 s ≫= nearest_double
  end.

(** [`${x}`] for an [optionId] attribute that may be absent. *)
Definition template (x : option Z) : string :=
  match x with
  | Some z => pretty z
  | None => "undefined"
  end.

Definition POLL (pollId : string) : string := "POLL#" +:+ pollId.
Definition OPTION (optionId : option Z) : string := "OPTION#" +:+ template optionId.
Definition VOTE (userId : string) : string := "VOTE#" +:+ userId.

(** [item.optionId], [item.text], [item.votesCount] *)
Definition get_optionId (it : Item) : option Z :=
  match it with
  | OptionItem o _ _ | VoteItem o _ _ => Some o
  | PollItem _ _ _ _ => None
  end.
Definition get_text (it : Item) : option string :=
  match it with
  | OptionItem _ t _ => Some t
  | _ => None
  end.
Definition get_votesCount (it : Item) : option Z :=
  match it with
  | OptionItem _ _ n => Some n
  | _ => None
  end.

(** ** The store: what each command does to a table *)

(** [UpdateCommand] with [SET votesCount = votesCount + :delta] and no
    condition.  The expression reads [votesCount]; when the item or the
    attribute is absent the store rejects the update and writes nothing. *)
Definition UpdateVotesCount (key : Key) (delta : Z) (t : Table) : option Table :=
  match t !! key with
  | Some (OptionItem o txt n) => Some (<[key := OptionItem o txt (n + delta)]> t)
  | _ => None
  end.

(** [QueryCommand] with [PK = :pk AND begins_with(SK, :skPrefix)]: the items
    of one partition whose sort key has the prefix, in ascending order of the
    sort key (byte-wise string order). *)
Definition by_SK (a b : Key * Item) : Prop := String.le a.1.2 b.1.2.

Definition matches (pk skPrefix : string) (kv : Key * Item) : Prop :=
  kv.1.1 = pk ∧ String.prefix skPrefix kv.1.2 = true.

#[global] Instance by_SK_dec : RelDecision by_SK.
Proof. intros a b. unfold by_SK. apply _. Defined.
#[global] Instance matches_dec pk skPrefix kv : Decision (matches pk skPrefix kv).
Proof. unfold matches. apply _. Defined.

Definition Query (pk skPrefix : string) (t : Table) : list (Key * Item) :=
  merge_sort by_SK (filter (matches pk skPrefix) (map_to_list t)).

(** [BatchWriteCommand] of put requests: at most 25 per call. *)
Definition BatchWrite (items : list (Key * Item)) (t : Table) : option Table :=
  if decide (length items ≤ 25)
  then Some (foldl (λ acc kv, <[kv.1 := kv.2]> acc) t items)
  else None.

(** ** Requests: one [ddbDocClient.send] each *)

Definition send {A} (cmd : World → Outcome A * World) : M A :=
  λ w, if refused w then (Throw ServiceUnavailable, tick w) else cmd (tick w).

Definition GetConnection (connectionId : string) : M (option ConnItem) :=
  send (λ w, (Return (CONNECTIONS_TABLE w !! connectionId), w)).

Definition PutConnection (connectionId : string) (it : ConnItem) : M unit :=
  send (λ w, (Return tt, with_connections (insert connectionId it) w)).

Definition DeleteConnection (connectionId : string) : M unit :=
  send (λ w, (Return tt, with_connections (delete connectionId) w)).

Definition ScanConnections : M (list (string * ConnItem)) :=
  send (λ w, (Return (map_to_list (CONNECTIONS_TABLE w)), w)).

Definition GetItem (key : Key) : M (option Item) :=
  send (λ w, (Return (POLLS_TABLE w !! key), w)).

Definition UpdateItem (key : Key) (delta : Z) : M unit :=
  send (λ w, match UpdateVotesCount key delta (POLLS_TABLE w) with
             | Some t => (Return tt, with_polls (λ _, t) w)
             | None => (Throw ValidationException, w)
             end).

Definition PutItem (key : Key) (it : Item) : M unit :=
  send (λ w, (Return tt, with_polls (insert key it) w)).

Definition QueryItems (pk skPrefix : string) : M (list (Key * Item)) :=
  send (λ w, (Return (Query pk skPrefix (POLLS_TABLE w)), w)).

Definition BatchWriteItems (items : list (Key * Item)) : M unit :=
  send (λ w, match BatchWrite items (POLLS_TABLE w) with
             | Some t => (Return tt, with_polls (λ _, t) w)
             | None => (Throw ValidationException, w)
             end).

(** [callbackAPI.send(new PostToConnectionCommand(...))] *)
Definition PostToConnection (connId : string) (data : Payload) : M unit :=
  λ w, if decide (connId ∈ stale w) then (Throw GoneException, w)
       else (Return tt, with_posted (connId, data) w).

(** [Promise.allSettled]: every task runs; rejections are not propagated. *)
Fixpoint allSettled (tasks : list (M unit)) : M unit :=
  match tasks with
  | [] => ret tt
  | task :: rest => λ w, allSettled rest (task w).2
  end.

(** ** Events *)

(** The context that the WebSocket authorizer (auth.mjs) attaches to an
    allowed request, [{ userId, username, email }]; a field is [None] when
    the token carries no such claim. *)
Record UserContext := {
  userId : option string;
  username : option string;
  context_email : option string
}.

(** [$connect]: the connection id and [event.requestContext.authorizer],
    [None] when the request carries none. *)
Record ConnectEvent := {
  ce_connectionId : string;
  ce_authorizer : option UserContext
}.

Record DisconnectEvent := { de_connectionId : string }.

(** The inbound vote message [{ pollId, optionId }]. *)
Record VoteBody := { vb_pollId : string; vb_optionId : Z }.

(** A message event: the connection it arrived on, its body ([None] when
    [JSON.parse] rejects it) and the clock reading [new Date()] gives during
    the call. *)
Record MessageEvent := {
  me_connectionId : string;
  me_body : option VoteBody;
  me_now : Timestamp
}.

Record PollBody := { pb_question : string; pb_options : list string }.

(** A create-poll request: the caller's claims, the body, and what
    [uuidv4()] and [new Date()] return during the call. *)
Record CreatePollEvent := {
  cp_claims : User;
  cp_body : option PollBody;
  cp_uuid : string;
  cp_now : Timestamp
}.

(** The two revisions of [messagesHandler] in the repository: the one of
    [src/resources/votes.mjs], and the one of [src/unnamed/part_002], which
    reads the clock and stores and broadcasts [createdAt].  They differ in
    nothing else. *)
Inductive Revision := votes_mjs | votes_mjs_createdAt.

Definition stamp (rev : Revision) (event : MessageEvent) : option Timestamp :=
  match rev with
  | votes_mjs => None
  | votes_mjs_createdAt => Some (me_now event)
  end.

(** ** Handlers *)

(** The [user] attribute [{ name: username, email: email }] of the item
    that [connectHandler] puts.  The document client is created without
    [removeUndefinedValues]: [send] throws on an attribute that is
    [undefined], before any request is made. *)
Definition marshall_user (username email : option string) : M User :=
  match username, email with
  | Some name, Some email => ret {| name := name; email := email |}
  | _, _ => throw UndefinedValue
  end.

Definition connectHandler (event : ConnectEvent) : World → Response * World :=
  let connectionId := ce_connectionId event in
  (* [event.requestContext.authorizer || {}] *)
  let userContext := ce_authorizer event in
  let username := userContext ≫= username in
  let email := userContext ≫= context_email in
  try_catch
    (run console_log (LogConnect connectionId) ;;
     await user ← marshall_user username email ;;
     run PutConnection connectionId {| conn_user := Some user |} ;;
     ret {| statusCode := 200; body := None |})
    (λ err w, ({| statusCode := 500; body := None |}, with_console (LogError err) w)).

Definition disconnectHandler (event : DisconnectEvent) : World → Response * World :=
  let connectionId := de_connectionId event in
  try_catch
    (run console_log (LogDisconnect connectionId) ;;
     run DeleteConnection connectionId ;;
     ret {| statusCode := 200; body := None |})
    (λ err w, ({| statusCode := 500; body := None |}, with_console (LogError err) w)).

Definition JSON_parse {A} (body : option A) : M A :=
  match body with
  | Some b => ret b
  | None => throw SyntaxError
  end.

(** [if (!conn.Item || !conn.Item.user) throw new Error(...)] *)
Definition connection_user (conn : option ConnItem) : M User :=
  match conn with
  | Some {| conn_user := Some u |} => ret u
  | _ => throw UserNotFound
  end.

(** [pollResult.Items.map((opt) => ({ id: Number(opt.SK.split("#")[1]), ... }))] *)
Definition option_entry (opt : Key * Item) : OptionEntry :=
  {| id := Number (split "#" opt.1.2 !! 1%nat);
     text := get_text opt.2;
     votesCount := get_votesCount opt.2 |}.

(** The body of the callback mapped over [connections.Items]. *)
Definition notify (data : Payload) (conn : string * ConnItem) : M unit :=
  λ w, let settled :=
         try_catch (PostToConnection conn.1 data)
           (λ err w', (tt, with_console (LogSendError err) w')) w in
       (Return settled.1, settled.2).

Definition messagesHandler (rev : Revision) (event : MessageEvent)
  : World → Response * World :=
  try_catch
    (await body ← JSON_parse (me_body event) ;;
     let pollId := vb_pollId body in
     let optionId := vb_optionId body in
     let connectionId := me_connectionId event in
     (* 1: user info from CONNECTIONS_TABLE *)
     await conn ← GetConnection connectionId ;;
     await user ← connection_user conn ;;
     let userId := email user in
     let createdAt := stamp rev event in
     (* 2: has the user already voted? *)
     await previousVote ← GetItem (POLL pollId, VOTE userId) ;;
     (* 3: decrement the previous option's count *)
     run match previousVote with
         | Some item => UpdateItem (POLL pollId, OPTION (get_optionId item)) (-1)
         | None => ret tt
         end ;;
     (* 4: increment the new option's count *)
     run UpdateItem (POLL pollId, OPTION (Some optionId)) 1 ;;
     (* 5: persist the user's vote *)
     run PutItem (POLL pollId, VOTE userId) (VoteItem optionId user createdAt) ;;
     (* 6: fetch the updated options *)
     await pollResult ← QueryItems (POLL pollId) "OPTION#" ;;
     let options := option_entry <$> pollResult in
     (* 7/8: broadcast to all connections *)
     await connections ← ScanConnections ;;
     let data := {| p_pollId := pollId; p_options := options;
                    p_user := user; p_createdAt := createdAt |} in
     run allSettled (notify data <$> connections) ;;
     ret {| statusCode := 200; body := None |})
    (λ err w,
       ({| statusCode := 500; body := Some (ErrorBody (message err)) |},
        with_console (LogHandlerError err) w)).

(** [options.map((opt, i) => ({ PutRequest: { Item: { SK: `OPTION#${i + 1}`, ... } } }))] *)
Definition option_items (pollId : string) (options : list string)
  : list (Key * Item) :=
  imap (λ i opt, ((POLL pollId, OPTION (Some (Z.of_nat i + 1)%Z)),
                  OptionItem (Z.of_nat i + 1) opt 0)) options.

Definition createPollHandler (event : CreatePollEvent) : World → Response * World :=
  try_catch
    (let claims := cp_claims event in
     let userEmail := email claims in
     let userName := if decide (name claims = "") then userEmail else name claims in
     await body ← JSON_parse (cp_body event) ;;
     let question := pb_question body in
     let options := pb_options body in
     if decide (question = "" ∨ options = [])
     then ret {| statusCode := 400; body := Some (MessageBody "Invalid input") |}
     else
       let pollId := cp_uuid event in
       let createdAt := cp_now event in
       let items :=
         ((POLL pollId, "POLL"),
          PollItem pollId question {| name := userName; email := userEmail |} createdAt)
         :: option_items pollId options in
       run BatchWriteItems items ;;
       ret {| statusCode := 201;
              body := Some (CreatedBody pollId "Poll created successfully") |})
    (λ err w,
       ({| statusCode := 500;
           body := Some (FailureBody "Failed to create poll" (message err)) |},
        with_console (LogCreateError err) w)).

(** A sequence of vote events handled one after the other. *)
Definition handle_all (rev : Revision) (events : list MessageEvent) (w : World) : World :=
  foldl (λ acc ev, (messagesHandler rev ev acc).2) w events.

(** ** What the three ledger writes of a vote do to POLLS_TABLE

    Steps 3, 4 and 5 of [messagesHandler] as functions on tables; the two
    updates are [None] when the store rejects them. *)
Definition decrement (pollId : string) (user : User) (t : Table) : option Table :=
  match t !! (POLL pollId, VOTE (email user)) with
  | Some item => UpdateVotesCount (POLL pollId, OPTION (get_optionId item)) (-1) t
  | None => Some t
  end.

Definition increment (pollId : string) (optionId : Z) (t : Table) : option Table :=
  UpdateVotesCount (POLL pollId, OPTION (Some optionId)) 1 t.

Definition record (pollId : string) (user : User) (optionId : Z)
    (createdAt : option Timestamp) (t : Table) : Table :=
  <[(POLL pollId, VOTE (email user)) := VoteItem optionId user createdAt]> t.

Definition ledger (pollId : string) (user : User) (optionId : Z)
    (createdAt : option Timestamp) (t : Table) : option Table :=
  t1 ← decrement pollId user t;
  t2 ← increment pollId optionId t1;
  Some (record pollId user optionId createdAt t2).

(** [write_prefix ... t n t']: [t'] is [t] after the first [n] of the three
    writes.  A vote of a user without a previous Vote record has no first
    write, so [n = 1] requires one. *)
Inductive write_prefix (pollId : string) (user : User) (optionId : Z)
    (createdAt : option Timestamp) (t : Table) : nat → Table → Prop :=
| written_0 : write_prefix pollId user optionId createdAt t 0 t
| written_1 item t1 :
    t !! (POLL pollId, VOTE (email user)) = Some item →
    decrement pollId user t = Some t1 →
    write_prefix pollId user optionId createdAt t 1 t1
| written_2 t1 t2 :
    decrement pollId user t = Some t1 →
    increment pollId optionId t1 = Some t2 →
    write_prefix pollId user optionId createdAt t 2 t2
| written_3 t1 t2 :
    decrement pollId user t = Some t1 →
    increment pollId optionId t1 = Some t2 →
    write_prefix pollId user optionId createdAt t 3
      (record pollId user optionId createdAt t2).

(** The tally read back in step 6 and the payload built from it. *)
Definition getTally (pollId : string) (t : Table) : list OptionEntry :=
  option_entry <$> Query (POLL pollId) "OPTION#" t.

Definition payload (rev : Revision) (event : MessageEvent) (body : VoteBody)
    (user : User) (t : Table) : Payload :=
  {| p_pollId := vb_pollId body;
     p_options := getTally (vb_pollId body) t;
     p_user := user;
     p_createdAt := stamp rev event |}.

(** The messages a broadcast of [data] over the scanned connections hands to
    the transport, newest first. *)
Definition deliveries (data : Payload) (closed : gset string)
    (conns : list (string * ConnItem)) : list (string * Payload) :=
  reverse ((λ c, (c.1, data)) <$> filter (λ c, c.1 ∉ closed) conns).

Definition send_errors (closed : gset string)
    (conns : list (string * ConnItem)) : list LogLine :=
  reverse ((λ _, LogSendError GoneException) <$> filter (λ c, c.1 ∈ closed) conns).

(** ** The invariants of the data model *)

Definition sum_with {A} (f : A → Z) (l : list A) : Z :=
  foldr (λ x acc, f x + acc)%Z 0%Z l.

(** The sum of votesCount over the options of a poll, read as
    [messagesHandler] reads them. *)
Definition sum_votesCount (pollId : string) (t : Table) : Z :=
  sum_with (λ kv, default 0%Z (get_votesCount kv.2)) (Query (POLL pollId) "OPTION#" t).

(** The Vote records of a poll, and their number. *)
Definition vote_records (pollId : string) (t : Table) : list (Key * Item) :=
  Query (POLL pollId) "VOTE#" t.

Definition count_votes (pollId : string) (t : Table) : Z :=
  Z.of_nat (length (vote_records pollId t)).

(** The voter a record belongs to is its [user.email] attribute. *)
Definition cast_by (userId : string) (kv : Key * Item) : Prop :=
  match kv.2 with
  | VoteItem _ u _ => email u = userId
  | _ => False
  end.

#[global] Instance cast_by_dec userId kv : Decision (cast_by userId kv).
Proof. unfold cast_by. destruct (kv.2); apply _. Defined.

(** V1: in a poll, each user has at most one Vote record. *)
Definition V1 (pollId : string) (t : Table) : Prop :=
  ∀ userId, length (filter (cast_by userId) (vote_records pollId t)) ≤ 1.

(** V2: the counts of a poll's options add up to the number of its Vote
    records. *)
Definition V2 (pollId : string) (t : Table) : Prop :=
  sum_votesCount pollId t = count_votes pollId t.

(** A Vote record names the option item whose sort key is the one
    [messagesHandler] computes from the record's optionId. *)
Definition names (sk : string) (kv : Key * Item) : Prop :=
  match kv.2 with
  | VoteItem o _ _ => OPTION (Some o) = sk
  | _ => False
  end.

#[global] Instance names_dec sk kv : Decision (names sk kv).
Proof. unfold names. destruct (kv.2); apply _. Defined.

(** The number of Vote records of partition [pk] that name option [sk]. *)
Definition ballots (pk sk : string) (t : Table) : Z :=
  Z.of_nat (length (filter (names sk) (Query pk "VOTE#" t))).

(** Every option's count is the number of Vote records naming it. *)
Definition counts_match (t : Table) : Prop :=
  ∀ pk sk o txt n, t !! (pk, sk) = Some (OptionItem o txt n) → n = ballots pk sk t.

(** Items under a VOTE# sort key are Vote records, stored under the email
    of their voter. *)
Definition votes_well_keyed (t : Table) : Prop :=
  ∀ pk sk it, t !! (pk, sk) = Some it → String.prefix "VOTE#" sk = true →
    ∃ o u c, it = VoteItem o u c ∧ sk = VOTE (email u).

(** The two conditions above, item by item. *)
Definition well_keyed_item (kv : Key * Item) : Prop :=
  String.prefix "VOTE#" kv.1.2 = true →
  match kv.2 with
  | VoteItem _ u _ => kv.1.2 = VOTE (email u)
  | _ => False
  end.

Definition count_matches_item (t : Table) (kv : Key * Item) : Prop :=
  match kv.2 with
  | OptionItem _ _ n => n = ballots kv.1.1 kv.1.2 t
  | _ => True
  end.

#[global] Instance well_keyed_item_dec kv : Decision (well_keyed_item kv).
Proof. unfold well_keyed_item. destruct (kv.2); apply _. Defined.

#[global] Instance count_matches_item_dec t kv : Decision (count_matches_item t kv).
Proof. unfold count_matches_item. destruct (kv.2); apply _. Defined.

(** What the put requests of a new poll are: a header and option items with
    count 0, in the poll's partition, under sort keys that are not VOTE# keys;
    and a partition that holds only such items. *)
Definition new_poll_item (pollId : string) (kv : Key * Item) : Prop :=
  kv.1.1 = POLL pollId ∧ String.prefix "VOTE#" kv.1.2 = false ∧
  default 0%Z (get_votesCount kv.2) = 0%Z.

Definition unvoted (pollId : string) (t : Table) : Prop :=
  ∀ sk it, t !! (POLL pollId, sk) = Some it →
    String.prefix "VOTE#" sk = false ∧ default 0%Z (get_votesCount it) = 0%Z.

(** Runs of vote events in which every event succeeds, and runs in which
    every event succeeds or leaves POLLS_TABLE as it found it. *)
Fixpoint all_succeed (rev : Revision) (events : list MessageEvent) (w : World) : Prop :=
  match events with
  | [] => True
  | ev :: rest =>
      statusCode (messagesHandler rev ev w).1 = 200%Z ∧
      all_succeed rev rest (messagesHandler rev ev w).2
  end.

Fixpoint no_partial_write (rev : Revision) (events : list MessageEvent) (w : World) : Prop :=
  match events with
  | [] => True
  | ev :: rest =>
      (statusCode (messagesHandler rev ev w).1 = 200%Z ∨
       POLLS_TABLE (messagesHandler rev ev w).2 = POLLS_TABLE w) ∧
      no_partial_write rev rest (messagesHandler rev ev w).2
  end.

(** The sum of [f] over the items of a table. *)
Definition measure (f : Key * Item → Z) (t : Table) : Z :=
  sum_with f (map_to_list t).

(** ** The options of a poll and their order *)

(** The ordinals [createPollHandler] gives to [N] options, and the sort keys
    it stores them under, in ordinal order. *)
Definition ordinals (N : nat) : list Z := seqZ 1 (Z.of_nat N).

Definition option_keys (N : nat) : list string :=
  (λ i, OPTION (Some i)) <$> ordinals N.

(** The option items of the poll are the [N] written at its creation. *)
Definition has_options (pollId : string) (N : nat) (t : Table) : Prop :=
  ∀ sk, String.prefix "OPTION#" sk = true →
        (is_Some (t !! (POLL pollId, sk)) ↔ sk ∈ option_keys N).

(** The [id] that [option_entry] computes from a sort key. *)
Definition id_of_SK (sk : string) : option Z := Number (split "#" sk !! 1%nat).

(** The order of two option ids under the byte order of their sort keys. *)
Definition in_key_order (a b : option Z) : Prop := String.le (OPTION a) (OPTION b).

(** The position, counted from 0, of the first request the store will
    refuse.  A revote issues, in order: 0 the connection lookup, 1 the lookup
    of the previous vote, 2 the decrement, 3 the increment, 4 the put of the
    Vote record, 5 the query of the options, 6 the scan of the registry. *)
Fixpoint first_outage (schedule : list bool) : option nat :=
  match schedule with
  | [] => None
  | true :: _ => Some 0
  | false :: rest => S <$> first_outage rest
  end.

(** ** Scenario data

    The poll of the spec's scenarios: "Pizza?" with options 1 "Yes" and
    2 "No", created by the handler; alice listens on connection c1 and bob
    on c2. *)
Definition alice : User := {| name := "Alice"; email := "alice@example.com" |}.
Definition bob : User := {| name := "Bob"; email := "bob@example.com" |}.

Definition empty_world : World :=
  {| POLLS_TABLE := ∅; CONNECTIONS_TABLE := ∅; posted := []; console := [];
     stale := ∅; outages := [] |}.

Definition create_poll (pollId : string) (options : list string) : CreatePollEvent :=
  {| cp_claims := alice;
     cp_body := Some {| pb_question := "Pizza?"; pb_options := options |};
     cp_uuid := pollId; cp_now := "2025-01-01T00:00:00.000Z" |}.

Definition connect (connectionId : string) (user : User) : ConnectEvent :=
  {| ce_connectionId := connectionId;
     ce_authorizer := Some {| userId := None;
                              username := Some (name user);
                              context_email := Some (email user) |} |}.

Definition vote (connectionId pollId : string) (optionId : Z) (now : Timestamp)
  : MessageEvent :=
  {| me_connectionId := connectionId;
     me_body := Some {| vb_pollId := pollId; vb_optionId := optionId |};
     me_now := now |}.

Definition with_listeners (w : World) : World :=
  (connectHandler (connect "c2" bob) (connectHandler (connect "c1" alice) w).2).2.

Definition pizza : World :=
  with_listeners (createPollHandler (create_poll "p1" ["Yes"; "No"]) empty_world).2.

Definition with_stale (closed : gset string) (w : World) : World :=
  {| POLLS_TABLE := POLLS_TABLE w; CONNECTIONS_TABLE := CONNECTIONS_TABLE w;
     posted := posted w; console := console w; stale := closed;
     outages := outages w |}.

Definition with_outages (schedule : list bool) (w : World) : World :=
  {| POLLS_TABLE := POLLS_TABLE w; CONNECTIONS_TABLE := CONNECTIONS_TABLE w;
     posted := posted w; console := console w; stale := stale w;
     outages := schedule |}.

(** Scenario A: alice has voted "Yes". *)
Definition first_vote : MessageEvent := vote "c1" "p1" 1 "2025-01-01T00:01:00.000Z".
Definition same_vote_later : MessageEvent := vote "c1" "p1" 1 "2025-01-01T00:02:00.000Z".
Definition vote_99 : MessageEvent := vote "c1" "p1" 99 "2025-01-01T00:03:00.000Z".
Definition vote_no : MessageEvent := vote "c1" "p1" 2 "2025-01-01T00:04:00.000Z".

Definition voted_yes (rev : Revision) : World := (messagesHandler rev first_vote pizza).2.

(** Alice has voted "Yes"; her connection is registered again, with the same
    email under another name. *)
Definition alicia : User := {| name := "Alicia"; email := "alice@example.com" |}.
Definition renamed : World := (connectHandler (connect "c1" alicia) (voted_yes votes_mjs)).2.

Definition bob_votes_no : MessageEvent := vote "c2" "p1" 2 "2025-01-01T00:05:00.000Z".
Definition bob_votes_99 : MessageEvent := vote "c2" "p1" 99 "2025-01-01T00:06:00.000Z".
Definition stranger_votes : MessageEvent := vote "c7" "p1" 1 "2025-01-01T00:07:00.000Z".

(** Scenarios A, B and C followed by a vote of bob. *)
Definition scenario_votes : list MessageEvent :=
  [first_vote; vote_no; same_vote_later; bob_votes_no].

(** A run with failures that write nothing: an unknown connection and an
    invalid first vote. *)
Definition harmless_failures : list MessageEvent :=
  [first_vote; stranger_votes; bob_votes_99; vote_no].

(** Alice changes her vote to "No" while the store refuses the fourth
    request of the call, the increment. *)
Definition increment_refused : World :=
  with_outages [false; false; false; true] (voted_yes votes_mjs).

(** A poll of ten options, with the same listeners. *)
Definition ten_options : list string :=
  ["a"; "b"; "c"; "d"; "e"; "f"; "g"; "h"; "i"; "j"].

Definition poll_of_ten : World :=
  with_listeners (createPollHandler (create_poll "p10" ten_options) empty_world).2.

Definition vote_in_ten : MessageEvent := vote "c1" "p10" 3 "2025-01-01T00:08:00.000Z".

(** A computation keeps a component of the world when running it, to a
    result or to an exception, leaves that component as it was. *)
Definition keeps {X A} (proj : World → X) (c : M A) : Prop :=
  ∀ w, proj (c w).2 = proj w.

(** * The handlers beyond the vote path *)

(** Every request from here on is served: the schedule holds no outage. *)
Definition available (w : World) : Prop := first_outage (outages w) = None.

(** ** What createPollHandler writes *)

(** The owner [createPollHandler] records: [claims.name || userEmail]. *)
Definition owner_of (claims : User) : User :=
  {| name := if decide (name claims = "") then email claims else name claims;
     email := email claims |}.

(** The put requests of one [createPollHandler] call. *)
Definition poll_items (event : CreatePollEvent) (body : PollBody) : list (Key * Item) :=
  ((POLL (cp_uuid event), "POLL"),
   PollItem (cp_uuid event) (pb_question body) (owner_of (cp_claims event)) (cp_now event))
  :: option_items (cp_uuid event) (pb_options body).

Definition put_all (items : list (Key * Item)) (t : Table) : Table :=
  foldl (λ acc kv, <[kv.1 := kv.2]> acc) t items.

(** The poll holds its [N] option items, each under the sort key of its
    ordinal, and every Vote record of the poll names one of them. *)
Definition poll_intact (pollId : string) (N : nat) (t : Table) : Prop :=
  has_options pollId N t ∧
  (∀ i, (1 ≤ i ≤ Z.of_nat N)%Z →
     ∃ txt n, t !! (POLL pollId, OPTION (Some i)) = Some (OptionItem i txt n)) ∧
  (∀ sk it, t !! (POLL pollId, sk) = Some it → String.prefix "VOTE#" sk = true →
     ∃ o u c, it = VoteItem o u c ∧ (1 ≤ o ≤ Z.of_nat N)%Z).

(** ** The polls Lambda: the read and delete handlers of polls.mjs *)

(** [item.pollId], [item.question], [item.createdAt], [item.owner],
    [item.user] *)
Definition get_pollId (it : Item) : option string :=
  match it with
  | PollItem p _ _ _ => Some p
  | _ => None
  end.
Definition get_question (it : Item) : option string :=
  match it with
  | PollItem _ q _ _ => Some q
  | _ => None
  end.
Definition get_createdAt (it : Item) : option Timestamp :=
  match it with
  | PollItem _ _ _ c => Some c
  | VoteItem _ _ c => c
  | OptionItem _ _ _ => None
  end.
Definition get_owner (it : Item) : option User :=
  match it with
  | PollItem _ _ o _ => Some o
  | _ => None
  end.
Definition get_user (it : Item) : option User :=
  match it with
  | VoteItem _ u _ => Some u
  | _ => None
  end.

(** [`${x}`] for a string that may be [undefined]. *)
Definition template_string (x : option string) : string := default "undefined" x.

(** [!x] for a string that may be [undefined]. *)
Definition falsy (x : option string) : bool :=
  match x with
  | None | Some EmptyString => true
  | Some _ => false
  end.

(** One element of the [votes] array of a poll. *)
Record VoteEntry := {
  v_user : option User;
  v_optionId : option Z;
  v_createdAt : option Timestamp
}.

(** The [poll] object of the read handlers.  A field is [None] when its
    JavaScript value is [undefined], or when the handler builds no such
    field. *)
Record PollView := {
  pv_pollId : option string;
  pv_question : option string;
  pv_createdAt : option Timestamp;
  pv_owner : option User;
  pv_options : list OptionEntry;
  pv_votes : option (list VoteEntry);
  pv_userOption : option Z
}.

(** What a handler of the polls Lambda can throw. *)
Inductive Exception :=
| StoreError (err : Error)          (* a rejected [ddbDocClient.send] *)
| TypeError (property : string).    (* reading [property] of undefined *)

Definition exception_message (exn : Exception) : string :=
  match exn with
  | StoreError err => message err
  | TypeError property =>
      "Cannot read properties of undefined (reading '" +:+ property +:+ "')"
  end.

Inductive PollsLog :=
| LogCreatePoll (exn : Exception)   (* console.error("Error creating poll:", error) *)
| LogFetchPoll (exn : Exception)    (* console.error("Error fetching poll:", error) *)
| LogListPolls (exn : Exception)    (* console.error("Error listing polls:", error) *)
| LogAuthPolls (exn : Exception)    (* console.error("Error fetching authenticated polls:", err) *)
| LogAuthPoll (exn : Exception)     (* console.error("Error fetching authenticated poll:", err) *)
| LogDeletePoll (exn : Exception).  (* console.error("Error deleting poll:", err) *)

(** Response bodies of the polls Lambda, before [JSON.stringify]. *)
Inductive PollsBody :=
| Plain (b : Body)
| PollJSON (poll : PollView)
| PollsJSON (polls : list PollView).

Record PollsResponse := {
  pr_statusCode : Z;
  pr_body : option PollsBody;
  pr_headers : option (gmap string string)
}.

Definition respond (status : Z) (b : PollsBody) : PollsResponse :=
  {| pr_statusCode := status; pr_body := Some b; pr_headers := None |}.

(** The state of the polls Lambda: the world, and the error reports of its
    read and delete handlers, newest first. *)
Record PollsWorld := { world : World; polls_console : list PollsLog }.

Definition with_world (w : World) (pw : PollsWorld) : PollsWorld :=
  {| world := w; polls_console := polls_console pw |}.

Definition with_report (l : PollsLog) (pw : PollsWorld) : PollsWorld :=
  {| world := world pw; polls_console := l :: polls_console pw |}.

(** Handler bodies of the polls Lambda. *)
Inductive Result (A : Type) :=
| Ok (a : A)
| Raise (exn : Exception).
Arguments Ok {A} a.
Arguments Raise {A} exn.

Definition R (A : Type) : Type := PollsWorld → Result A * PollsWorld.

Definition ok {A} (a : A) : R A := λ pw, (Ok a, pw).
Definition raise {A} (exn : Exception) : R A := λ pw, (Raise exn, pw).
Definition and_then {A B} (c : R A) (k : A → R B) : R B :=
  λ pw, match c pw with
        | (Ok a, pw') => k a pw'
        | (Raise exn, pw') => (Raise exn, pw')
        end.

(** One [await ddbDocClient.send(...)]. *)
Definition request {A} (c : M A) : R A :=
  λ pw, match c (world pw) with
        | (Return a, w') => (Ok a, with_world w' pw)
        | (Throw err, w') => (Raise (StoreError err), with_world w' pw)
        end.

(** [x.property] where [x] may be undefined. *)
Definition defined {A} (property : string) (x : option A) : R A :=
  match x with
  | Some a => ok a
  | None => raise (TypeError property)
  end.

Declare Scope polls_scope.
Delimit Scope polls_scope with polls.
Notation "'await' x ← c ;; k" := (and_then c (λ x, k))
  (at level 10, x name, c at level 99, k at level 200,
   format "'[v' 'await'  x  ←  c  ;;  '/' k ']'") : polls_scope.
Notation "'run' c ;; k" := (and_then c (λ _, k))
  (at level 10, c at level 99, k at level 200,
   format "'[v' 'run'  c  ;;  '/' k ']'") : polls_scope.

(** [try { c } catch (error) { h error }] *)
Definition catching {A} (c : R A) (h : Exception → PollsWorld → A * PollsWorld)
  : PollsWorld → A * PollsWorld :=
  λ pw, match c pw with
        | (Ok a, pw') => (a, pw')
        | (Raise exn, pw') => h exn pw'
        end.

(** [for (const item of items) { ...; polls.push(...) }] *)
Fixpoint for_of {A B} (items : list A) (body : A → R B) : R (list B) :=
  match items with
  | [] => ok []
  | item :: rest =>
      (await b ← body item ;;
       await bs ← for_of rest body ;;
       ok (b :: bs))%polls
  end.

(** [QueryCommand] with [PK = :pk]: the items of one partition, in ascending
    order of the sort key. *)
Definition QueryPK (pk : string) (t : Table) : list (Key * Item) :=
  merge_sort by_SK (filter (λ kv, kv.1.1 = pk) (map_to_list t)).

Definition QueryPartition (pk : string) : M (list (Key * Item)) :=
  send (λ w, (Return (QueryPK pk (POLLS_TABLE w)), w)).

(** [ScanCommand] with the filter [SK = :sk]. *)
Definition ScanSK (sk : string) : M (list (Key * Item)) :=
  send (λ w, (Return (filter (λ kv, kv.1.2 = sk) (map_to_list (POLLS_TABLE w))), w)).

(** [BatchWriteCommand] of delete requests: at most 25 per call. *)
Definition BatchDelete (keys : list Key) (t : Table) : option Table :=
  if decide (length keys ≤ 25)
  then Some (foldl (λ acc key, delete key acc) t keys)
  else None.

Definition BatchDeleteItems (keys : list Key) : M unit :=
  send (λ w, match BatchDelete keys (POLLS_TABLE w) with
             | Some t => (Return tt, with_polls (λ _, t) w)
             | None => (Throw ValidationException, w)
             end).

(** An event of the REST API as the handlers read it. *)
Record PollsEvent := {
  httpMethod : string;
  resource : string;
  (** [event.pathParameters.pollId] *)
  pathParameters : option string;
  (** [event.requestContext.authorizer.claims]; [None] on a route without
      authorizer *)
  authorizer : option User;
  (** [event.body] parsed, and what [uuidv4()] and [new Date()] return
      during the call *)
  pe_body : option PollBody;
  pe_uuid : string;
  pe_now : Timestamp
}.

(** The two revisions of polls.mjs in the repository.  The second adds the
    [votes] array to the single-poll handlers and has [deletePollHandler];
    its list handlers read a secondary index and are not modelled. *)
Inductive PollsRevision := polls_mjs | polls_mjs_votes.

(** [result.Items.find((item) => item.SK === "POLL")] *)
Definition find_SK (sk : string) (items : list (Key * Item)) : option (Key * Item) :=
  head (filter (λ item, item.1.2 = sk) items).

(** [items.filter((item) => item.SK.startsWith(prefix))] *)
Definition startsWith (prefix : string) (items : list (Key * Item)) : list (Key * Item) :=
  filter (λ item, String.prefix prefix item.1.2 = true) items.

(** [(opt) => ({ id: opt.optionId, text: opt.text, votesCount: opt.votesCount })] *)
Definition option_view (opt : Key * Item) : OptionEntry :=
  {| id := get_optionId opt.2; text := get_text opt.2; votesCount := get_votesCount opt.2 |}.

(** [(vote) => ({ user: vote.user, optionId: vote.optionId, createdAt: vote.createdAt })] *)
Definition vote_view (vote : Key * Item) : VoteEntry :=
  {| v_user := get_user vote.2; v_optionId := get_optionId vote.2;
     v_createdAt := get_createdAt vote.2 |}.

Definition votes_field (rev : PollsRevision) (items : list (Key * Item))
  : option (list VoteEntry) :=
  match rev with
  | polls_mjs => None
  | polls_mjs_votes => Some (vote_view <$> startsWith "VOTE#" items)
  end.

Definition getPollHandler (rev : PollsRevision) (event : PollsEvent)
  : PollsWorld → PollsResponse * PollsWorld :=
  catching
    (let pollId := pathParameters event in
     if falsy pollId
     then ok (respond 400 (Plain (MessageBody "Missing pollId")))
     else
       (await result ← request (QueryPartition (POLL (template_string pollId))) ;;
        if decide (result = [])
        then ok (respond 404 (Plain (MessageBody "Poll not found")))
        else
          let pollItem := find_SK "POLL" result in
          let options := option_view <$> startsWith "OPTION#" result in
          let votesResult := votes_field rev result in
          await pollItem ← defined "pollId" pollItem ;;
          ok (respond 200
                (PollJSON {| pv_pollId := get_pollId pollItem.2;
                             pv_question := get_question pollItem.2;
                             pv_createdAt := get_createdAt pollItem.2;
                             pv_owner := get_owner pollItem.2;
                             pv_options := options;
                             pv_votes := votesResult;
                             pv_userOption := None |})))%polls)
    (λ error pw,
       (respond 500 (Plain (FailureBody "Failed to fetch poll" (exception_message error))),
        with_report (LogFetchPoll error) pw)).

(** The options of one listed poll: the body of the loop up to [options]. *)
Definition list_options (pollId : option string) : R (list OptionEntry) :=
  (await optionsResult ← request (QueryItems (POLL (template_string pollId)) "OPTION#") ;;
   ok (option_view <$> optionsResult))%polls.

Definition listPollsHandler : PollsWorld → PollsResponse * PollsWorld :=
  catching
    (await result ← request (ScanSK "POLL") ;;
     if decide (result = [])
     then ok (respond 200 (PollsJSON []))
     else
       await polls ← for_of result (λ pollItem,
         let pollId := get_pollId pollItem.2 in
         await options ← list_options pollId ;;
         ok {| pv_pollId := pollId;
               pv_question := get_question pollItem.2;
               pv_createdAt := get_createdAt pollItem.2;
               pv_owner := get_owner pollItem.2;
               pv_options := options;
               pv_votes := None;
               pv_userOption := None |}) ;;
       ok (respond 200 (PollsJSON polls)))%polls
    (λ error pw,
       (respond 500 (Plain (FailureBody "Failed to fetch polls" (exception_message error))),
        with_report (LogListPolls error) pw)).

Definition authListPolls (event : PollsEvent) : PollsWorld → PollsResponse * PollsWorld :=
  catching
    (let userEmail := email <$> authorizer event in
     await result ← request (ScanSK "POLL") ;;
     await polls ← for_of result (λ pollItem,
       let pollId := get_pollId pollItem.2 in
       await options ← list_options pollId ;;
       await userVote ← request (GetItem (POLL (template_string pollId),
                                          VOTE (template_string userEmail))) ;;
       ok {| pv_pollId := pollId;
             pv_question := get_question pollItem.2;
             pv_createdAt := get_createdAt pollItem.2;
             pv_owner := get_owner pollItem.2;
             pv_options := options;
             pv_votes := None;
             pv_userOption := userVote ≫= get_optionId |}) ;;
     ok (respond 200 (PollsJSON polls)))%polls
    (λ err pw,
       (respond 500 (Plain (ErrorBody (exception_message err))),
        with_report (LogAuthPolls err) pw)).

Definition authGetPoll (rev : PollsRevision) (event : PollsEvent)
  : PollsWorld → PollsResponse * PollsWorld :=
  catching
    (await claims ← defined "claims" (authorizer event) ;;
     let userEmail := email claims in
     let pollId := pathParameters event in
     await result ← request (QueryPartition (POLL (template_string pollId))) ;;
     if decide (result = [])
     then ok (respond 404 (Plain (MessageBody "Poll not found")))
     else
       let pollItem := find_SK "POLL" result in
       let options := option_view <$> startsWith "OPTION#" result in
       let votesResult := votes_field rev result in
       await userVote ← request (GetItem (POLL (template_string pollId), VOTE userEmail)) ;;
       await pollItem ← defined "question" pollItem ;;
       ok (respond 200
             (PollJSON {| pv_pollId := pollId;
                          pv_question := get_question pollItem.2;
                          pv_createdAt := get_createdAt pollItem.2;
                          pv_owner := get_owner pollItem.2;
                          pv_options := options;
                          pv_votes := votesResult;
                          pv_userOption := userVote ≫= get_optionId |})))%polls
    (λ err pw,
       (respond 500 (Plain (ErrorBody (exception_message err))),
        with_report (LogAuthPoll err) pw)).

(** [while (deleteRequests.length > 0) { chunk = deleteRequests.splice(0, 25); ... }]
    Every round takes at least one request off the list, so [fuel] rounds
    suffice when [fuel] is the length of the list. *)
Fixpoint delete_chunks (fuel : nat) (deleteRequests : list Key) : R unit :=
  match fuel with
  | 0 => ok tt
  | S fuel' =>
      if decide (deleteRequests = []) then ok tt
      else
        let chunk := take 25 deleteRequests in
        let deleteRequests := drop 25 deleteRequests in
        (run request (BatchDeleteItems chunk) ;;
         delete_chunks fuel' deleteRequests)%polls
  end.

Definition deletePollHandler (event : PollsEvent) : PollsWorld → PollsResponse * PollsWorld :=
  catching
    (await claims ← defined "claims" (authorizer event) ;;
     let userId := email claims in
     let pollId := pathParameters event in
     await poll ← request (GetItem (POLL (template_string pollId), "POLL")) ;;
     match poll with
     | None => ok (respond 404 (Plain (MessageBody "Poll not found")))
     | Some item =>
         await owner ← defined "email" (get_owner item) ;;
         if decide (email owner ≠ userId)
         then ok (respond 403 (Plain (MessageBody "You are not the owner of this poll")))
         else
           await pollItems ← request (QueryPartition (POLL (template_string pollId))) ;;
           if decide (pollItems = [])
           then ok (respond 404 (Plain (MessageBody "No items found for this poll")))
           else
             let deleteRequests := fst <$> pollItems in
             run delete_chunks (length deleteRequests) deleteRequests ;;
             ok (respond 200 (Plain (MessageBody "Poll deleted successfully")))
     end)%polls
    (λ err pw,
       (respond 500 (Plain (FailureBody "Failed to delete poll" (exception_message err))),
        with_report (LogDeletePoll err) pw)).

(** [includeHeader]: the response with the CORS header added to its headers. *)
Definition includeHeader (response : PollsResponse) : PollsResponse :=
  {| pr_statusCode := pr_statusCode response;
     pr_body := pr_body response;
     pr_headers := Some (<["Access-Control-Allow-Origin" := "*"]>
                           (default ∅ (pr_headers response))) |}.

(** [createPollHandler(event)] on an event of the dispatcher.  The handler
    reads [event.requestContext.authorizer.claims] inside its [try]; on a
    route without authorizer the read throws and its [catch] answers. *)
Definition createPoll (event : PollsEvent) : PollsWorld → PollsResponse * PollsWorld :=
  λ pw,
    match authorizer event with
    | Some claims =>
        let r := createPollHandler {| cp_claims := claims; cp_body := pe_body event;
                                      cp_uuid := pe_uuid event; cp_now := pe_now event |}
                   (world pw) in
        ({| pr_statusCode := statusCode r.1; pr_body := Plain <$> body r.1;
            pr_headers := None |},
         with_world r.2 pw)
    | None =>
        (respond 500 (Plain (FailureBody "Failed to create poll"
                               (exception_message (TypeError "claims")))),
         with_report (LogCreatePoll (TypeError "claims")) pw)
    end.

(** The dispatcher of the first revision. *)
Definition pollsHandler (event : PollsEvent) : PollsWorld → PollsResponse * PollsWorld :=
  let answer (handler : PollsWorld → PollsResponse * PollsWorld) :=
    λ pw, (includeHeader (handler pw).1, (handler pw).2) in
  if decide (httpMethod event = "POST") then answer (createPoll event)
  else if decide (httpMethod event = "GET" ∧ resource event = "/polls")
  then answer listPollsHandler
  else if decide (httpMethod event = "GET" ∧ resource event = "/polls/{pollId}")
  then answer (getPollHandler polls_mjs event)
  else if decide (httpMethod event = "GET" ∧ resource event = "/pollsAuth")
  then answer (authListPolls event)
  else if decide (httpMethod event = "GET" ∧ resource event = "/pollsAuth/{pollId}")
  then answer (authGetPoll polls_mjs event)
  else answer (λ pw, ({| pr_statusCode := 400;
                         pr_body := Some (Plain (ErrorBody "Unsupported route"));
                         pr_headers := None |}, pw)).

(** ** What the handlers of the polls Lambda read and build *)

(** What the handlers of the polls Lambda can change in the world besides
    the availability schedule. *)
Definition contents (w : World) : Table * ConnTable * list (string * Payload) :=
  (POLLS_TABLE w, CONNECTIONS_TABLE w, posted w).

Definition reads {A} (c : R A) : Prop :=
  ∀ pw, contents (world (c pw).2) = contents (world pw).

(** The [votes] array of the second revision, from the table. *)
Definition votes_of (rev : PollsRevision) (pollId : string) (t : Table)
  : option (list VoteEntry) :=
  match rev with
  | polls_mjs => None
  | polls_mjs_votes => Some (vote_view <$> vote_records pollId t)
  end.

(** The [poll] object [getPollHandler] builds from a header item. *)
Definition poll_view (rev : PollsRevision) (pollId : string) (header : Item) (t : Table)
  : PollView :=
  {| pv_pollId := get_pollId header;
     pv_question := get_question header;
     pv_createdAt := get_createdAt header;
     pv_owner := get_owner header;
     pv_options := option_view <$> Query (POLL pollId) "OPTION#" t;
     pv_votes := votes_of rev pollId t;
     pv_userOption := None |}.

(** The [poll] object [authGetPoll] builds. *)
Definition auth_poll_view (rev : PollsRevision) (event : PollsEvent) (claims : User)
    (header : Item) (t : Table) : PollView :=
  let pollId := template_string (pathParameters event) in
  {| pv_pollId := pathParameters event;
     pv_question := get_question header;
     pv_createdAt := get_createdAt header;
     pv_owner := get_owner header;
     pv_options := option_view <$> Query (POLL pollId) "OPTION#" t;
     pv_votes := votes_of rev pollId t;
     pv_userOption := t !! (POLL pollId, VOTE (email claims)) ≫= get_optionId |}.

(** The entry of a poll in the lists of [listPollsHandler] and, with the
    caller's vote, of [authListPolls]. *)
Definition listed (userEmail : option (option string)) (t : Table) (pollItem : Key * Item)
  : PollView :=
  let pollId := get_pollId pollItem.2 in
  {| pv_pollId := pollId;
     pv_question := get_question pollItem.2;
     pv_createdAt := get_createdAt pollItem.2;
     pv_owner := get_owner pollItem.2;
     pv_options := option_view <$> Query (POLL (template_string pollId)) "OPTION#" t;
     pv_votes := None;
     pv_userOption :=
       userEmail ≫= λ e,
         t !! (POLL (template_string pollId), VOTE (template_string e)) ≫= get_optionId |}.

Definition delete_all (keys : list Key) (t : Table) : Table :=
  foldl (λ acc key, delete key acc) t keys.

(** The user that a connect registers: the name and the email of the
    authorizer context, when the event carries a context with both. *)
Definition registered_user (event : ConnectEvent) : option User :=
  match ce_authorizer event with
  | Some {| username := Some name; context_email := Some email |} =>
      Some {| name := name; email := email |}
  | _ => None
  end.

(** ** The WebSocket authorizer (auth.mjs) *)

(** The claims of a verified token that the handler reads: [decoded.sub],
    [decoded.name], [decoded.email]. *)
Record Decoded := {
  sub : option string;
  decoded_name : option string;
  decoded_email : option string
}.

Record PolicyStatement := { Action : string; Effect : string; Resource : string }.

Record PolicyDocument := { Version : string; Statement : list PolicyStatement }.

(** [authResponse]; [context] is [None] for the empty object [{}]. *)
Record AuthResponse := {
  principalId : option string;
  policyDocument : PolicyDocument;
  context : option UserContext
}.

Record AuthorizerEvent := {
  (** [event.queryStringParameters?.token] *)
  query_token : option string;
  methodArn : string
}.

Inductive AuthFailure :=
| NoTokenProvided     (* new Error('Unauthorized: No token provided') *)
| TokenRejected.      (* the rejection of [verifyToken] *)

Inductive AuthLog :=
| LogAuthorizerEvent (event : AuthorizerEvent)  (* console.log('WebSocket Authorizer Event:', ...) *)
| LogNoToken                                    (* console.log('No token provided') *)
| LogVerifying                                  (* console.log('Verifying token...') *)
| LogVerified (decoded : Decoded)               (* console.log('Token verified successfully:', decoded) *)
| LogPolicy (policy : AuthResponse)             (* console.log('Generated policy:', ...) *)
| LogAuthorizationFailed (error : AuthFailure). (* console.error('Authorization failed:', error) *)

Definition generatePolicy (principalId : option string) (effect resource : string)
    (context : option UserContext) : AuthResponse :=
  {| principalId := principalId;
     policyDocument :=
       {| Version := "2012-10-17";
          Statement := [ {| Action := "execute-api:Invoke";
                            Effect := effect;
                            Resource := resource |} ] |};
     context := context |}.

Section Authorizer.
(** [verifyToken]: the token checked against the keys of the user pool;
    [None] when the promise is rejected. *)
Variable verifyToken : string → option Decoded.

Definition webSocketAuthorizerHandler (event : AuthorizerEvent)
  : AuthResponse * list AuthLog :=
  let attempt : list AuthLog * (AuthFailure + AuthResponse) :=
    let token := query_token event in
    if falsy token then ([LogNoToken], inl NoTokenProvided)
    else
      match verifyToken (template_string token) with
      | None => ([LogVerifying], inl TokenRejected)
      | Some decoded =>
          let userId := sub decoded in
          let username := decoded_name decoded in
          let email := decoded_email decoded in
          let policy :=
            generatePolicy userId "Allow" (methodArn event)
              (Some {| userId := userId; username := username; context_email := email |}) in
          ([LogVerifying; LogVerified decoded; LogPolicy policy], inr policy)
      end in
  match attempt with
  | (logs, inr policy) => (policy, LogAuthorizerEvent event :: logs)
  | (logs, inl error) =>
      (generatePolicy (Some "user") "Deny" (methodArn event) None,
       LogAuthorizerEvent event :: logs ++ [LogAuthorizationFailed error])
  end.
End Authorizer.

(** ** Scenario data of the polls Lambda *)

(** Scenario data of the polls Lambda *)
Definition lambda (w : World) : PollsWorld := {| world := w; polls_console := [] |}.

Definition rest_event (method route : string) (pollId : option string)
    (claims : option User) : PollsEvent :=
  {| httpMethod := method; resource := route; pathParameters := pollId;
     authorizer := claims; pe_body := None; pe_uuid := "";
     pe_now := "2025-01-01T00:09:00.000Z" |}.

Definition get_p1 : PollsEvent := rest_event "GET" "/polls/{pollId}" (Some "p1") None.
Definition alice_gets_p1 : PollsEvent :=
  rest_event "GET" "/pollsAuth/{pollId}" (Some "p1") (Some alice).
Definition alice_deletes_p1 : PollsEvent :=
  rest_event "DELETE" "/polls/{pollId}" (Some "p1") (Some alice).

Definition vote_body (pollId : string) (optionId : Z) : VoteBody :=
  {| vb_pollId := pollId; vb_optionId := optionId |}.

Definition carol : User := {| name := "Carol"; email := "carol@example.com" |}.
Definition carol_votes_no : MessageEvent := vote "c3" "p1" 2 "2025-01-01T00:10:00.000Z".

(** Alice votes "Yes" while the store refuses the fourth request of the
    call, the put of her Vote record. *)
Definition put_refused : World := with_outages [false; false; false; true] pizza.

(** * Proofs *)

(** ** Frame: what a computation leaves alone *)

Section Frame.
Context {X : Type} (proj : World → X).
#[local] Abbreviation keeps := (keeps proj).

Hypothesis proj_tick : ∀ w, proj (tick w) = proj w.

Lemma keeps_ret {A} (a : A) : keeps (ret a).
Proof. by intros w. Qed.

Lemma keeps_throw {A} err : keeps (@throw A err).
Proof. by intros w. Qed.

Lemma keeps_bind {A B} (c : M A) (k : A → M B) :
  keeps c → (∀ a, keeps (k a)) → keeps (bind c k).
Proof.
  intros Hc Hk w. unfold bind. specialize (Hc w).
  destruct (c w) as [[a|err] w1]; simpl in *; [|done].
  by rewrite Hk.
Qed.

Lemma keeps_send {A} (cmd : World → Outcome A * World) :
  keeps cmd → keeps (send cmd).
Proof.
  intros Hc w. unfold send. destruct (refused w); simpl; [done|].
  by rewrite Hc.
Qed.

Lemma keeps_JSON_parse {A} (b : option A) : keeps (JSON_parse b).
Proof. destruct b; [apply keeps_ret|apply keeps_throw]. Qed.

Lemma keeps_connection_user conn : keeps (connection_user conn).
Proof.
  destruct conn as [[[u|]]|]; first [apply keeps_ret|apply keeps_throw].
Qed.

Lemma keeps_allSettled tasks :
  Forall keeps tasks → keeps (allSettled tasks).
Proof.
  induction 1 as [|task rest Ht _ IH]; intros w; simpl; [done|].
  by rewrite IH.
Qed.

Lemma keeps_try_catch {A} (c : M A) (h : Error → World → A * World) :
  keeps c → (∀ err w, proj (h err w).2 = proj w) →
  ∀ w, proj (try_catch c h w).2 = proj w.
Proof.
  intros Hc Hh w. unfold try_catch. specialize (Hc w).
  destruct (c w) as [[a|err] w1]; simpl in *; [done|].
  by rewrite Hh.
Qed.
End Frame.

(** ** Requests and the tables they touch *)

Lemma keeps_notify {X} (proj : World → X) data conn :
  (∀ l w, proj (with_console l w) = proj w) →
  (∀ m w, proj (with_posted m w) = proj w) →
  keeps proj (notify data conn).
Proof.
  intros Hc Hp w. unfold notify, try_catch, PostToConnection.
  destruct (decide _); simpl; [apply Hc|apply Hp].
Qed.

Lemma keeps_broadcast {X} (proj : World → X) data conns :
  (∀ l w, proj (with_console l w) = proj w) →
  (∀ m w, proj (with_posted m w) = proj w) →
  keeps proj (allSettled (notify data <$> conns)).
Proof.
  intros Hc Hp. apply keeps_allSettled, Forall_fmap, Forall_forall.
  intros conn _. by apply keeps_notify.
Qed.

(** Every request of [messagesHandler] reads the registry or writes
    POLLS_TABLE; none writes the registry. *)
Lemma keeps_registry_UpdateItem key delta :
  keeps CONNECTIONS_TABLE (UpdateItem key delta).
Proof.
  apply keeps_send; [done|]. intros w.
  by destruct (UpdateVotesCount key delta (POLLS_TABLE w)).
Qed.

(** C10: handling a vote event leaves the connection registry exactly as it
    was, whatever the event, the state of the store and the number of
    failed deliveries; in particular no connection is pruned. *)
Theorem messagesHandler_keeps_registry rev event w :
  CONNECTIONS_TABLE (messagesHandler rev event w).2 = CONNECTIONS_TABLE w.
Proof.
  apply (keeps_try_catch CONNECTIONS_TABLE); [|done].
  apply keeps_bind; [apply keeps_JSON_parse|intros body].
  apply keeps_bind; [by apply keeps_send|intros conn].
  apply keeps_bind; [apply keeps_connection_user|intros user].
  apply keeps_bind; [by apply keeps_send|intros previousVote].
  apply keeps_bind.
  { destruct previousVote; [apply keeps_registry_UpdateItem|apply keeps_ret]. }
  intros _. apply keeps_bind; [apply keeps_registry_UpdateItem|intros _].
  apply keeps_bind; [by apply keeps_send|intros _].
  apply keeps_bind; [by apply keeps_send|intros pollResult].
  apply keeps_bind; [by apply keeps_send|intros connections].
  apply keeps_bind; [by apply keeps_broadcast|intros _].
  apply keeps_ret.
Qed.

(** ** The broadcast *)

Lemma broadcast_run data conns w :
  allSettled (notify data <$> conns) w =
  (Return tt,
   {| POLLS_TABLE := POLLS_TABLE w; CONNECTIONS_TABLE := CONNECTIONS_TABLE w;
      posted := deliveries data (stale w) conns ++ posted w;
      console := send_errors (stale w) conns ++ console w;
      stale := stale w; outages := outages w |}).
Proof.
  revert w. induction conns as [|conn conns IH]; intros w.
  { by destruct w. }
  simpl. rewrite IH. unfold notify, try_catch, PostToConnection, deliveries, send_errors.
  rewrite !filter_cons.
  destruct (decide (conn.1 ∈ stale w)) as [Hin|Hin]; simpl.
  - rewrite decide_False by tauto. simpl. rewrite reverse_cons, <-app_assoc. done.
  - rewrite decide_True by done. simpl. rewrite reverse_cons, <-app_assoc. done.
Qed.

(** ** Running the handler step by step *)

Lemma bind_eq {A B} (c : M A) (k : A → M B) w :
  bind c k w = match c w with
               | (Return a, w') => k a w'
               | (Throw err, w') => (Throw err, w')
               end.
Proof. done. Qed.
Lemma send_eq {A} (cmd : World → Outcome A * World) w :
  send cmd w = if refused w then (Throw ServiceUnavailable, tick w) else cmd (tick w).
Proof. done. Qed.

Ltac fields H :=
  cbn [POLLS_TABLE CONNECTIONS_TABLE posted console stale outages
       tick with_polls with_connections with_posted with_console fst snd
       statusCode body] in H.
Ltac fields_goal :=
  cbn [POLLS_TABLE CONNECTIONS_TABLE posted console stale outages
       tick with_polls with_connections with_posted with_console fst snd
       statusCode body].
Ltac served H :=
  rewrite bind_eq, send_eq in H;
  match type of H with
  | context [if refused ?x then _ else _] =>
      let Hs := fresh "Hserved" in destruct (refused x) eqn:Hs
  end; cbn beta iota in H; fields H.


Lemma vote_tail_cases rev event body user w1 o wf :
  (run UpdateItem (POLL (vb_pollId body), OPTION (Some (vb_optionId body))) 1 ;;
   run PutItem (POLL (vb_pollId body), VOTE (email user))
         (VoteItem (vb_optionId body) user (stamp rev event)) ;;
   await pollResult ← QueryItems (POLL (vb_pollId body)) "OPTION#" ;;
   await connections ← ScanConnections ;;
   run allSettled
         (notify {| p_pollId := vb_pollId body;
                    p_options := option_entry <$> pollResult;
                    p_user := user;
                    p_createdAt := stamp rev event |} <$> connections) ;;
   ret {| statusCode := 200; body := None |}) w1 = (o, wf) →
  ((∃ err, o = Throw err) ∧ posted wf = posted w1 ∧
   (POLLS_TABLE wf = POLLS_TABLE w1
    ∨ ∃ t2, increment (vb_pollId body) (vb_optionId body) (POLLS_TABLE w1) = Some t2 ∧
        (POLLS_TABLE wf = t2 ∨
         POLLS_TABLE wf = record (vb_pollId body) user (vb_optionId body) (stamp rev event) t2)))
  ∨ (o = Return {| statusCode := 200; body := None |} ∧
     ∃ t2, increment (vb_pollId body) (vb_optionId body) (POLLS_TABLE w1) = Some t2 ∧
       POLLS_TABLE wf = record (vb_pollId body) user (vb_optionId body) (stamp rev event) t2 ∧
       posted wf = deliveries (payload rev event body user (POLLS_TABLE wf)) (stale w1)
                     (map_to_list (CONNECTIONS_TABLE w1)) ++ posted w1 ∧
       console wf = send_errors (stale w1) (map_to_list (CONNECTIONS_TABLE w1)) ++ console w1).
Proof.
  intros H. unfold UpdateItem, PutItem, QueryItems, ScanConnections in H.
  served H. { simplify_eq. left. eauto. }
  unfold increment.
  destruct (UpdateVotesCount _ 1 (POLLS_TABLE w1)) as [t2|] eqn:Hinc;
    cbn beta iota in H; fields H.
  2:{ simplify_eq. left. eauto. }
  served H. { simplify_eq. left. repeat split; eauto. }
  served H. { simplify_eq. left. repeat split; eauto. }
  served H. { simplify_eq. left. repeat split; eauto. }
  rewrite bind_eq, broadcast_run in H. unfold ret in H. fields H.
  simplify_eq. right. split; [done|]. by exists t2.
Qed.

(** Every run of [messagesHandler] ends in one of these ways: it fails
    having written nothing; or the caller was resolved and a prefix of the
    three ledger writes is in the table, with either a failure and no
    broadcast, or all three writes, the broadcast and status 200. *)
Lemma messagesHandler_cases rev event w resp w' :
  messagesHandler rev event w = (resp, w') →
  (statusCode resp = 500%Z ∧ posted w' = posted w ∧ POLLS_TABLE w' = POLLS_TABLE w)
  ∨ ∃ body user n,
      me_body event = Some body ∧
      CONNECTIONS_TABLE w !! me_connectionId event = Some {| conn_user := Some user |} ∧
      write_prefix (vb_pollId body) user (vb_optionId body) (stamp rev event)
        (POLLS_TABLE w) n (POLLS_TABLE w') ∧
      ((statusCode resp = 500%Z ∧ posted w' = posted w)
       ∨ (n = 3 ∧ resp = {| statusCode := 200; body := None |} ∧
          posted w' = deliveries (payload rev event body user (POLLS_TABLE w')) (stale w)
                         (map_to_list (CONNECTIONS_TABLE w)) ++ posted w ∧
          console w' = send_errors (stale w) (map_to_list (CONNECTIONS_TABLE w))
                          ++ console w)).
Proof.
  intros H. unfold messagesHandler, try_catch in H.
  rewrite bind_eq in H.
  destruct (me_body event) as [body|] eqn:Hbody;
    cbn [JSON_parse ret throw] in H; cbn beta iota in H;
    [|simplify_eq; by left].
  unfold GetConnection, GetItem in H.
  served H; [simplify_eq; by left|].
  rewrite bind_eq in H.
  destruct (CONNECTIONS_TABLE w !! me_connectionId event) as [[[user|]]|] eqn:Hconn;
    cbn [connection_user ret throw] in H; cbn beta iota in H; fields H;
    [|simplify_eq; by left..].
  served H; [simplify_eq; by left|].
  rewrite bind_eq in H.
  right. exists body, user.
  destruct (POLLS_TABLE w !! (POLL (vb_pollId body), VOTE (email user)))
    as [item|] eqn:Hprev.
  - unfold UpdateItem at 1 in H. rewrite send_eq in H.
    destruct (refused (tick (tick w))) eqn:Hs3; cbn beta iota in H; fields H.
    { simplify_eq. exists 0. repeat split; [constructor|by left]. }
    destruct (UpdateVotesCount _ (-1) (POLLS_TABLE w)) as [t1|] eqn:Hdec;
      cbn beta iota in H; fields H.
    2:{ simplify_eq. exists 0. repeat split; [constructor|by left]. }
    assert (Hd : decrement (vb_pollId body) user (POLLS_TABLE w) = Some t1).
    { unfold decrement. by rewrite Hprev. }
    match type of H with
    | (let (_, _) := ?c ?w1 in _) = _ => destruct (c w1) as [o wf] eqn:Htail
    end.
    apply vote_tail_cases in Htail
      as [([err ->] & Hp & Ht)|(-> & t2 & Hinc & Ht & Hp & Hc)];
      fields Hp; fields Ht; simplify_eq; fields_goal.
    + destruct Ht as [Ht|(t2 & Hinc & [Ht|Ht])].
      * exists 1. rewrite Ht. repeat split; [by econstructor|by left].
      * exists 2. rewrite Ht. repeat split; [by econstructor|by left].
      * exists 3. rewrite Ht. repeat split; [by econstructor|by left].
    + exists 3. rewrite Ht at 1. repeat split; [by econstructor|right; done].
  - unfold ret at 1 in H. cbn beta iota in H.
    assert (Hd : decrement (vb_pollId body) user (POLLS_TABLE w) = Some (POLLS_TABLE w)).
    { unfold decrement. by rewrite Hprev. }
    match type of H with
    | (let (_, _) := ?c ?w1 in _) = _ => destruct (c w1) as [o wf] eqn:Htail
    end.
    apply vote_tail_cases in Htail
      as [([err ->] & Hp & Ht)|(-> & t2 & Hinc & Ht & Hp & Hc)];
      fields Hp; fields Ht; simplify_eq; fields_goal.
    + destruct Ht as [Ht|(t2 & Hinc & [Ht|Ht])].
      * exists 0. rewrite Ht. repeat split; [by econstructor|by left].
      * exists 2. rewrite Ht. repeat split; [by econstructor|by left].
      * exists 3. rewrite Ht. repeat split; [by econstructor|by left].
    + exists 3. rewrite Ht at 1. repeat split; [by econstructor|right; done].
Qed.

(** ** Keys and updates *)

Lemma OPTION_prefix x : String.prefix "OPTION#" (OPTION x) = true.
Proof. unfold OPTION. simpl. by destruct (template x). Qed.

Lemma VOTE_prefix u : String.prefix "VOTE#" (VOTE u) = true.
Proof. unfold VOTE. simpl. by destruct u. Qed.

Lemma VOTE_not_option u : String.prefix "OPTION#" (VOTE u) = false.
Proof. reflexivity. Qed.

Lemma OPTION_not_vote x : String.prefix "VOTE#" (OPTION x) = false.
Proof. reflexivity. Qed.

Lemma VOTE_ne_OPTION u x : VOTE u ≠ OPTION x.
Proof. unfold VOTE, OPTION. simpl. discriminate. Qed.

Lemma UpdateVotesCount_Some key delta t t' :
  UpdateVotesCount key delta t = Some t' ↔
  ∃ o txt n, t !! key = Some (OptionItem o txt n) ∧
             t' = <[key := OptionItem o txt (n + delta)]> t.
Proof.
  unfold UpdateVotesCount. split.
  - destruct (t !! key) as [[| o txt n |]|]; intros [=]; subst. eauto.
  - intros (o & txt & n & -> & ->). done.
Qed.

(** An update changes one option item and nothing else. *)
Lemma UpdateVotesCount_lookup_ne key delta t t' key' :
  UpdateVotesCount key delta t = Some t' → key' ≠ key → t' !! key' = t !! key'.
Proof.
  intros (o & txt & n & _ & ->)%UpdateVotesCount_Some ?.
  by rewrite lookup_insert_ne.
Qed.

Lemma UpdateVotesCount_dom key delta t t' :
  UpdateVotesCount key delta t = Some t' → dom t' = dom t.
Proof.
  intros (o & txt & n & Hk & ->)%UpdateVotesCount_Some.
  rewrite dom_insert_L. apply subseteq_union_1_L.
  apply singleton_subseteq_l. by eapply elem_of_dom_2.
Qed.

Lemma decrement_off_options pollId user t t1 key :
  decrement pollId user t = Some t1 →
  String.prefix "OPTION#" key.2 = false → t1 !! key = t !! key.
Proof.
  unfold decrement. intros Hd Hk.
  destruct (t !! (POLL pollId, VOTE (email user))) as [item|]; [|by simplify_eq].
  eapply UpdateVotesCount_lookup_ne; [done|].
  intros ->. cbn [snd] in Hk. by rewrite OPTION_prefix in Hk.
Qed.

Lemma decrement_dom pollId user t t1 :
  decrement pollId user t = Some t1 → dom t1 = dom t.
Proof.
  unfold decrement.
  destruct (t !! (POLL pollId, VOTE (email user))) as [item|]; [|by intros; simplify_eq].
  apply UpdateVotesCount_dom.
Qed.

(** A decrement never creates an option item. *)
Lemma decrement_lookup_None pollId user t t1 key :
  decrement pollId user t = Some t1 → t !! key = None → t1 !! key = None.
Proof.
  intros Hd Hk. apply not_elem_of_dom. rewrite (decrement_dom _ _ _ _ Hd).
  by apply not_elem_of_dom.
Qed.

(** ** C9: disconnecting *)

(** C9: a disconnect event for a connection id with no Connection record
    leaves the registry (and POLLS_TABLE) unchanged, and the handler answers
    200 with no error whenever the store serves the delete request. *)
Theorem disconnect_absent_is_noop event w :
  CONNECTIONS_TABLE w !! de_connectionId event = None →
  CONNECTIONS_TABLE (disconnectHandler event w).2 = CONNECTIONS_TABLE w ∧
  POLLS_TABLE (disconnectHandler event w).2 = POLLS_TABLE w ∧
  (refused w = false →
   (disconnectHandler event w).1 = {| statusCode := 200; body := None |}).
Proof.
  intros Habsent.
  unfold disconnectHandler, try_catch, DeleteConnection, console_log.
  rewrite !bind_eq, send_eq.
  change (refused (with_console (LogDisconnect (de_connectionId event)) w))
    with (refused w).
  destruct (refused w); unfold ret; cbn beta iota; fields_goal; [done|].
  by rewrite delete_id.
Qed.

Lemma disconnect_absent_is_noop_witness :
  CONNECTIONS_TABLE pizza !! "c9" = None ∧
  CONNECTIONS_TABLE (disconnectHandler {| de_connectionId := "c9" |} pizza).2
    = CONNECTIONS_TABLE pizza ∧
  (disconnectHandler {| de_connectionId := "c9" |} pizza).1
    = {| statusCode := 200; body := None |}.
Proof.
  assert (H : CONNECTIONS_TABLE pizza !! "c9" = None) by reflexivity.
  split; [exact H|].
  destruct (disconnect_absent_is_noop {| de_connectionId := "c9" |} pizza H)
    as (Hreg & _ & Hok).
  split; [exact Hreg|]. apply Hok. reflexivity.
Defined.

(** ** Deliveries *)

Lemma elem_of_deliveries data closed conns m :
  m ∈ deliveries data closed conns ↔
  ∃ c, c ∈ conns ∧ (c.1 ∉ closed) ∧ m = (c.1, data).
Proof.
  unfold deliveries. rewrite elem_of_reverse, list_elem_of_fmap.
  split.
  - intros (c & -> & [? ?]%list_elem_of_filter). eauto.
  - intros (c & ? & ? & ->). exists c. split; [done|]. by apply list_elem_of_filter.
Qed.

Lemma filter_none {A} (P : A → Prop) `{∀ x, Decision (P x)} (l : list A) :
  (∀ x, x ∈ l → ¬ P x) → filter P l = [].
Proof.
  induction l as [|x l IH]; intros Hl; [done|].
  rewrite filter_cons, decide_False by (apply Hl; left).
  apply IH. intros y Hy. apply Hl. by right.
Qed.

Lemma filter_all {A} (P : A → Prop) `{∀ x, Decision (P x)} (l : list A) :
  (∀ x, x ∈ l → P x) → filter P l = l.
Proof.
  induction l as [|x l IH]; intros Hl; [done|].
  rewrite filter_cons, decide_True by (apply Hl; left).
  f_equal. apply IH. intros y Hy. apply Hl. by right.
Qed.

Lemma one_stale_connection (conns : ConnTable) (closed : gset string) data c0 item0 :
  conns !! c0 = Some item0 → c0 ∈ closed →
  (∀ c, is_Some (conns !! c) → c ∈ closed → c = c0) →
  length (deliveries data closed (map_to_list conns)) = size conns - 1 ∧
  send_errors closed (map_to_list conns) = [LogSendError GoneException].
Proof.
  intros Hc0 Hin Hone.
  pose proof (map_to_list_delete conns c0 item0 Hc0) as Hperm.
  assert (Hrest : ∀ c, c ∈ map_to_list (delete c0 conns) → c.1 ∉ closed).
  { intros [c item] [Hne Hc]%elem_of_map_to_list%lookup_delete_Some Hcl.
    apply Hne. symmetry. apply Hone; [by eexists|done]. }
  split.
  - unfold deliveries. rewrite length_reverse, length_fmap, <-Hperm.
    rewrite filter_cons, decide_False by (simpl; tauto).
    rewrite filter_all by done.
    rewrite length_map_to_list, map_size_delete_Some by (by eexists). lia.
  - unfold send_errors.
    assert (Hf : filter (λ c : string * ConnItem, c.1 ∈ closed) (map_to_list conns)
                 ≡ₚ [(c0, item0)]).
    { rewrite <-Hperm, filter_cons, decide_True by done.
      rewrite filter_none; [done|]. intros c Hc. by apply Hrest. }
    apply Permutation_singleton_r in Hf. by rewrite Hf.
Qed.

(** ** C2: a vote for an option the poll does not have *)

(** C2 (as amended): a vote event whose optionId is not among the poll's
    options fails with status 500 and sends no broadcast; it leaves every item
    that is not an option item (so every Vote record) and the set of keys
    unchanged; and when the voting user holds no previous Vote record on the
    poll, it leaves POLLS_TABLE, hence every votesCount, unchanged. *)
Theorem invalid_option_fails rev event w resp w' body :
  messagesHandler rev event w = (resp, w') →
  me_body event = Some body →
  POLLS_TABLE w !! (POLL (vb_pollId body), OPTION (Some (vb_optionId body))) = None →
  statusCode resp = 500%Z ∧
  posted w' = posted w ∧
  (∀ key, String.prefix "OPTION#" key.2 = false →
          POLLS_TABLE w' !! key = POLLS_TABLE w !! key) ∧
  dom (POLLS_TABLE w') = dom (POLLS_TABLE w) ∧
  (∀ user,
     CONNECTIONS_TABLE w !! me_connectionId event = Some {| conn_user := Some user |} →
     POLLS_TABLE w !! (POLL (vb_pollId body), VOTE (email user)) = None →
     POLLS_TABLE w' = POLLS_TABLE w).
Proof.
  intros Hrun Hbody Hopt.
  apply messagesHandler_cases in Hrun
    as [(Hst & Hp & Ht)|(body' & user & n & Hb & Hconn & Hpre & Hend)].
  { rewrite Ht. done. }
  assert (body' = body) as -> by congruence.
  assert (Hno : ∀ t1 t2,
    decrement (vb_pollId body) user (POLLS_TABLE w) = Some t1 →
    increment (vb_pollId body) (vb_optionId body) t1 = Some t2 → False).
  { intros t1 t2 Hd (o & txt & c & Hk & _)%UpdateVotesCount_Some.
    by rewrite (decrement_lookup_None _ _ _ _ _ Hd Hopt) in Hk. }
  inversion Hpre as [|item t1 Hprev Hd|t1 t2 Hd Hi|t1 t2 Hd Hi]; subst;
    try (by destruct (Hno _ _ Hd Hi)).
  - destruct Hend as [[? ?]|(? & _)]; [|done].
    repeat split; try done; intros; congruence.
  - destruct Hend as [[? ?]|(? & _)]; [|done].
    repeat split; try done.
    + intros key Hk. by eapply decrement_off_options.
    + by eapply decrement_dom.
    + intros user' Hc Hnone. assert (user' = user) as -> by congruence.
      congruence.
Qed.

(** ** C4: voting again for the option already chosen *)

(** C4 (as amended): when the user's current Vote record already points at
    the optionId of a successful vote event, the event changes no option
    item and rewrites the Vote record with the same option, with the user as
    the connection registry holds it and with the createdAt of this
    revision.  The record is found by the email alone, whatever user it
    stores: the table is exactly as it was exactly when the stored record
    already carries this user and this createdAt, which in the revision
    without createdAt is when the stored user is the one of the
    connection. *)
Theorem revote_same_option rev event w resp w' body user stored created :
  messagesHandler rev event w = (resp, w') →
  statusCode resp = 200%Z →
  me_body event = Some body →
  CONNECTIONS_TABLE w !! me_connectionId event = Some {| conn_user := Some user |} →
  POLLS_TABLE w !! (POLL (vb_pollId body), VOTE (email user))
    = Some (VoteItem (vb_optionId body) stored created) →
  POLLS_TABLE w' =
    <[(POLL (vb_pollId body), VOTE (email user)) :=
        VoteItem (vb_optionId body) user (stamp rev event)]> (POLLS_TABLE w) ∧
  (POLLS_TABLE w' = POLLS_TABLE w ↔ stored = user ∧ created = stamp rev event).
Proof.
  intros Hrun Hst Hbody Hconn Hprev.
  apply messagesHandler_cases in Hrun
    as [(Hst' & _)|(body' & user' & n & Hb & Hc & Hpre & Hend)]; [congruence|].
  assert (body' = body) as -> by congruence.
  assert (user' = user) as -> by congruence.
  destruct Hend as [[? _]|(-> & _)]; [congruence|].
  inversion Hpre as [| | |t1 t2 Hd Hi Ht]; subst.
  unfold decrement in Hd. rewrite Hprev in Hd. cbn [get_optionId] in Hd.
  apply UpdateVotesCount_Some in Hd as (o & txt & c & Hk & ->).
  unfold increment, UpdateVotesCount in Hi.
  rewrite lookup_insert_eq in Hi. simplify_eq.
  rewrite insert_insert_eq.
  replace (c + -1 + 1)%Z with c by lia.
  rewrite (insert_id _ _ _ Hk).
  split; [done|]. unfold record. split.
  - intros Heq.
    assert (Hnew : POLLS_TABLE w !! (POLL (vb_pollId body), VOTE (email user))
                   = Some (VoteItem (vb_optionId body) user (stamp rev event)))
      by (rewrite <-Heq; apply lookup_insert_eq).
    rewrite Hprev in Hnew. by injection Hnew as -> ->.
  - intros [-> ->]. by rewrite insert_id.
Qed.

Lemma revote_same_option_witness :
  POLLS_TABLE (messagesHandler votes_mjs same_vote_later (voted_yes votes_mjs)).2
  = POLLS_TABLE (voted_yes votes_mjs).
Proof.
  destruct (revote_same_option votes_mjs same_vote_later (voted_yes votes_mjs)
              (messagesHandler votes_mjs same_vote_later (voted_yes votes_mjs)).1
              (messagesHandler votes_mjs same_vote_later (voted_yes votes_mjs)).2
              {| vb_pollId := "p1"; vb_optionId := 1 |} alice alice None)
    as [_ H].
  - apply surjective_pairing.
  - vm_compute. reflexivity.
  - reflexivity.
  - vm_compute. reflexivity.
  - vm_compute. reflexivity.
  - apply H. split; reflexivity.
Defined.

(** In the revision without createdAt, a vote for the option already chosen,
    sent after the connection was registered under another name with the
    same email, is answered 200 and writes the new name over the stored
    record: the table is not left as it was. *)
Lemma renamed_voter_is_written_over :
  let r := messagesHandler votes_mjs same_vote_later renamed in
  statusCode r.1 = 200%Z ∧
  POLLS_TABLE renamed !! (POLL "p1", VOTE (email alicia)) = Some (VoteItem 1 alice None) ∧
  POLLS_TABLE r.2 !! (POLL "p1", VOTE (email alicia)) = Some (VoteItem 1 alicia None) ∧
  POLLS_TABLE r.2 ≠ POLLS_TABLE renamed.
Proof.
  assert (H1 : POLLS_TABLE renamed !! (POLL "p1", VOTE (email alicia))
               = Some (VoteItem 1 alice None))
    by (vm_compute; reflexivity).
  assert (H2 : POLLS_TABLE (messagesHandler votes_mjs same_vote_later renamed).2
                 !! (POLL "p1", VOTE (email alicia))
               = Some (VoteItem 1 alicia None))
    by (vm_compute; reflexivity).
  cbv zeta. split; [vm_compute; reflexivity|]. split; [exact H1|]. split; [exact H2|].
  intros Heq. rewrite Heq, H1 in H2. discriminate H2.
Qed.

(** In the revision that stores createdAt, the second of two votes for the
    same option rewrites the Vote record: the table is not left as the first
    call left it. *)
Lemma revote_same_option_restamps :
  let w1 := voted_yes votes_mjs_createdAt in
  let r := messagesHandler votes_mjs_createdAt same_vote_later w1 in
  statusCode r.1 = 200%Z ∧
  POLLS_TABLE w1 !! (POLL "p1", VOTE (email alice))
    = Some (VoteItem 1 alice (Some (me_now first_vote))) ∧
  POLLS_TABLE r.2 !! (POLL "p1", VOTE (email alice))
    = Some (VoteItem 1 alice (Some (me_now same_vote_later))) ∧
  POLLS_TABLE r.2 ≠ POLLS_TABLE w1.
Proof.
  assert (H1 : POLLS_TABLE (voted_yes votes_mjs_createdAt) !! (POLL "p1", VOTE (email alice))
               = Some (VoteItem 1 alice (Some (me_now first_vote))))
    by (vm_compute; reflexivity).
  assert (H2 : POLLS_TABLE (messagesHandler votes_mjs_createdAt same_vote_later
                              (voted_yes votes_mjs_createdAt)).2
                 !! (POLL "p1", VOTE (email alice))
               = Some (VoteItem 1 alice (Some (me_now same_vote_later))))
    by (vm_compute; reflexivity).
  cbv zeta. split; [vm_compute; reflexivity|]. split; [exact H1|]. split; [exact H2|].
  intros Heq. rewrite Heq, H1 in H2. discriminate H2.
Qed.

Lemma invalid_option_fails_witness :
  statusCode (messagesHandler votes_mjs vote_99 pizza).1 = 500%Z ∧
  posted (messagesHandler votes_mjs vote_99 pizza).2 = posted pizza ∧
  POLLS_TABLE (messagesHandler votes_mjs vote_99 pizza).2 = POLLS_TABLE pizza.
Proof.
  destruct (invalid_option_fails votes_mjs vote_99 pizza
              (messagesHandler votes_mjs vote_99 pizza).1
              (messagesHandler votes_mjs vote_99 pizza).2
              {| vb_pollId := "p1"; vb_optionId := 99 |})
    as (Hst & Hp & _ & _ & Ht).
  - apply surjective_pairing.
  - reflexivity.
  - vm_compute. reflexivity.
  - split; [exact Hst|]. split; [exact Hp|].
    apply (Ht alice); vm_compute; reflexivity.
Defined.

(** After alice has voted "Yes", her vote for option 99 of the two-option
    poll fails, and yet the count of "Yes" has gone from 1 to 0 while her
    Vote record still points at "Yes". *)
Lemma invalid_option_changes_tally :
  let w1 := voted_yes votes_mjs in
  let r := messagesHandler votes_mjs vote_99 w1 in
  POLLS_TABLE w1 !! (POLL "p1", OPTION (Some 99%Z)) = None ∧
  statusCode r.1 = 500%Z ∧
  POLLS_TABLE w1 !! (POLL "p1", OPTION (Some 1%Z)) = Some (OptionItem 1 "Yes" 1) ∧
  POLLS_TABLE r.2 !! (POLL "p1", OPTION (Some 1%Z)) = Some (OptionItem 1 "Yes" 0) ∧
  POLLS_TABLE r.2 !! (POLL "p1", VOTE (email alice)) = Some (VoteItem 1 alice None).
Proof. vm_compute. repeat split. Qed.

(** ** C7 and C8: the broadcast *)

(** C8 (as amended): after a successful vote event every message handed to
    the transport carries the pollId of the vote, the tally read back from the
    table as the vote left it, and the voter's name and email; it carries the
    vote's timestamp, as createdAt, in the revision that reads the clock, and
    no timestamp in the revision of resources/votes.mjs.  Every registered
    connection that is not stale is sent one. *)
Theorem broadcast_payload rev event w resp w' :
  messagesHandler rev event w = (resp, w') →
  statusCode resp = 200%Z →
  ∃ body user sent,
    me_body event = Some body ∧
    CONNECTIONS_TABLE w !! me_connectionId event = Some {| conn_user := Some user |} ∧
    posted w' = sent ++ posted w ∧
    (∀ c item, CONNECTIONS_TABLE w !! c = Some item → c ∉ stale w →
               ∃ data, (c, data) ∈ sent) ∧
    (∀ c data, (c, data) ∈ sent →
       p_pollId data = vb_pollId body ∧
       p_options data = getTally (vb_pollId body) (POLLS_TABLE w') ∧
       p_user data = user ∧
       p_createdAt data = match rev with
                          | votes_mjs => None
                          | votes_mjs_createdAt => Some (me_now event)
                          end).
Proof.
  intros Hrun Hst.
  apply messagesHandler_cases in Hrun
    as [(Hst' & _)|(body & user & n & Hb & Hc & Hpre & Hend)]; [congruence|].
  destruct Hend as [[? _]|(-> & -> & Hp & _)]; [congruence|].
  exists body, user. eexists. split; [done|]. split; [done|]. split; [exact Hp|].
  split.
  - intros c item Hitem Hlive. eexists. apply elem_of_deliveries.
    exists (c, item). split; [by apply elem_of_map_to_list|done].
  - intros c data (conn & _ & _ & [= -> ->])%elem_of_deliveries.
    by destruct rev.
Qed.

Lemma broadcast_payload_witness :
  ∃ sent,
    posted (messagesHandler votes_mjs_createdAt first_vote pizza).2 = sent ++ posted pizza ∧
    (∃ data, ("c2", data) ∈ sent) ∧
    ∀ c data, (c, data) ∈ sent →
      p_pollId data = "p1" ∧ p_user data = alice ∧
      p_createdAt data = Some (me_now first_vote).
Proof.
  destruct (broadcast_payload votes_mjs_createdAt first_vote pizza
              (messagesHandler votes_mjs_createdAt first_vote pizza).1
              (messagesHandler votes_mjs_createdAt first_vote pizza).2)
    as (body & user & sent & Hb & Hc & Hp & Hall & Hdata).
  - apply surjective_pairing.
  - vm_compute. reflexivity.
  - assert (body = {| vb_pollId := "p1"; vb_optionId := 1 |}) as ->.
    { apply (inj Some). rewrite <-Hb. reflexivity. }
    assert (user = alice) as ->.
    { assert (Some {| conn_user := Some user |} = Some {| conn_user := Some alice |}) as [=].
      { rewrite <-Hc. vm_compute. reflexivity. }
      done. }
    exists sent. split; [exact Hp|]. split.
    + apply (Hall "c2" {| conn_user := Some bob |}); vm_compute; [reflexivity|].
      intros H. inversion H.
    + intros c data Hin. destruct (Hdata c data Hin) as (Hid & _ & Huser & Hat).
      split; [exact Hid|]. split; [exact Huser|exact Hat].
Defined.

(** The revision of resources/votes.mjs broadcasts no timestamp: the two
    messages of scenario A carry pollId, options and user only. *)
Lemma broadcast_without_timestamp :
  let r := messagesHandler votes_mjs first_vote pizza in
  statusCode r.1 = 200%Z ∧
  (λ m, (m.1, p_createdAt m.2)) <$> posted r.2 = [("c2", None); ("c1", None)].
Proof. vm_compute. split; reflexivity. Qed.

(** C7 (as amended): when exactly one of the K registered connections is
    stale, a successful vote event still hands the payload to each of the
    other K - 1 connections and to no other; the failure is logged, not
    raised; and the handler's answer is status 200 with no body: it reports
    neither a delivered count nor the failed connection. *)
Theorem broadcast_isolation rev event w resp w' c0 item0 :
  messagesHandler rev event w = (resp, w') →
  statusCode resp = 200%Z →
  CONNECTIONS_TABLE w !! c0 = Some item0 →
  c0 ∈ stale w →
  (∀ c, is_Some (CONNECTIONS_TABLE w !! c) → c ∈ stale w → c = c0) →
  ∃ data sent,
    posted w' = sent ++ posted w ∧
    (∀ c, is_Some (CONNECTIONS_TABLE w !! c) → c ≠ c0 → (c, data) ∈ sent) ∧
    (∀ m, m ∈ sent → m.1 ≠ c0 ∧ m.2 = data) ∧
    length sent = size (CONNECTIONS_TABLE w) - 1 ∧
    console w' = LogSendError GoneException :: console w ∧
    resp = {| statusCode := 200; body := None |}.
Proof.
  intros Hrun Hst Hc0 Hstale Hone.
  apply messagesHandler_cases in Hrun
    as [(Hst' & _)|(body & user & n & Hb & Hc & Hpre & Hend)]; [congruence|].
  destruct Hend as [[? _]|(-> & -> & Hp & Hlog)]; [congruence|].
  destruct (one_stale_connection (CONNECTIONS_TABLE w) (stale w)
              (payload rev event body user (POLLS_TABLE w')) c0 item0)
    as [Hlen Herr]; [done..|].
  eexists _, _. split; [exact Hp|]. split; [|split; [|split; [exact Hlen|split]]].
  - intros c [item Hitem] Hne. apply elem_of_deliveries.
    exists (c, item). split; [by apply elem_of_map_to_list|]. split; [|done].
    intros Hin. apply Hne. apply Hone; [by eexists|done].
  - intros m (conn & _ & Hlive & ->)%elem_of_deliveries. split; [|done].
    simpl. intros Heq. apply Hlive. by rewrite Heq.
  - by rewrite Hlog, Herr.
  - done.
Qed.

Lemma broadcast_isolation_witness :
  ∃ data sent,
    posted (messagesHandler votes_mjs first_vote (with_stale {["c1"]} pizza)).2
      = sent ++ posted pizza ∧
    ("c2", data) ∈ sent ∧ length sent = 1.
Proof.
  destruct (broadcast_isolation votes_mjs first_vote (with_stale {["c1"]} pizza)
              (messagesHandler votes_mjs first_vote (with_stale {["c1"]} pizza)).1
              (messagesHandler votes_mjs first_vote (with_stale {["c1"]} pizza)).2
              "c1" {| conn_user := Some alice |})
    as (data & sent & Hp & Hall & _ & Hlen & _).
  - apply surjective_pairing.
  - vm_compute. reflexivity.
  - vm_compute. reflexivity.
  - vm_compute. reflexivity.
  - intros c _ Hin. change (c ∈ ({["c1"]} : gset string)) in Hin.
    by apply elem_of_singleton in Hin.
  - exists data, sent. split; [exact Hp|]. split.
    + apply Hall; [|discriminate]. exists {| conn_user := Some bob |}.
      vm_compute. reflexivity.
    + rewrite Hlen. vm_compute. reflexivity.
Defined.

(** The answer of the handler is the same whichever connection failed and
    when none did: status 200 and no body, so no delivered count and no
    identification of the failed connection. *)
Lemma broadcast_reports_nothing :
  (messagesHandler votes_mjs first_vote (with_stale {["c1"]} pizza)).1
    = {| statusCode := 200; body := None |} ∧
  (messagesHandler votes_mjs first_vote (with_stale {["c2"]} pizza)).1
    = {| statusCode := 200; body := None |} ∧
  (messagesHandler votes_mjs first_vote pizza).1
    = {| statusCode := 200; body := None |} ∧
  fst <$> posted (messagesHandler votes_mjs first_vote (with_stale {["c1"]} pizza)).2
    = ["c2"] ∧
  fst <$> posted (messagesHandler votes_mjs first_vote (with_stale {["c2"]} pizza)).2
    = ["c1"].
Proof. vm_compute. repeat split. Qed.

(** ** C1: the three ledger writes of a revote *)

Ltac outage_cases_in o n :=
  lazymatch n with
  | O => try destruct (first_outage o); simpl in *; done
  | S ?m =>
      destruct o as [|[] o]; simpl in *; try discriminate; try done;
      outage_cases_in o m
  end.

Ltac outage_cases w :=
  repeat match goal with H : context [outages w] |- _ => revert H end;
  generalize (outages w); let o := fresh "o" in intros o; intros;
  outage_cases_in o 7.

Ltac position H :=
  unfold refused in H;
  cbn [outages tick with_polls with_connections with_posted with_console] in H.

(** C1 (as amended): the decrement, the increment and the overwrite of the
    Vote record of a revote are three requests made in this order and
    nothing undoes them.  With both options present, the table after the call
    is determined by the first request the store refuses: nothing is applied
    when it is one of the first three; only the decrement when it is the
    increment; the decrement and the increment but not the record when it is
    the put; all three when it is a later request (the call still fails) or
    none (the call succeeds). *)
Theorem revote_writes_in_sequence rev event w resp w' body user item t1 t2 :
  messagesHandler rev event w = (resp, w') →
  me_body event = Some body →
  CONNECTIONS_TABLE w !! me_connectionId event = Some {| conn_user := Some user |} →
  POLLS_TABLE w !! (POLL (vb_pollId body), VOTE (email user)) = Some item →
  decrement (vb_pollId body) user (POLLS_TABLE w) = Some t1 →
  increment (vb_pollId body) (vb_optionId body) t1 = Some t2 →
  match first_outage (outages w) with
  | Some 0 | Some 1 | Some 2 =>
      statusCode resp = 500%Z ∧ POLLS_TABLE w' = POLLS_TABLE w
  | Some 3 => statusCode resp = 500%Z ∧ POLLS_TABLE w' = t1
  | Some 4 => statusCode resp = 500%Z ∧ POLLS_TABLE w' = t2
  | Some 5 | Some 6 =>
      statusCode resp = 500%Z ∧
      POLLS_TABLE w' = record (vb_pollId body) user (vb_optionId body) (stamp rev event) t2
  | _ =>
      statusCode resp = 200%Z ∧
      POLLS_TABLE w' = record (vb_pollId body) user (vb_optionId body) (stamp rev event) t2
  end.
Proof.
  intros H Hbody Hconn Hprev Hdec Hinc.
  unfold decrement in Hdec. rewrite Hprev in Hdec. unfold increment in Hinc.
  unfold messagesHandler, try_catch in H.
  rewrite bind_eq, Hbody in H. cbn [JSON_parse ret] in H. cbn beta iota in H.
  unfold GetConnection, GetItem, UpdateItem, PutItem, QueryItems, ScanConnections in H.
  served H.
  { injection H as <- <-. fields_goal. position Hserved.
    clear -Hserved. outage_cases w. }
  rewrite Hconn, bind_eq in H. cbn [connection_user] in H. unfold ret at 1 in H.
  cbn beta iota in H.
  served H.
  { injection H as <- <-. fields_goal. position Hserved. position Hserved0.
    clear -Hserved Hserved0. outage_cases w. }
  rewrite Hprev, bind_eq, send_eq in H.
  destruct (refused (tick (tick w))) eqn:Hserved1; cbn beta iota in H; fields H.
  { injection H as <- <-. fields_goal. position Hserved. position Hserved0.
    position Hserved1. clear -Hserved Hserved0 Hserved1. outage_cases w. }
  rewrite Hdec in H. cbn beta iota in H. fields H.
  served H.
  { injection H as <- <-. fields_goal. position Hserved. position Hserved0.
    position Hserved1. position Hserved2.
    clear -Hserved Hserved0 Hserved1 Hserved2. outage_cases w. }
  rewrite Hinc in H. cbn beta iota in H. fields H.
  served H.
  { injection H as <- <-. fields_goal. position Hserved. position Hserved0.
    position Hserved1. position Hserved2. position Hserved3.
    clear -Hserved Hserved0 Hserved1 Hserved2 Hserved3. outage_cases w. }
  served H.
  { injection H as <- <-. fields_goal. position Hserved. position Hserved0.
    position Hserved1. position Hserved2. position Hserved3. position Hserved4.
    clear -Hserved Hserved0 Hserved1 Hserved2 Hserved3 Hserved4.
    outage_cases w. }
  served H.
  { injection H as <- <-. fields_goal. position Hserved. position Hserved0.
    position Hserved1. position Hserved2. position Hserved3. position Hserved4.
    position Hserved5.
    clear -Hserved Hserved0 Hserved1 Hserved2 Hserved3 Hserved4 Hserved5.
    outage_cases w. }
  rewrite bind_eq, broadcast_run in H. unfold ret in H. fields H.
  injection H as <- <-. fields_goal. position Hserved. position Hserved0.
  position Hserved1. position Hserved2. position Hserved3. position Hserved4.
  position Hserved5.
  clear -Hserved Hserved0 Hserved1 Hserved2 Hserved3 Hserved4 Hserved5.
  outage_cases w.
Qed.

Lemma revote_writes_in_sequence_witness :
  statusCode (messagesHandler votes_mjs vote_no increment_refused).1 = 500%Z ∧
  POLLS_TABLE (messagesHandler votes_mjs vote_no increment_refused).2
  = <[(POLL "p1", OPTION (Some 1%Z)) := OptionItem 1 "Yes" (1 + -1)]>
      (POLLS_TABLE increment_refused).
Proof.
  assert (Hprev : POLLS_TABLE increment_refused !! (POLL "p1", VOTE (email alice))
                  = Some (VoteItem 1 alice None)) by (vm_compute; reflexivity).
  apply (revote_writes_in_sequence votes_mjs vote_no increment_refused
           (messagesHandler votes_mjs vote_no increment_refused).1
           (messagesHandler votes_mjs vote_no increment_refused).2
           {| vb_pollId := "p1"; vb_optionId := 2 |} alice (VoteItem 1 alice None)
           (<[(POLL "p1", OPTION (Some 1%Z)) := OptionItem 1 "Yes" (1 + -1)]>
              (POLLS_TABLE increment_refused))
           (<[(POLL "p1", OPTION (Some 2%Z)) := OptionItem 2 "No" (0 + 1)]>
              (<[(POLL "p1", OPTION (Some 1%Z)) := OptionItem 1 "Yes" (1 + -1)]>
                 (POLLS_TABLE increment_refused)))).
  - apply surjective_pairing.
  - reflexivity.
  - vm_compute. reflexivity.
  - exact Hprev.
  - unfold decrement. cbn [vb_pollId]. rewrite Hprev. cbn [get_optionId].
    apply UpdateVotesCount_Some. exists 1%Z, "Yes", 1%Z.
    split; [vm_compute; reflexivity|reflexivity].
  - unfold increment. cbn [vb_pollId vb_optionId].
    apply UpdateVotesCount_Some. exists 2%Z, "No", 0%Z. split; [|reflexivity].
    rewrite lookup_insert_ne by (intros Heq; vm_compute in Heq; discriminate Heq).
    vm_compute. reflexivity.
Defined.

(** The revote fails at the increment, and the effects are not all-or-none:
    the previous option has lost the vote, the new option has not gained it,
    and the Vote record still names the previous option. *)
Lemma revote_commits_partially :
  let t := POLLS_TABLE increment_refused in
  let r := messagesHandler votes_mjs vote_no increment_refused in
  statusCode r.1 = 500%Z ∧
  t !! (POLL "p1", OPTION (Some 1%Z)) = Some (OptionItem 1 "Yes" 1) ∧
  POLLS_TABLE r.2 !! (POLL "p1", OPTION (Some 1%Z)) = Some (OptionItem 1 "Yes" 0) ∧
  POLLS_TABLE r.2 !! (POLL "p1", OPTION (Some 2%Z)) = Some (OptionItem 2 "No" 0) ∧
  POLLS_TABLE r.2 !! (POLL "p1", VOTE (email alice)) = Some (VoteItem 1 alice None).
Proof. vm_compute. repeat split. Qed.

(** ** Sums over tables *)

#[global] Instance sum_with_Permutation {A} (f : A → Z) :
  Proper ((≡ₚ) ==> (=)) (sum_with f).
Proof.
  induction 1 as [|x l1 l2 _ IH|x y l|l1 l2 l3 _ IH1 _ IH2]; simpl; lia.
Qed.

Lemma sum_with_filter {A} (P : A → Prop) `{∀ x, Decision (P x)} (f : A → Z) l :
  sum_with f (filter P l) = sum_with (λ x, if decide (P x) then f x else 0%Z) l.
Proof.
  induction l as [|x l IH]; [done|].
  rewrite filter_cons. simpl. destruct (decide (P x)); simpl; lia.
Qed.

Lemma length_sum_with {A} (l : list A) :
  Z.of_nat (length l) = sum_with (λ _, 1%Z) l.
Proof. induction l; simpl; lia. Qed.

Implicit Types (pollId p pk sk skPrefix : string) (user : User) (opt : option Z).
Implicit Types (t : Table) (item it : Item) (key : Key) (delta o : Z).
Implicit Types (c : option Timestamp).

(** Reading a list off a table with [Query] and summing is a measure. *)
Lemma sum_with_Query (f : Key * Item → Z) (pk skPrefix : string) (t : Table) :
  sum_with f (Query pk skPrefix t)
  = measure (λ kv, if decide (matches pk skPrefix kv) then f kv else 0%Z) t.
Proof.
  unfold Query, measure. rewrite merge_sort_Permutation. apply sum_with_filter.
Qed.

Lemma measure_insert (f : Key * Item → Z) (key : Key) (it : Item) (t : Table) :
  measure f (<[key := it]> t)
  = (measure f t - match t !! key with Some old => f (key, old) | None => 0 end
     + f (key, it))%Z.
Proof.
  unfold measure. destruct (t !! key) as [old|] eqn:Hk.
  - rewrite <-(map_to_list_delete t key old Hk), <-(insert_delete_eq t).
    rewrite map_to_list_insert by apply lookup_delete_eq. simpl. lia.
  - rewrite map_to_list_insert by done. simpl. lia.
Qed.

Lemma measure_update (f : Key * Item → Z) (key : Key) (delta : Z) (t t' : Table) :
  UpdateVotesCount key delta t = Some t' →
  ∃ o txt n, t !! key = Some (OptionItem o txt n) ∧
    measure f t' = (measure f t - f (key, OptionItem o txt n)
                    + f (key, OptionItem o txt (n + delta)))%Z.
Proof.
  intros (o & txt & n & Hk & ->)%UpdateVotesCount_Some.
  exists o, txt, n. split; [done|]. by rewrite measure_insert, Hk.
Qed.

Lemma sum_votesCount_measure pollId (t : Table) :
  sum_votesCount pollId t
  = measure (λ kv, if decide (matches (POLL pollId) "OPTION#" kv)
                   then default 0%Z (get_votesCount kv.2) else 0%Z) t.
Proof. apply sum_with_Query. Qed.

Lemma count_votes_measure pollId (t : Table) :
  count_votes pollId t
  = measure (λ kv, if decide (matches (POLL pollId) "VOTE#" kv) then 1%Z else 0%Z) t.
Proof.
  unfold count_votes, vote_records. by rewrite length_sum_with, sum_with_Query.
Qed.

Lemma matches_option pk (pk' : string) opt (it : Item) :
  matches pk "OPTION#" ((pk', OPTION opt), it) ↔ pk' = pk.
Proof. unfold matches. cbn [fst snd]. rewrite OPTION_prefix. tauto. Qed.

Lemma matches_vote pk (pk' u : string) (it : Item) :
  matches pk "VOTE#" ((pk', VOTE u), it) ↔ pk' = pk.
Proof. unfold matches. cbn [fst snd]. rewrite VOTE_prefix. tauto. Qed.

Lemma not_matches_option_vote pk (pk' u : string) (it : Item) :
  ¬ matches pk "OPTION#" ((pk', VOTE u), it).
Proof. unfold matches. cbn [fst snd]. rewrite VOTE_not_option. by intros [_ ?]. Qed.

Lemma sum_votesCount_update pollId pk opt delta (t t' : Table) :
  UpdateVotesCount (pk, OPTION opt) delta t = Some t' →
  sum_votesCount pollId t'
  = (sum_votesCount pollId t + if decide (pk = POLL pollId) then delta else 0)%Z.
Proof.
  intros Hup. rewrite !sum_votesCount_measure.
  eapply measure_update in Hup as (o & txt & n & _ & ->).
  destruct (decide (pk = POLL pollId)) as [Heq|Hne].
  - rewrite !decide_True by (by apply matches_option). simpl. lia.
  - rewrite !decide_False by (by rewrite matches_option). lia.
Qed.

Lemma count_votes_update pollId key delta (t t' : Table) :
  UpdateVotesCount key delta t = Some t' →
  count_votes pollId t' = count_votes pollId t.
Proof.
  intros Hup. rewrite !count_votes_measure.
  eapply measure_update in Hup as (o & txt & n & _ & ->).
  cbv beta.
  destruct (decide (matches _ _ (key, OptionItem o txt n))) as [Hm|Hm].
  - rewrite decide_True by exact Hm. lia.
  - rewrite decide_False by exact Hm. lia.
Qed.

Lemma sum_votesCount_record pollId p user o c (t : Table) :
  sum_votesCount pollId (record p user o c t) = sum_votesCount pollId t.
Proof.
  rewrite !sum_votesCount_measure. unfold record. rewrite measure_insert.
  rewrite decide_False by apply not_matches_option_vote.
  destruct (t !! _); [|lia].
  rewrite decide_False by apply not_matches_option_vote. lia.
Qed.

Lemma count_votes_record pollId p user o c (t : Table) :
  count_votes pollId (record p user o c t)
  = (count_votes pollId t
     + match t !! (POLL p, VOTE (email user)) with
       | Some _ => 0
       | None => if decide (POLL p = POLL pollId) then 1 else 0
       end)%Z.
Proof.
  rewrite !count_votes_measure. unfold record. rewrite measure_insert.
  destruct (decide (POLL p = POLL pollId)) as [Heq|Hne].
  - rewrite decide_True by (by apply matches_vote).
    destruct (t !! _); [|lia].
    rewrite decide_True by (by apply matches_vote). lia.
  - rewrite decide_False by (by rewrite matches_vote).
    destruct (t !! _); [|lia].
    rewrite decide_False by (by rewrite matches_vote). lia.
Qed.

(** The three writes of a successful vote keep V2. *)
Lemma ledger_V2 pollId p user o c (t t' : Table) :
  ledger p user o c t = Some t' → V2 pollId t → V2 pollId t'.
Proof.
  unfold ledger, V2. intros Hl HV2.
  destruct (decrement p user t) as [t1|] eqn:Hd; [|done]. simpl in Hl.
  destruct (increment p o t1) as [t2|] eqn:Hi; [|done]. simpl in Hl.
  injection Hl as <-.
  rewrite sum_votesCount_record, count_votes_record.
  rewrite (sum_votesCount_update _ _ _ _ _ _ Hi), (count_votes_update _ _ _ _ _ Hi).
  rewrite (UpdateVotesCount_lookup_ne _ _ _ _ _ Hi)
    by (intros [= ?]; by eapply VOTE_ne_OPTION).
  unfold decrement in Hd.
  destruct (t !! (POLL p, VOTE (email user))) as [item|] eqn:Hprev.
  - rewrite (UpdateVotesCount_lookup_ne _ _ _ _ _ Hd)
      by (intros [= ?]; by eapply VOTE_ne_OPTION).
    rewrite Hprev.
    rewrite (sum_votesCount_update _ _ _ _ _ _ Hd), (count_votes_update _ _ _ _ _ Hd).
    destruct (decide (POLL p = POLL pollId)); lia.
  - injection Hd as <-. rewrite Hprev. lia.
Qed.

(** ** What [Query] returns *)

Lemma Query_Permutation pk skPrefix t :
  Query pk skPrefix t ≡ₚ filter (matches pk skPrefix) (map_to_list t).
Proof. apply merge_sort_Permutation. Qed.

Lemma elem_of_Query pk skPrefix t (kv : Key * Item) :
  kv ∈ Query pk skPrefix t ↔ t !! kv.1 = Some kv.2 ∧ matches pk skPrefix kv.
Proof.
  rewrite Query_Permutation, list_elem_of_filter.
  destruct kv as [k v]. rewrite elem_of_map_to_list. simpl. tauto.
Qed.

Lemma NoDup_Query_keys pk skPrefix t : NoDup (Query pk skPrefix t).*1.
Proof.
  rewrite Query_Permutation.
  eapply sublist_NoDup; [apply (NoDup_fst_map_to_list t)|].
  apply fmap_sublist, sublist_filter.
Qed.

Lemma length_same_key {A} (l : list (Key * A)) (key : Key) :
  NoDup l.*1 → (∀ kv, kv ∈ l → kv.1 = key) → length l ≤ 1.
Proof.
  destruct l as [|a [|b l]]; simpl; [lia..|].
  intros Hnd Hall. exfalso.
  apply NoDup_cons in Hnd as [Hnot _]. apply Hnot.
  rewrite (Hall a), <-(Hall b); [left| |left]. right. left.
Qed.

(** V1 is what keying the Vote records by voter gives. *)
Lemma well_keyed_V1 pollId t : votes_well_keyed t → V1 pollId t.
Proof.
  intros Hwk userId.
  apply (length_same_key _ (POLL pollId, VOTE userId)).
  - eapply sublist_NoDup; [apply (NoDup_Query_keys (POLL pollId) "VOTE#" t)|].
    apply fmap_sublist, sublist_filter.
  - intros [[pk sk] it] [Hcast [Hk [Hpk Hsk]]%elem_of_Query]%list_elem_of_filter.
    simpl in *. subst pk.
    destruct (Hwk _ _ _ Hk Hsk) as (o & u & c & -> & ->).
    unfold cast_by in Hcast. simpl in Hcast. by rewrite Hcast.
Qed.

Lemma vote_prefix_not_option sk :
  String.prefix "VOTE#" sk = true → String.prefix "OPTION#" sk = false.
Proof.
  destruct sk as [|a sk]; [done|].
  change (String.prefix "VOTE#" (String a sk))
    with (if ascii_dec "V" a then String.prefix "OTE#" sk else false).
  change (String.prefix "OPTION#" (String a sk))
    with (if ascii_dec "O" a then String.prefix "PTION#" sk else false).
  destruct (ascii_dec "V" a) as [<-|]; [|done]. intros _.
  by destruct (ascii_dec "O" "V").
Qed.

Lemma ledger_well_keyed p user o c t (t' : Table) :
  ledger p user o c t = Some t' → votes_well_keyed t → votes_well_keyed t'.
Proof.
  unfold ledger. intros Hl Hwk.
  destruct (decrement p user t) as [t1|] eqn:Hd; [|done]. simpl in Hl.
  destruct (increment p o t1) as [t2|] eqn:Hi; [|done]. simpl in Hl.
  injection Hl as <-. intros pk sk it Hk Hsk. unfold record in Hk.
  destruct (decide ((POLL p, VOTE (email user)) = (pk, sk))) as [Heq|Hne].
  - rewrite Heq, lookup_insert_eq in Hk. injection Heq as <- <-.
    injection Hk as <-. eauto.
  - rewrite lookup_insert_ne in Hk by done.
    rewrite (UpdateVotesCount_lookup_ne _ _ _ _ _ Hi) in Hk.
    2:{ intros [= _ ->]. by rewrite OPTION_not_vote in Hsk. }
    apply (Hwk pk sk it); [|done].
    rewrite <-Hk. symmetry. eapply decrement_off_options; [done|].
    by apply vote_prefix_not_option.
Qed.

(** ** Counts and ballots *)

Lemma ballots_measure pk sk t :
  ballots pk sk t
  = measure (λ kv, if decide (matches pk "VOTE#" kv)
                   then (if decide (names sk kv) then 1 else 0)
                   else 0)%Z t.
Proof.
  unfold ballots. rewrite length_sum_with, sum_with_filter, sum_with_Query.
  done.
Qed.

Lemma ballots_nonneg pk sk t : (0 ≤ ballots pk sk t)%Z.
Proof. unfold ballots. lia. Qed.

Lemma ballots_update pk sk key delta t (t' : Table) :
  UpdateVotesCount key delta t = Some t' → ballots pk sk t' = ballots pk sk t.
Proof.
  intros Hup. rewrite !ballots_measure.
  eapply measure_update in Hup as (o & txt & n & _ & ->).
  cbv beta. unfold names. cbn [snd].
  destruct (decide (matches pk "VOTE#" (key, OptionItem o txt n))) as [Hm|Hm].
  - rewrite (decide_True (P := matches pk "VOTE#" (key, OptionItem o txt (n + delta))))
      by exact Hm.
    rewrite !decide_False by tauto. lia.
  - rewrite (decide_False (P := matches pk "VOTE#" (key, OptionItem o txt (n + delta))))
      by exact Hm.
    lia.
Qed.

Lemma ballot_of_record pk sk p (e : string) o (u : User) c :
  (if decide (matches pk "VOTE#" ((POLL p, VOTE e), VoteItem o u c))
   then (if decide (names sk ((POLL p, VOTE e), VoteItem o u c)) then 1 else 0)
   else 0)%Z
  = if decide ((POLL p, OPTION (Some o)) = (pk, sk)) then 1%Z else 0%Z.
Proof.
  destruct (decide ((POLL p, OPTION (Some o)) = (pk, sk))) as [[= <- <-]|Hne].
  - rewrite decide_True by (by apply matches_vote). by rewrite decide_True.
  - destruct (decide (matches _ _ _)) as [Hm%matches_vote|]; [|done].
    rewrite decide_False; [done|]. unfold names. cbn [snd]. congruence.
Qed.

Lemma ledger_counts_match p user o c t (t' : Table) :
  ledger p user o c t = Some t' →
  votes_well_keyed t → counts_match t → counts_match t'.
Proof.
  unfold ledger. intros Hl Hwk Hcm.
  destruct (decrement p user t) as [t1|] eqn:Hd; [|done]. simpl in Hl.
  destruct (increment p o t1) as [t2|] eqn:Hi; [|done]. simpl in Hl.
  injection Hl as <-. intros pk sk a txt n Hk.
  unfold record in *. rewrite ballots_measure, measure_insert, <-ballots_measure.
  rewrite ballot_of_record.
  assert (Hkv : (POLL p, VOTE (email user)) ≠ (pk, sk)).
  { intros Heq. rewrite Heq, lookup_insert_eq in Hk. done. }
  rewrite lookup_insert_ne in Hk by done.
  rewrite (UpdateVotesCount_lookup_ne _ _ _ _ _ Hi)
    by (intros [= ?]; by eapply VOTE_ne_OPTION).
  rewrite (ballots_update _ _ _ _ _ _ Hi).
  unfold increment in Hi.
  apply UpdateVotesCount_Some in Hi as (b & y & m & Hki & ->).
  unfold decrement in Hd.
  destruct (t !! (POLL p, VOTE (email user))) as [item|] eqn:Hprev.
  - destruct (Hwk _ _ _ Hprev (VOTE_prefix _)) as (o' & u' & c' & -> & _).
    cbn [get_optionId] in Hd.
    rewrite (UpdateVotesCount_lookup_ne _ _ _ _ _ Hd)
      by (intros [= ?]; by eapply VOTE_ne_OPTION).
    rewrite Hprev, ballot_of_record, (ballots_update _ _ _ _ _ _ Hd).
    apply UpdateVotesCount_Some in Hd as (a0 & x0 & n0 & Hkd & ->).
    destruct (decide ((POLL p, OPTION (Some o)) = (pk, sk))) as [Hi|Hi],
             (decide ((POLL p, OPTION (Some o')) = (pk, sk))) as [Hd|Hd].
    + injection Hi as <- <-. rewrite lookup_insert_eq in Hk.
      rewrite Hd, lookup_insert_eq in Hki.
      rewrite Hd in Hkd. apply Hcm in Hkd. simplify_eq. lia.
    + injection Hi as <- <-. rewrite lookup_insert_eq in Hk.
      rewrite lookup_insert_ne in Hki by done.
      apply Hcm in Hki. simplify_eq. lia.
    + injection Hd as <- <-. rewrite lookup_insert_ne in Hk by done.
      rewrite lookup_insert_eq in Hk.
      apply Hcm in Hkd. simplify_eq. lia.
    + rewrite !lookup_insert_ne in Hk by done.
      apply Hcm in Hk. lia.
  - injection Hd as <-. rewrite Hprev.
    destruct (decide ((POLL p, OPTION (Some o)) = (pk, sk))) as [Hi|Hi].
    + injection Hi as <- <-. rewrite lookup_insert_eq in Hk.
      apply Hcm in Hki. simplify_eq. lia.
    + rewrite lookup_insert_ne in Hk by done. apply Hcm in Hk. lia.
Qed.

(** ** Invariants along a run *)

Lemma write_prefix_ledger p user o c t (n : nat) (t' : Table) :
  write_prefix p user o c t n t' → n = 3 → ledger p user o c t = Some t'.
Proof.
  intros Hpre ->. inversion Hpre as [| | |t1 t2 Hd Hi]; subst.
  unfold ledger. rewrite Hd. simpl. rewrite Hi. done.
Qed.

Lemma vote_success_ledger rev event (w : World) resp (w' : World) :
  messagesHandler rev event w = (resp, w') →
  statusCode resp = 200%Z →
  ∃ body user,
    me_body event = Some body ∧
    CONNECTIONS_TABLE w !! me_connectionId event = Some {| conn_user := Some user |} ∧
    ledger (vb_pollId body) user (vb_optionId body) (stamp rev event) (POLLS_TABLE w)
      = Some (POLLS_TABLE w').
Proof.
  intros Hrun Hst.
  apply messagesHandler_cases in Hrun
    as [(Hst' & _)|(body & user & n & Hb & Hc & Hpre & Hend)]; [congruence|].
  destruct Hend as [[? _]|(-> & _)]; [congruence|].
  exists body, user. split; [done|]. split; [done|].
  by eapply write_prefix_ledger.
Qed.

Section Invariant.
Variable I : Table → Prop.
Hypothesis I_ledger : ∀ p user o c t (t' : Table),
  ledger p user o c t = Some t' → I t → I t'.

Lemma step_invariant rev event (w : World) :
  statusCode (messagesHandler rev event w).1 = 200%Z
  ∨ POLLS_TABLE (messagesHandler rev event w).2 = POLLS_TABLE w →
  I (POLLS_TABLE w) → I (POLLS_TABLE (messagesHandler rev event w).2).
Proof.
  intros [Hst|Hsame] HI; [|by rewrite Hsame].
  destruct (vote_success_ledger rev event w _ _ (surjective_pairing _) Hst)
    as (body & user & _ & _ & Hl).
  by eapply I_ledger.
Qed.

Lemma run_invariant rev events (w : World) :
  no_partial_write rev events w →
  I (POLLS_TABLE w) → I (POLLS_TABLE (handle_all rev events w)).
Proof.
  revert w. induction events as [|ev events IH]; intros w Hrun HI; [done|].
  destruct Hrun as [Hstep Hrest]. simpl. apply IH; [done|].
  by apply step_invariant.
Qed.
End Invariant.

Lemma all_succeed_no_partial_write rev events (w : World) :
  all_succeed rev events w → no_partial_write rev events w.
Proof.
  revert w. induction events as [|ev events IH]; intros w; [done|].
  intros [Hst Hrest]. split; [by left|by apply IH].
Qed.

(** C5: after any sequence of successful vote events, starting from a table
    in which the Vote records are keyed by their voter and the counts of the
    poll add up to the number of its Vote records (as they do when a poll has
    just been created), each user has at most one Vote record for the poll
    (V1) and the sum of the options' votesCount is the number of Vote records
    of the poll (V2). *)
Theorem successful_votes_keep_V1_V2 rev events (w : World) pollId :
  all_succeed rev events w →
  votes_well_keyed (POLLS_TABLE w) →
  V2 pollId (POLLS_TABLE w) →
  V1 pollId (POLLS_TABLE (handle_all rev events w)) ∧
  V2 pollId (POLLS_TABLE (handle_all rev events w)).
Proof.
  intros Hrun%all_succeed_no_partial_write Hwk HV2.
  assert (HI : votes_well_keyed (POLLS_TABLE (handle_all rev events w))
               ∧ V2 pollId (POLLS_TABLE (handle_all rev events w))).
  { apply (run_invariant (λ t, votes_well_keyed t ∧ V2 pollId t)); [|done|done].
    intros p user o c t t' Hl [? ?].
    split; [by eapply ledger_well_keyed|by eapply ledger_V2]. }
  destruct HI as [Hwk' HV2']. split; [by apply well_keyed_V1|done].
Qed.

(** C3 (as amended): along any sequence of vote events each of which
    succeeds or leaves POLLS_TABLE as it found it, starting from a table
    in which every option's votesCount is the number of Vote records naming
    the option, no option's votesCount is negative. *)
Theorem votesCount_never_negative rev events (w : World) (key : Key) (o : Z)
    (txt : string) (n : Z) :
  no_partial_write rev events w →
  votes_well_keyed (POLLS_TABLE w) →
  counts_match (POLLS_TABLE w) →
  POLLS_TABLE (handle_all rev events w) !! key = Some (OptionItem o txt n) →
  (0 ≤ n)%Z.
Proof.
  intros Hrun Hwk Hcm Hk.
  assert (HI : votes_well_keyed (POLLS_TABLE (handle_all rev events w))
               ∧ counts_match (POLLS_TABLE (handle_all rev events w))).
  { apply (run_invariant (λ t, votes_well_keyed t ∧ counts_match t)); [|done|done].
    intros p user o' c t t' Hl [? ?].
    split; [by eapply ledger_well_keyed|by eapply ledger_counts_match]. }
  destruct HI as [_ Hcm']. destruct key as [pk sk].
  rewrite (Hcm' _ _ _ _ _ Hk). apply ballots_nonneg.
Qed.

(** ** The invariants on the scenario *)

Lemma table_eq_by_items (t1 t2 : Table) :
  map_to_list t1 = map_to_list t2 → t1 = t2.
Proof. intros Heq. apply map_to_list_inj. by rewrite Heq. Qed.

Lemma well_keyed_by_items (t : Table) :
  Forall well_keyed_item (map_to_list t) → votes_well_keyed t.
Proof.
  intros Hall pk sk it Hk Hsk.
  rewrite Forall_forall in Hall.
  specialize (Hall ((pk, sk), it)). unfold well_keyed_item in Hall. simpl in Hall.
  destruct it as [| |o u c]; try (by destruct Hall; [apply elem_of_map_to_list|]).
  exists o, u, c. split; [done|]. apply Hall; [by apply elem_of_map_to_list|done].
Qed.

Lemma counts_match_by_items (t : Table) :
  Forall (count_matches_item t) (map_to_list t) → counts_match t.
Proof.
  intros Hall pk sk o txt n Hk.
  rewrite Forall_forall in Hall.
  apply (Hall ((pk, sk), OptionItem o txt n)). by apply elem_of_map_to_list.
Qed.

Ltac by_computation :=
  match goal with |- ?P => apply (bool_decide_unpack P) end; vm_compute; exact I.

Lemma successful_votes_keep_V1_V2_witness :
  V1 "p1" (POLLS_TABLE (handle_all votes_mjs_createdAt scenario_votes pizza)) ∧
  V2 "p1" (POLLS_TABLE (handle_all votes_mjs_createdAt scenario_votes pizza)).
Proof.
  apply successful_votes_keep_V1_V2.
  - vm_compute. repeat split.
  - apply well_keyed_by_items. by_computation.
  - vm_compute. reflexivity.
Defined.

Lemma votesCount_never_negative_witness :
  POLLS_TABLE (handle_all votes_mjs harmless_failures pizza)
    !! (POLL "p1", OPTION (Some 1%Z)) = Some (OptionItem 1 "Yes" 0) ∧
  (0 ≤ 0)%Z.
Proof.
  assert (Hk : POLLS_TABLE (handle_all votes_mjs harmless_failures pizza)
                 !! (POLL "p1", OPTION (Some 1%Z)) = Some (OptionItem 1 "Yes" 0))
    by (vm_compute; reflexivity).
  split; [exact Hk|].
  apply (votesCount_never_negative votes_mjs harmless_failures pizza
           (POLL "p1", OPTION (Some 1%Z)) 1 "Yes" 0).
  - repeat split;
      first [left; vm_compute; reflexivity
            |right; apply table_eq_by_items; vm_compute; reflexivity].
  - apply well_keyed_by_items. by_computation.
  - apply counts_match_by_items. by_computation.
  - exact Hk.
Defined.

(** Alice votes "Yes", then twice for option 99 of the two-option poll: each
    failing call decrements "Yes" again, and its count ends at -1. *)
Lemma votesCount_goes_negative :
  POLLS_TABLE (handle_all votes_mjs [first_vote; vote_99; vote_99] pizza)
    !! (POLL "p1", OPTION (Some 1%Z)) = Some (OptionItem 1 "Yes" (-1)).
Proof. vm_compute. reflexivity. Qed.

(** ** Sort keys of options *)

#[global] Instance OPTION_inj : Inj (=) (=) (λ i : Z, OPTION (Some i)).
Proof.
  intros i j Heq. unfold OPTION, template in Heq.
  apply (inj (String.app "OPTION#")) in Heq. by apply (inj pretty).
Qed.

Lemma id_of_option_key (i : Z) :
  (1 ≤ i ≤ 24)%Z → id_of_SK (OPTION (Some i)) = Some i.
Proof.
  intros Hi.
  assert (Hall : Forall (λ i, id_of_SK (OPTION (Some i)) = Some i) (seqZ 1 24))
    by by_computation.
  rewrite Forall_forall in Hall. apply Hall, elem_of_seqZ. lia.
Qed.

Lemma option_keys_sorted (N : nat) :
  N ≤ 9 → Sorted String.le (option_keys N).
Proof.
  intros HN.
  assert (Hall : Forall (λ N, Sorted String.le (option_keys N)) (seq 0 10))
    by by_computation.
  rewrite Forall_forall in Hall. apply Hall, elem_of_seq. lia.
Qed.

Lemma NoDup_option_keys (N : nat) : NoDup (option_keys N).
Proof. apply (NoDup_fmap_2 _), NoDup_seqZ. Qed.

Lemma elem_of_option_keys sk (N : nat) :
  sk ∈ option_keys N ↔ ∃ i, (1 ≤ i ≤ Z.of_nat N)%Z ∧ sk = OPTION (Some i).
Proof.
  unfold option_keys, ordinals. rewrite list_elem_of_fmap.
  setoid_rewrite elem_of_seqZ. split.
  - intros (i & -> & Hi). exists i. split; [lia|done].
  - intros (i & Hi & ->). exists i. split; [done|lia].
Qed.

#[global] Instance by_SK_total : Total by_SK.
Proof. intros a b. unfold by_SK. apply (total String.le). Qed.

Lemma Sorted_Query pk skPrefix t :
  Sorted String.le ((λ kv : Key * Item, kv.1.2) <$> Query pk skPrefix t).
Proof.
  apply (Sorted_fmap _ by_SK); [done|]. apply (Sorted_merge_sort by_SK).
Qed.

(** The sort keys [Query] returns for the options of a poll that has the
    [N] options of its creation. *)
Lemma Query_option_keys pollId (N : nat) t :
  has_options pollId N t →
  (λ kv : Key * Item, kv.1.2) <$> Query (POLL pollId) "OPTION#" t ≡ₚ option_keys N.
Proof.
  intros Hopts. apply NoDup_Permutation.
  - change (NoDup (snd ∘ fst <$> Query (POLL pollId) "OPTION#" t)).
    rewrite (list_fmap_compose fst snd).
    apply NoDup_fmap_2_strong; [|apply NoDup_Query_keys].
    intros [pk1 sk1] [pk2 sk2]
      ([k1 v1] & [= <-] & [_ [Hpk1 _]]%elem_of_Query)%list_elem_of_fmap
      ([k2 v2] & [= <-] & [_ [Hpk2 _]]%elem_of_Query)%list_elem_of_fmap.
    simpl in *. congruence.
  - apply NoDup_option_keys.
  - intros sk. rewrite list_elem_of_fmap. split.
    + intros ([[pk sk'] it] & -> & [Hk [Hpk Hsk]]%elem_of_Query). simpl in *.
      subst pk. apply (Hopts _ Hsk). by eexists.
    + intros Hin.
      assert (Hsk : String.prefix "OPTION#" sk = true).
      { apply elem_of_option_keys in Hin as (i & _ & ->). apply OPTION_prefix. }
      apply (Hopts _ Hsk) in Hin as [it Hit].
      exists ((POLL pollId, sk), it). split; [done|].
      apply elem_of_Query. by repeat split.
Qed.

Lemma id_getTally pollId t :
  id <$> getTally pollId t
  = id_of_SK <$> ((λ kv : Key * Item, kv.1.2) <$> Query (POLL pollId) "OPTION#" t).
Proof.
  unfold getTally. rewrite <-!list_fmap_compose. done.
Qed.

Lemma id_of_option_keys (N : nat) :
  N ≤ 24 → id_of_SK <$> option_keys N = Some <$> ordinals N.
Proof.
  intros HN. unfold option_keys. rewrite <-list_fmap_compose.
  apply list_fmap_ext. intros n i Hi. simpl.
  apply id_of_option_key. unfold ordinals in Hi. apply lookup_seqZ in Hi. lia.
Qed.

Lemma key_of_id_of_SK (N : nat) (l : list string) :
  N ≤ 24 → l ≡ₚ option_keys N → (OPTION ∘ id_of_SK) <$> l = l.
Proof.
  intros HN Hl. rewrite <-(list_fmap_id l) at 2. apply list_fmap_ext.
  intros n sk Hsk%list_elem_of_lookup_2. rewrite Hl in Hsk.
  apply elem_of_option_keys in Hsk as (i & Hi & ->). simpl.
  rewrite id_of_option_key by lia. done.
Qed.

Lemma Sorted_fmap_inv {A B} (f : A → B) (R : relation B) (l : list A) :
  Sorted R (f <$> l) → Sorted (λ a b, R (f a) (f b)) l.
Proof.
  induction l as [|a l IH]; [constructor|].
  rewrite fmap_cons. intros [Hl Hhd]%Sorted_inv. constructor; [by apply IH|].
  destruct l as [|b l]; [constructor|].
  rewrite fmap_cons in Hhd. apply HdRel_inv in Hhd. by constructor.
Qed.

(** The tally of a poll that has the options of its creation. *)
Lemma tally_entry pollId (N : nat) t (entry : OptionEntry) :
  N ≤ 24 → has_options pollId N t → entry ∈ getTally pollId t →
  ∃ i it, id entry = Some i ∧
    t !! (POLL pollId, OPTION (Some i)) = Some it ∧
    text entry = get_text it ∧ votesCount entry = get_votesCount it.
Proof.
  intros HN Hopts ([[pk sk] it] & -> & [Hk [Hpk Hsk]]%elem_of_Query)%list_elem_of_fmap.
  simpl in *. subst pk.
  assert (Hin : sk ∈ option_keys N) by (apply (Hopts _ Hsk); by eexists).
  apply elem_of_option_keys in Hin as (i & Hi & ->).
  exists i, it. split; [|done]. unfold option_entry. simpl.
  apply id_of_option_key. lia.
Qed.

Lemma tally_of_created_poll pollId (N : nat) t :
  N ≤ 24 → has_options pollId N t →
  id <$> getTally pollId t ≡ₚ Some <$> ordinals N ∧
  Sorted in_key_order (id <$> getTally pollId t) ∧
  (N ≤ 9 → id <$> getTally pollId t = Some <$> ordinals N).
Proof.
  intros HN Hopts. pose proof (Query_option_keys _ _ _ Hopts) as Hperm.
  rewrite id_getTally. split; [|split].
  - rewrite Hperm. by rewrite id_of_option_keys.
  - pose proof (Sorted_Query (POLL pollId) "OPTION#" t) as Hs.
    rewrite <-(key_of_id_of_SK N _ HN Hperm), list_fmap_compose in Hs.
    by apply Sorted_fmap_inv in Hs.
  - intros H9. rewrite <-id_of_option_keys by done. f_equal.
    apply (Sorted_unique String.le); [apply Sorted_Query|by apply option_keys_sorted|done].
Qed.

(** ** Creating a poll *)

Lemma lookup_foldl_insert (items : list (Key * Item)) t key :
  is_Some (foldl (λ acc kv, <[kv.1 := kv.2]> acc) t items !! key)
  ↔ key ∈ items.*1 ∨ is_Some (t !! key).
Proof.
  revert t. induction items as [|[k v] items IH]; intros t; simpl.
  { rewrite elem_of_nil. tauto. }
  rewrite IH, lookup_insert_is_Some, elem_of_cons.
  destruct (decide (k = key)); intuition congruence.
Qed.

Lemma elem_of_option_items_keys pollId (options : list string) key :
  key ∈ (option_items pollId options).*1
  ↔ ∃ i, (1 ≤ i ≤ Z.of_nat (length options))%Z ∧ key = (POLL pollId, OPTION (Some i)).
Proof.
  unfold option_items. rewrite fmap_imap, elem_of_lookup_imap. split.
  - intros (n & txt & -> & Hn). apply lookup_lt_Some in Hn.
    exists (Z.of_nat n + 1)%Z. split; [lia|done].
  - intros (i & Hi & ->).
    destruct (lookup_lt_is_Some_2 options (Z.to_nat (i - 1))) as [txt Htxt]; [lia|].
    exists (Z.to_nat (i - 1)), txt. split; [|done]. simpl.
    by replace (Z.of_nat (Z.to_nat (i - 1)) + 1)%Z with i by lia.
Qed.

Lemma createPollHandler_has_options event (w : World) :
  statusCode (createPollHandler event w).1 = 201%Z →
  (∀ sk, POLLS_TABLE w !! (POLL (cp_uuid event), sk) = None) →
  ∃ body, cp_body event = Some body ∧
    length (pb_options body) ≤ 24 ∧
    has_options (cp_uuid event) (length (pb_options body))
      (POLLS_TABLE (createPollHandler event w).2).
Proof.
  intros Hst Hfresh. unfold createPollHandler, try_catch in *.
  rewrite bind_eq in *.
  destruct (cp_body event) as [body|]; cbn [JSON_parse ret throw] in *;
    cbn beta iota in *; [|done].
  destruct (decide (pb_question body = "" ∨ pb_options body = [])); [done|].
  unfold BatchWriteItems in *. rewrite bind_eq, send_eq in *.
  destruct (refused w); cbn beta iota in *; [done|]. fields_goal. fields Hst.
  unfold BatchWrite in *.
  destruct (decide (length _ ≤ 25)) as [Hlen|]; cbn beta iota in *; [|done].
  unfold ret. cbn beta iota. fields_goal.
  exists body. split; [done|]. simpl in Hlen.
  unfold option_items in Hlen. rewrite length_imap in Hlen.
  split; [lia|]. intros sk Hsk.
  rewrite lookup_foldl_insert, fmap_cons, elem_of_cons, elem_of_option_items_keys,
    elem_of_option_keys.
  split.
  - intros [[[= ->]|(i & Hi & [= ->])]|Hold].
    + done.
    + eauto.
    + rewrite Hfresh in Hold. by destruct Hold.
  - intros (i & Hi & ->). left. right. eauto.
Qed.

(** ** Votes keep the options of a poll *)

Lemma write_prefix_option_keys p user o c t (n : nat) (t' : Table) key :
  write_prefix p user o c t n t' →
  String.prefix "OPTION#" key.2 = true →
  (is_Some (t' !! key) ↔ is_Some (t !! key)).
Proof.
  intros Hpre Hk. rewrite <-!elem_of_dom.
  inversion Hpre as [|item t1 _ Hd|t1 t2 Hd Hi|t1 t2 Hd Hi]; subst.
  - done.
  - by rewrite (decrement_dom _ _ _ _ Hd).
  - by rewrite (UpdateVotesCount_dom _ _ _ _ Hi), (decrement_dom _ _ _ _ Hd).
  - unfold record. rewrite dom_insert_L, elem_of_union, elem_of_singleton.
    rewrite (UpdateVotesCount_dom _ _ _ _ Hi), (decrement_dom _ _ _ _ Hd).
    split; [|by right]. intros [->|?]; [|done].
    cbn [snd] in Hk. by rewrite VOTE_not_option in Hk.
Qed.

Lemma messagesHandler_has_options rev event (w : World) pollId (N : nat) :
  has_options pollId N (POLLS_TABLE w) →
  has_options pollId N (POLLS_TABLE (messagesHandler rev event w).2).
Proof.
  intros Hopts.
  destruct (messagesHandler_cases rev event w _ _ (surjective_pairing _))
    as [(_ & _ & ->)|(body & user & n & _ & _ & Hpre & _)]; [done|].
  intros sk Hsk. rewrite <-(Hopts sk Hsk).
  by eapply write_prefix_option_keys.
Qed.

Lemma handle_all_has_options rev events (w : World) pollId (N : nat) :
  has_options pollId N (POLLS_TABLE w) →
  has_options pollId N (POLLS_TABLE (handle_all rev events w)).
Proof.
  revert w. induction events as [|ev events IH]; intros w Hopts; [done|].
  simpl. by apply IH, messagesHandler_has_options.
Qed.

(** C6 (as amended): for a poll created by createPollHandler with N options,
    the tally built after any sequence of vote events lists every option
    exactly once, by its ordinal 1..N and with the text and votesCount
    stored for it, in the byte order of the sort keys OPTION#<ordinal>, which
    is the order in which the store returns them; for polls of at most nine
    options this is the order of the ordinals. *)
Theorem tally_lists_options_in_key_order rev event (w0 w1 : World) events :
  statusCode (createPollHandler event w0).1 = 201%Z →
  (∀ sk, POLLS_TABLE w0 !! (POLL (cp_uuid event), sk) = None) →
  POLLS_TABLE w1 = POLLS_TABLE (createPollHandler event w0).2 →
  ∃ body, cp_body event = Some body ∧
    let N := length (pb_options body) in
    let t := POLLS_TABLE (handle_all rev events w1) in
    let ids := id <$> getTally (cp_uuid event) t in
    ids ≡ₚ Some <$> ordinals N ∧
    Sorted in_key_order ids ∧
    (N ≤ 9 → ids = Some <$> ordinals N) ∧
    (∀ entry, entry ∈ getTally (cp_uuid event) t →
       ∃ i it, id entry = Some i ∧
         t !! (POLL (cp_uuid event), OPTION (Some i)) = Some it ∧
         text entry = get_text it ∧ votesCount entry = get_votesCount it).
Proof.
  intros Hst Hfresh Hw1.
  destruct (createPollHandler_has_options event w0 Hst Hfresh)
    as (body & Hbody & HN & Hopts).
  exists body. split; [done|]. cbv zeta.
  assert (Hopts' : has_options (cp_uuid event) (length (pb_options body))
                     (POLLS_TABLE (handle_all rev events w1))).
  { apply handle_all_has_options. by rewrite Hw1. }
  destruct (tally_of_created_poll _ _ _ HN Hopts') as (Hperm & Hsorted & Hnine).
  split; [done|]. split; [done|]. split; [done|].
  intros entry. by apply (tally_entry _ (length (pb_options body))).
Qed.

Lemma tally_lists_options_in_key_order_witness :
  id <$> getTally "p1" (POLLS_TABLE (handle_all votes_mjs scenario_votes pizza))
  = [Some 1%Z; Some 2%Z].
Proof.
  destruct (tally_lists_options_in_key_order votes_mjs
              (create_poll "p1" ["Yes"; "No"]) empty_world pizza scenario_votes)
    as (body & Hbody & _ & _ & Hnine & _).
  - vm_compute. reflexivity.
  - intros sk. apply lookup_empty.
  - reflexivity.
  - injection Hbody as <-. apply Hnine. vm_compute. lia.
Defined.

(** For the poll of ten options the tally of the broadcast comes in the
    order 1, 10, 2, ..., 9 of the sort keys, not in the order of the
    ordinals. *)
Lemma tally_of_ten_out_of_order :
  let r := messagesHandler votes_mjs vote_in_ten poll_of_ten in
  statusCode r.1 = 200%Z ∧
  (λ m, (m.1, id <$> p_options m.2)) <$> posted r.2
  = [("c2", Some <$> [1; 10; 2; 3; 4; 5; 6; 7; 8; 9]%Z);
     ("c1", Some <$> [1; 10; 2; 3; 4; 5; 6; 7; 8; 9]%Z)] ∧
  id <$> getTally "p10" (POLLS_TABLE r.2) ≠ Some <$> ordinals 10.
Proof.
  cbv zeta. split; [vm_compute; reflexivity|]. split; [vm_compute; reflexivity|].
  vm_compute. discriminate.
Qed.

(** ** A new poll satisfies the invariants *)

Lemma Query_nil pk skPrefix t :
  (∀ sk it, t !! (pk, sk) = Some it → String.prefix skPrefix sk = false) →
  Query pk skPrefix t = [].
Proof.
  intros Hnone. apply elem_of_nil_inv.
  intros [[pk' sk] it] [Hk [Hpk Hsk]]%elem_of_Query. simpl in *. subst pk'.
  by rewrite (Hnone _ _ Hk) in Hsk.
Qed.

Lemma createPoll_items_new event body :
  Forall (new_poll_item (cp_uuid event))
    (((POLL (cp_uuid event), "POLL"),
      PollItem (cp_uuid event) (pb_question body)
        {| name := if decide (name (cp_claims event) = "")
                   then email (cp_claims event) else name (cp_claims event);
           email := email (cp_claims event) |} (cp_now event))
     :: option_items (cp_uuid event) (pb_options body)).
Proof.
  constructor; [done|]. apply Forall_forall.
  intros [k v] (n & txt & [= -> ->] & _)%elem_of_lookup_imap.
  split; [done|]. split; [apply OPTION_not_vote|done].
Qed.

Lemma unvoted_ballots pollId sk t : unvoted pollId t → ballots (POLL pollId) sk t = 0%Z.
Proof.
  intros Hun. unfold ballots. rewrite Query_nil; [done|].
  intros sk' it Hk. by destruct (Hun _ _ Hk).
Qed.

Lemma insert_new_poll_item pollId (kv : Key * Item) t :
  new_poll_item pollId kv →
  unvoted pollId t ∧ votes_well_keyed t ∧ counts_match t ∧ V2 pollId t →
  let t' := <[kv.1 := kv.2]> t in
  unvoted pollId t' ∧ votes_well_keyed t' ∧ counts_match t' ∧ V2 pollId t'.
Proof.
  destruct kv as [[pk sk] v]. intros (Hpk & Hsk & Hzero) (Hun & Hwk & Hcm & HV2).
  simpl in *. subst pk.
  assert (Hballots : ∀ pk' sk', ballots pk' sk' (<[(POLL pollId, sk) := v]> t)
                                = ballots pk' sk' t).
  { intros pk' sk'. rewrite !ballots_measure, measure_insert.
    rewrite decide_False by (unfold matches; simpl; rewrite Hsk; by intros [_ ?]).
    destruct (t !! _); [|lia].
    rewrite decide_False by (unfold matches; simpl; rewrite Hsk; by intros [_ ?]).
    lia. }
  split; [|split; [|split]].
  - intros sk' it. rewrite lookup_insert. case_decide as Heq.
    + intros [= <-]. by injection Heq as <-.
    + apply Hun.
  - intros pk' sk' it. rewrite lookup_insert. case_decide as Heq.
    + intros [= <-] Hv. injection Heq as <- <-. congruence.
    + apply Hwk.
  - intros pk' sk' o txt n. rewrite lookup_insert, Hballots. case_decide as Heq.
    + intros [= ->]. injection Heq as <- <-. simpl in Hzero.
      by rewrite unvoted_ballots.
    + apply Hcm.
  - unfold V2 in *.
    rewrite sum_votesCount_measure, count_votes_measure, !measure_insert,
      <-sum_votesCount_measure, <-count_votes_measure, HV2.
    rewrite (decide_False (P := matches (POLL pollId) "VOTE#" (POLL pollId, sk, v)))
      by (unfold matches; simpl; rewrite Hsk; by intros [_ ?]).
    destruct (t !! (POLL pollId, sk)) as [old|] eqn:Hold.
    + destruct (Hun _ _ Hold) as [_ Hz].
      rewrite (decide_False (P := matches (POLL pollId) "VOTE#" (POLL pollId, sk, old)))
        by (unfold matches; simpl; rewrite Hsk; by intros [_ ?]).
      simpl. rewrite Hz, Hzero. repeat case_decide; lia.
    + simpl. rewrite Hzero. repeat case_decide; lia.
Qed.

Lemma fresh_partition_V2 pollId t :
  (∀ sk, t !! (POLL pollId, sk) = None) → unvoted pollId t ∧ V2 pollId t.
Proof.
  intros Hfresh. split.
  - intros sk it. by rewrite Hfresh.
  - unfold V2, sum_votesCount, count_votes, vote_records.
    rewrite !Query_nil; [done|intros sk it; by rewrite Hfresh..].
Qed.

Lemma put_new_poll_items pollId (items : list (Key * Item)) t :
  Forall (new_poll_item pollId) items →
  unvoted pollId t ∧ votes_well_keyed t ∧ counts_match t ∧ V2 pollId t →
  let t' := foldl (λ acc kv, <[kv.1 := kv.2]> acc) t items in
  unvoted pollId t' ∧ votes_well_keyed t' ∧ counts_match t' ∧ V2 pollId t'.
Proof.
  intros Hnew. revert t.
  induction Hnew as [|kv items Hkv _ IH]; intros t Ht; [done|].
  simpl. apply IH. by apply insert_new_poll_item.
Qed.

(** A poll as [createPollHandler] creates it, under a fresh id, satisfies the
    invariants from which C3 and C5 are proved. *)
Lemma createPollHandler_invariants event (w : World) :
  statusCode (createPollHandler event w).1 = 201%Z →
  (∀ sk, POLLS_TABLE w !! (POLL (cp_uuid event), sk) = None) →
  votes_well_keyed (POLLS_TABLE w) → counts_match (POLLS_TABLE w) →
  let t' := POLLS_TABLE (createPollHandler event w).2 in
  votes_well_keyed t' ∧ counts_match t' ∧ V2 (cp_uuid event) t'.
Proof.
  intros Hst Hfresh Hwk Hcm. unfold createPollHandler, try_catch in *.
  rewrite bind_eq in *.
  destruct (cp_body event) as [body|]; cbn [JSON_parse ret throw] in *;
    cbn beta iota in *; [|done].
  destruct (decide (pb_question body = "" ∨ pb_options body = [])); [done|].
  unfold BatchWriteItems in *. rewrite bind_eq, send_eq in *.
  destruct (refused w); cbn beta iota in *; [done|]. fields_goal. fields Hst.
  unfold BatchWrite in *.
  destruct (decide (length _ ≤ 25)) as [Hlen|]; cbn beta iota in *; [|done].
  unfold ret. cbn beta iota. fields_goal.
  destruct (fresh_partition_V2 _ _ Hfresh) as [Hun HV2].
  destruct (put_new_poll_items (cp_uuid event) _ (POLLS_TABLE w)
              (createPoll_items_new event body)) as (_ & ? & ? & ?); done.
Qed.

(** ** The scenarios of the specification *)

(** Scenario A: alice votes 1; the tally is Yes 1, No 0 and both connections
    receive it. *)
Example scenario_A :
  getTally "p1" (POLLS_TABLE (voted_yes votes_mjs))
  = [ {| id := Some 1%Z; text := Some "Yes"; votesCount := Some 1%Z |};
      {| id := Some 2%Z; text := Some "No"; votesCount := Some 0%Z |} ] ∧
  (λ m, (m.1, p_options m.2)) <$> posted (voted_yes votes_mjs)
  = [ ("c2", getTally "p1" (POLLS_TABLE (voted_yes votes_mjs)));
      ("c1", getTally "p1" (POLLS_TABLE (voted_yes votes_mjs))) ].
Proof. vm_compute. split; reflexivity. Qed.

(** Scenario B: alice then votes 2; the tally is Yes 0, No 1. *)
Example scenario_B :
  getTally "p1" (POLLS_TABLE (handle_all votes_mjs [first_vote; vote_no] pizza))
  = [ {| id := Some 1%Z; text := Some "Yes"; votesCount := Some 0%Z |};
      {| id := Some 2%Z; text := Some "No"; votesCount := Some 1%Z |} ].
Proof. vm_compute. reflexivity. Qed.

(** Scenario C: alice votes 1 again; the tally is unchanged. *)
Example scenario_C :
  getTally "p1" (POLLS_TABLE (handle_all votes_mjs [first_vote; same_vote_later] pizza))
  = getTally "p1" (POLLS_TABLE (voted_yes votes_mjs)).
Proof. vm_compute. reflexivity. Qed.

(** Scenario D: a first vote for option 99 of the two-option poll fails with
    no tally change and no broadcast. *)
Example scenario_D :
  (messagesHandler votes_mjs vote_99 pizza).1
  = {| statusCode := 500; body := Some (ErrorBody (message ValidationException)) |} ∧
  getTally "p1" (POLLS_TABLE (messagesHandler votes_mjs vote_99 pizza).2)
  = getTally "p1" (POLLS_TABLE pizza) ∧
  posted (messagesHandler votes_mjs vote_99 pizza).2 = [].
Proof. split; [|split]; vm_compute; reflexivity. Qed.

(** * Further properties of the handlers *)

Implicit Types (w : World) (pw : PollsWorld).

(** ** When the store serves every request *)

Lemma first_outage_tail (schedule : list bool) :
  first_outage schedule = None → first_outage (tail schedule) = None.
Proof.
  destruct schedule as [|[] rest]; simpl; [done..|]. by destruct (first_outage rest).
Qed.

Lemma available_refused w : available w → refused w = false.
Proof. unfold available, refused. by destruct (outages w) as [|[] o]. Qed.

Lemma available_tick w : available w → available (tick w).
Proof. apply first_outage_tail. Qed.

Lemma send_available {A} (cmd : World → Outcome A * World) w :
  available w → send cmd w = cmd (tick w).
Proof. intros Hw. by rewrite send_eq, available_refused. Qed.

Ltac avail :=
  repeat first [assumption | apply available_tick
               | match goal with |- available (with_polls _ _) => unfold available; cbn [outages with_polls]; fold (available _) end ].

Lemma messagesHandler_available rev event w body user :
  available w →
  me_body event = Some body →
  CONNECTIONS_TABLE w !! me_connectionId event = Some {| conn_user := Some user |} →
  (messagesHandler rev event w).1 =
  match ledger (vb_pollId body) user (vb_optionId body) (stamp rev event) (POLLS_TABLE w) with
  | Some _ => {| statusCode := 200; body := None |}
  | None => {| statusCode := 500; body := Some (ErrorBody (message ValidationException)) |}
  end.
Proof.
  intros Hw Hbody Hconn.
  unfold messagesHandler, try_catch. rewrite bind_eq, Hbody.
  cbn [JSON_parse ret]. cbn beta iota.
  unfold GetConnection, GetItem, UpdateItem, PutItem, QueryItems, ScanConnections.
  rewrite bind_eq, send_available by done. cbn beta iota. fields_goal.
  rewrite bind_eq, Hconn. cbn [connection_user ret]. cbn beta iota.
  rewrite bind_eq, send_available by avail. cbn beta iota. fields_goal.
  unfold ledger, decrement, increment.
  destruct (POLLS_TABLE w !! (POLL (vb_pollId body), VOTE (email user))) as [item|] eqn:Hprev.
  - rewrite bind_eq, send_available by avail. fields_goal.
    destruct (UpdateVotesCount _ (-1) (POLLS_TABLE w)) as [t1|] eqn:Hdec;
      cbn beta iota; cbn [mbind option_bind]; [|done].
    rewrite bind_eq, send_available by avail. fields_goal.
    destruct (UpdateVotesCount _ 1 t1) as [t2|] eqn:Hinc;
      cbn beta iota; cbn [mbind option_bind]; [|done].
    rewrite bind_eq, send_available by avail. cbn beta iota.
    rewrite bind_eq, send_available by avail. cbn beta iota.
    rewrite bind_eq, send_available by avail. cbn beta iota.
    rewrite bind_eq, broadcast_run. done.
  - rewrite bind_eq. unfold ret at 1. cbn beta iota. cbn [mbind option_bind].
    rewrite bind_eq, send_available by avail. fields_goal.
    destruct (UpdateVotesCount _ 1 (POLLS_TABLE w)) as [t2|] eqn:Hinc;
      cbn beta iota; cbn [mbind option_bind]; [|done].
    rewrite bind_eq, send_available by avail. cbn beta iota.
    rewrite bind_eq, send_available by avail. cbn beta iota.
    rewrite bind_eq, send_available by avail. cbn beta iota.
    rewrite bind_eq, broadcast_run. done.
Qed.

(** ** A vote on a served store *)

Lemma vote_available_ledger rev event w body user t' :
  available w →
  me_body event = Some body →
  CONNECTIONS_TABLE w !! me_connectionId event = Some {| conn_user := Some user |} →
  ledger (vb_pollId body) user (vb_optionId body) (stamp rev event) (POLLS_TABLE w) = Some t' →
  (messagesHandler rev event w).1 = {| statusCode := 200; body := None |} ∧
  POLLS_TABLE (messagesHandler rev event w).2 = t'.
Proof.
  intros Hw Hbody Hconn Hl.
  pose proof (messagesHandler_available rev event w body user Hw Hbody Hconn) as Hst.
  rewrite Hl in Hst. split; [done|].
  destruct (vote_success_ledger rev event w _ _ (surjective_pairing _))
    as (body' & user' & Hb' & Hc' & Hl'); [by rewrite Hst|].
  congruence.
Qed.

(** X1: when the store serves every request, the vote of a registered user
    who has no Vote record in the poll, for an option the poll has, is
    answered 200; it adds one to the votesCount of that option, stores the
    user's Vote record, and changes nothing else in POLLS_TABLE. *)
Theorem first_vote_counts rev event w body user o txt n :
  available w →
  me_body event = Some body →
  CONNECTIONS_TABLE w !! me_connectionId event = Some {| conn_user := Some user |} →
  POLLS_TABLE w !! (POLL (vb_pollId body), VOTE (email user)) = None →
  POLLS_TABLE w !! (POLL (vb_pollId body), OPTION (Some (vb_optionId body)))
    = Some (OptionItem o txt n) →
  (messagesHandler rev event w).1 = {| statusCode := 200; body := None |} ∧
  POLLS_TABLE (messagesHandler rev event w).2 =
    <[(POLL (vb_pollId body), VOTE (email user)) :=
        VoteItem (vb_optionId body) user (stamp rev event)]>
      (<[(POLL (vb_pollId body), OPTION (Some (vb_optionId body))) :=
           OptionItem o txt (n + 1)]> (POLLS_TABLE w)).
Proof.
  intros Hw Hbody Hconn Hprev Hopt.
  apply (vote_available_ledger rev event w body user); [done..|].
  unfold ledger, decrement, increment, UpdateVotesCount.
  rewrite Hprev. cbn [mbind option_bind]. by rewrite Hopt.
Qed.

Lemma first_vote_counts_witness :
  (messagesHandler votes_mjs first_vote pizza).1 = {| statusCode := 200; body := None |} ∧
  POLLS_TABLE (messagesHandler votes_mjs first_vote pizza).2 =
    <[(POLL "p1", VOTE (email alice)) := VoteItem 1 alice None]>
      (<[(POLL "p1", OPTION (Some 1%Z)) := OptionItem 1 "Yes" (0 + 1)]> (POLLS_TABLE pizza)).
Proof.
  apply (first_vote_counts votes_mjs first_vote pizza (vote_body "p1" 1) alice 1 "Yes" 0);
    vm_compute; reflexivity.
Defined.

(** X2: when the store serves every request, the vote of a registered user
    whose Vote record names option [a], for another option of the poll, is
    answered 200; it takes one from the votesCount of [a], adds one to that
    of the new option, replaces the Vote record, and changes nothing else. *)
Theorem changed_vote_counts rev event w body user a voter created oa ta na ob tb nb :
  available w →
  me_body event = Some body →
  CONNECTIONS_TABLE w !! me_connectionId event = Some {| conn_user := Some user |} →
  POLLS_TABLE w !! (POLL (vb_pollId body), VOTE (email user))
    = Some (VoteItem a voter created) →
  a ≠ vb_optionId body →
  POLLS_TABLE w !! (POLL (vb_pollId body), OPTION (Some a)) = Some (OptionItem oa ta na) →
  POLLS_TABLE w !! (POLL (vb_pollId body), OPTION (Some (vb_optionId body)))
    = Some (OptionItem ob tb nb) →
  (messagesHandler rev event w).1 = {| statusCode := 200; body := None |} ∧
  POLLS_TABLE (messagesHandler rev event w).2 =
    <[(POLL (vb_pollId body), VOTE (email user)) :=
        VoteItem (vb_optionId body) user (stamp rev event)]>
      (<[(POLL (vb_pollId body), OPTION (Some (vb_optionId body))) :=
           OptionItem ob tb (nb + 1)]>
         (<[(POLL (vb_pollId body), OPTION (Some a)) := OptionItem oa ta (na - 1)]>
            (POLLS_TABLE w))).
Proof.
  intros Hw Hbody Hconn Hprev Hne Ha Hb.
  apply (vote_available_ledger rev event w body user); [done..|].
  unfold ledger, decrement, increment, UpdateVotesCount.
  rewrite Hprev. cbn [get_optionId]. rewrite Ha. cbn [mbind option_bind].
  rewrite lookup_insert_ne.
  2:{ intros Heq. apply Hne. apply (inj (λ i : Z, OPTION (Some i))). congruence. }
  rewrite Hb. done.
Qed.

Lemma changed_vote_counts_witness :
  (messagesHandler votes_mjs vote_no (voted_yes votes_mjs)).1
    = {| statusCode := 200; body := None |} ∧
  POLLS_TABLE (messagesHandler votes_mjs vote_no (voted_yes votes_mjs)).2 =
    <[(POLL "p1", VOTE (email alice)) := VoteItem 2 alice None]>
      (<[(POLL "p1", OPTION (Some 2%Z)) := OptionItem 2 "No" (0 + 1)]>
         (<[(POLL "p1", OPTION (Some 1%Z)) := OptionItem 1 "Yes" (1 - 1)]>
            (POLLS_TABLE (voted_yes votes_mjs)))).
Proof.
  apply (changed_vote_counts votes_mjs vote_no (voted_yes votes_mjs) (vote_body "p1" 2)
           alice 1 alice None 1 "Yes" 1 2 "No" 0);
    first [discriminate | vm_compute; reflexivity].
Defined.

(** ** What a vote leaves alone *)

Lemma decrement_frame p user t t1 key :
  decrement p user t = Some t1 →
  key.1 ≠ POLL p ∨ String.prefix "OPTION#" key.2 = false →
  t1 !! key = t !! key.
Proof.
  unfold decrement. intros Hd Hkey.
  destruct (t !! (POLL p, VOTE (email user))) as [item|]; [|by simplify_eq].
  eapply UpdateVotesCount_lookup_ne; [done|].
  intros ->. cbn [fst snd] in Hkey. rewrite OPTION_prefix in Hkey.
  by destruct Hkey.
Qed.

Lemma increment_frame p o t t2 key :
  increment p o t = Some t2 →
  key.1 ≠ POLL p ∨ String.prefix "OPTION#" key.2 = false →
  t2 !! key = t !! key.
Proof.
  unfold increment. intros Hi Hkey.
  eapply UpdateVotesCount_lookup_ne; [done|].
  intros ->. cbn [fst snd] in Hkey. rewrite OPTION_prefix in Hkey.
  by destruct Hkey.
Qed.

Lemma record_frame p user o c t key :
  key.1 ≠ POLL p ∨ String.prefix "VOTE#" key.2 = false →
  record p user o c t !! key = t !! key.
Proof.
  intros Hkey. unfold record. apply lookup_insert_ne.
  intros <-. cbn [fst snd] in Hkey. rewrite VOTE_prefix in Hkey.
  by destruct Hkey.
Qed.

Lemma write_prefix_frame p user o c t (n : nat) t' key :
  write_prefix p user o c t n t' →
  key.1 ≠ POLL p
  ∨ (String.prefix "OPTION#" key.2 = false ∧ String.prefix "VOTE#" key.2 = false) →
  t' !! key = t !! key.
Proof.
  intros Hpre Hkey.
  assert (Ho : key.1 ≠ POLL p ∨ String.prefix "OPTION#" key.2 = false) by tauto.
  assert (Hv : key.1 ≠ POLL p ∨ String.prefix "VOTE#" key.2 = false) by tauto.
  destruct Hpre as [|item t1 _ Hd|t1 t2 Hd Hi|t1 t2 Hd Hi].
  - done.
  - by eapply decrement_frame.
  - erewrite increment_frame, decrement_frame; done.
  - rewrite record_frame by done. erewrite increment_frame, decrement_frame; done.
Qed.

Lemma UpdateVotesCount_option key delta t t' k o txt n :
  UpdateVotesCount key delta t = Some t' →
  t !! k = Some (OptionItem o txt n) →
  ∃ n', t' !! k = Some (OptionItem o txt n') ∧ (n' = n ∨ n' = (n + delta)%Z).
Proof.
  intros (o' & txt' & m & Hk & ->)%UpdateVotesCount_Some Hlook.
  destruct (decide (k = key)) as [->|Hne].
  - rewrite lookup_insert_eq. simplify_eq. eauto.
  - rewrite lookup_insert_ne by done. eauto.
Qed.

Lemma decrement_option p user t t1 k o txt n :
  decrement p user t = Some t1 →
  t !! k = Some (OptionItem o txt n) →
  ∃ n', t1 !! k = Some (OptionItem o txt n') ∧ (n' = n ∨ n' = (n - 1)%Z).
Proof.
  unfold decrement. intros Hd Hk.
  destruct (t !! (POLL p, VOTE (email user))) as [item|]; [|simplify_eq; eauto].
  by eapply UpdateVotesCount_option.
Qed.

Lemma option_prefix_not_vote sk :
  String.prefix "OPTION#" sk = true → String.prefix "VOTE#" sk = false.
Proof.
  intros Ho. destruct (String.prefix "VOTE#" sk) eqn:Hv; [|done].
  apply vote_prefix_not_option in Hv. congruence.
Qed.

Lemma write_prefix_option p user o c t (n : nat) t' k oid txt m :
  write_prefix p user o c t n t' →
  String.prefix "OPTION#" k.2 = true →
  t !! k = Some (OptionItem oid txt m) →
  ∃ m', t' !! k = Some (OptionItem oid txt m') ∧ (m - 1 ≤ m' ≤ m + 1)%Z.
Proof.
  intros Hpre Hk Hlook.
  assert (Hrec : ∀ t2, record p user o c t2 !! k = t2 !! k).
  { intros t2. apply record_frame. right. by apply option_prefix_not_vote. }
  destruct Hpre as [|item t1 _ Hd|t1 t2 Hd Hi|t1 t2 Hd Hi].
  - exists m. split; [done|lia].
  - destruct (decrement_option _ _ _ _ _ _ _ _ Hd Hlook) as (m1 & H1 & Hm1).
    exists m1. split; [done|lia].
  - destruct (decrement_option _ _ _ _ _ _ _ _ Hd Hlook) as (m1 & H1 & Hm1).
    destruct (UpdateVotesCount_option _ _ _ _ _ _ _ _ Hi H1) as (m2 & H2 & Hm2).
    exists m2. split; [done|lia].
  - destruct (decrement_option _ _ _ _ _ _ _ _ Hd Hlook) as (m1 & H1 & Hm1).
    destruct (UpdateVotesCount_option _ _ _ _ _ _ _ _ Hi H1) as (m2 & H2 & Hm2).
    exists m2. rewrite Hrec. split; [done|lia].
Qed.

Lemma write_prefix_dom p user o c t (n : nat) t' :
  write_prefix p user o c t n t' →
  dom t ⊆ dom t' ∧
  ∀ key, t !! key = None → is_Some (t' !! key) → key = (POLL p, VOTE (email user)).
Proof.
  intros Hpre.
  assert (Hrec : ∀ t2, dom t2 = dom t →
    dom t ⊆ dom (record p user o c t2) ∧
    ∀ key, t !! key = None → is_Some (record p user o c t2 !! key) →
           key = (POLL p, VOTE (email user))).
  { intros t2 Hdom. unfold record. split.
    - rewrite dom_insert_L, Hdom. apply union_subseteq_r.
    - intros key Hnone [it Hit]. destruct (decide (key = (POLL p, VOTE (email user))))
        as [|Hne]; [done|].
      rewrite lookup_insert_ne in Hit by done.
      apply not_elem_of_dom in Hnone. rewrite <-Hdom in Hnone.
      apply not_elem_of_dom in Hnone. congruence. }
  assert (Hsame : ∀ t2, dom t2 = dom t →
    dom t ⊆ dom t2 ∧
    ∀ key, t !! key = None → is_Some (t2 !! key) → key = (POLL p, VOTE (email user))).
  { intros t2 Hdom. split; [by rewrite Hdom|].
    intros key Hnone [it Hit]. apply not_elem_of_dom in Hnone. rewrite <-Hdom in Hnone.
    apply not_elem_of_dom in Hnone. congruence. }
  destruct Hpre as [|item t1 _ Hd|t1 t2 Hd Hi|t1 t2 Hd Hi].
  - by apply Hsame.
  - apply Hsame. by eapply decrement_dom.
  - apply Hsame. rewrite (UpdateVotesCount_dom _ _ _ _ Hi). by eapply decrement_dom.
  - apply Hrec. rewrite (UpdateVotesCount_dom _ _ _ _ Hi). by eapply decrement_dom.
Qed.

(** X3: whatever its outcome, a vote event changes no item outside the
    partition of the poll its body names, and no item at all when its body
    does not parse. *)
Theorem vote_touches_one_poll rev event w pk sk :
  (∀ body, me_body event = Some body → pk ≠ POLL (vb_pollId body)) →
  POLLS_TABLE (messagesHandler rev event w).2 !! (pk, sk) = POLLS_TABLE w !! (pk, sk).
Proof.
  intros Hpk.
  destruct (messagesHandler_cases rev event w _ _ (surjective_pairing _))
    as [(_ & _ & ->)|(body & user & n & Hbody & _ & Hpre & _)]; [done|].
  eapply write_prefix_frame; [done|]. left. by apply Hpk.
Qed.

Lemma vote_touches_one_poll_witness :
  POLLS_TABLE (messagesHandler votes_mjs vote_in_ten pizza).2 !! (POLL "p1", "POLL")
  = POLLS_TABLE pizza !! (POLL "p1", "POLL").
Proof.
  apply (vote_touches_one_poll votes_mjs vote_in_ten pizza (POLL "p1") "POLL").
  intros body [= <-]. discriminate.
Defined.

(** X4: whatever its outcome, a vote event deletes no item, adds items only
    under VOTE# sort keys, leaves every poll header as it was, and keeps the
    optionId and the text of every option item, moving its votesCount by at
    most one. *)
Theorem vote_keeps_poll_definition rev event w :
  let t := POLLS_TABLE w in
  let t' := POLLS_TABLE (messagesHandler rev event w).2 in
  dom t ⊆ dom t' ∧
  (∀ key, t !! key = None → is_Some (t' !! key) → String.prefix "VOTE#" key.2 = true) ∧
  (∀ pk, t' !! (pk, "POLL") = t !! (pk, "POLL")) ∧
  (∀ key o txt n,
     String.prefix "OPTION#" key.2 = true → t !! key = Some (OptionItem o txt n) →
     ∃ n', t' !! key = Some (OptionItem o txt n') ∧ (n - 1 ≤ n' ≤ n + 1)%Z).
Proof.
  cbv zeta.
  destruct (messagesHandler_cases rev event w _ _ (surjective_pairing _))
    as [(_ & _ & ->)|(body & user & n & Hbody & _ & Hpre & _)].
  { split; [done|]. split; [by intros key -> [? [=]]|]. split; [done|].
    intros key o txt n _ Hk. exists n. split; [done|lia]. }
  destruct (write_prefix_dom _ _ _ _ _ _ _ Hpre) as [Hdom Hnew].
  split; [done|]. split.
  { intros key Hnone Hsome. rewrite (Hnew key Hnone Hsome). apply VOTE_prefix. }
  split.
  { intros pk. eapply write_prefix_frame; [done|]. by right. }
  intros key o txt m Hk Hlook. by eapply write_prefix_option.
Qed.

(** X5: messagesHandler answers 200 or 500 and nothing else; when it answers
    500 nothing was handed to the transport, and when it answers 200 the
    response has no body and one payload went to every registered connection
    whose transport is open. *)
Theorem failed_vote_broadcasts_nothing rev event w :
  let r := messagesHandler rev event w in
  (statusCode r.1 = 200%Z ∨ statusCode r.1 = 500%Z) ∧
  (statusCode r.1 = 500%Z → posted r.2 = posted w) ∧
  (statusCode r.1 = 200%Z →
     r.1 = {| statusCode := 200; body := None |} ∧
     ∃ data, posted r.2 = deliveries data (stale w) (map_to_list (CONNECTIONS_TABLE w))
                            ++ posted w).
Proof.
  cbv zeta.
  destruct (messagesHandler_cases rev event w _ _ (surjective_pairing _))
    as [(Hst & Hp & _)|(body & user & n & _ & _ & _ & [[Hst Hp]|(_ & Hr & Hp & _)])].
  - split; [by right|]. split; [done|]. intros Hok. congruence.
  - split; [by right|]. split; [done|]. intros Hok. congruence.
  - split; [left; by rewrite Hr|]. split; [intros Hko; by rewrite Hr in Hko|].
    intros _. split; [done|]. eexists. exact Hp.
Qed.

(** ** Counts and Vote records along a run *)

(** X6: along any sequence of vote events each of which succeeds or leaves
    POLLS_TABLE as it found it, starting from a table in which every option's
    votesCount is the number of Vote records naming the option, the
    votesCount of every option stays exactly the number of Vote records
    naming it, and Vote records stay keyed by their voter. *)
Theorem votesCount_counts_ballots rev events w pk sk (o : Z) (txt : string) (n : Z) :
  no_partial_write rev events w →
  votes_well_keyed (POLLS_TABLE w) →
  counts_match (POLLS_TABLE w) →
  POLLS_TABLE (handle_all rev events w) !! (pk, sk) = Some (OptionItem o txt n) →
  n = ballots pk sk (POLLS_TABLE (handle_all rev events w)) ∧
  votes_well_keyed (POLLS_TABLE (handle_all rev events w)).
Proof.
  intros Hrun Hwk Hcm Hk.
  assert (HI : votes_well_keyed (POLLS_TABLE (handle_all rev events w))
               ∧ counts_match (POLLS_TABLE (handle_all rev events w))).
  { apply (run_invariant (λ t, votes_well_keyed t ∧ counts_match t)); [|done|done].
    intros p user o' c t t' Hl [? ?].
    split; [by eapply ledger_well_keyed|by eapply ledger_counts_match]. }
  destruct HI as [Hwk' Hcm']. split; [by eapply Hcm'|done].
Qed.

Lemma votesCount_counts_ballots_witness :
  POLLS_TABLE (handle_all votes_mjs scenario_votes pizza) !! (POLL "p1", OPTION (Some 2%Z))
    = Some (OptionItem 2 "No" 1) ∧
  1%Z = ballots (POLL "p1") (OPTION (Some 2%Z))
          (POLLS_TABLE (handle_all votes_mjs scenario_votes pizza)).
Proof.
  assert (Hk : POLLS_TABLE (handle_all votes_mjs scenario_votes pizza)
                 !! (POLL "p1", OPTION (Some 2%Z)) = Some (OptionItem 2 "No" 1))
    by (vm_compute; reflexivity).
  split; [exact Hk|].
  apply (votesCount_counts_ballots votes_mjs scenario_votes pizza (POLL "p1")
           (OPTION (Some 2%Z)) 2 "No" 1).
  - by_computation.
  - apply well_keyed_by_items. by_computation.
  - apply counts_match_by_items. by_computation.
  - exact Hk.
Defined.

(** ** A first vote while the store refuses a request *)

(** X7: the increment and the put of the Vote record of a first vote are two
    requests made in this order and nothing undoes them.  The table after
    the call is determined by the first request the store refuses: nothing
    is applied when it is one of the first three (the two lookups and the
    increment); the increment without the Vote record when it is the put;
    both writes when it is a later request (the call still fails) or none
    (the call succeeds). *)
Theorem first_vote_writes_in_sequence rev event w resp w' body user t2 :
  messagesHandler rev event w = (resp, w') →
  me_body event = Some body →
  CONNECTIONS_TABLE w !! me_connectionId event = Some {| conn_user := Some user |} →
  POLLS_TABLE w !! (POLL (vb_pollId body), VOTE (email user)) = None →
  increment (vb_pollId body) (vb_optionId body) (POLLS_TABLE w) = Some t2 →
  match first_outage (outages w) with
  | Some 0 | Some 1 | Some 2 =>
      statusCode resp = 500%Z ∧ POLLS_TABLE w' = POLLS_TABLE w
  | Some 3 =>
      statusCode resp = 500%Z ∧ POLLS_TABLE w' = t2 ∧
      t2 !! (POLL (vb_pollId body), VOTE (email user)) = None
  | Some 4 | Some 5 =>
      statusCode resp = 500%Z ∧
      POLLS_TABLE w' = record (vb_pollId body) user (vb_optionId body) (stamp rev event) t2
  | _ =>
      statusCode resp = 200%Z ∧
      POLLS_TABLE w' = record (vb_pollId body) user (vb_optionId body) (stamp rev event) t2
  end.
Proof.
  intros H Hbody Hconn Hprev Hinc.
  assert (Hnone : t2 !! (POLL (vb_pollId body), VOTE (email user)) = None).
  { erewrite increment_frame; [done..|]. right. apply VOTE_not_option. }
  unfold increment in Hinc.
  unfold messagesHandler, try_catch in H.
  rewrite bind_eq, Hbody in H. cbn [JSON_parse ret] in H. cbn beta iota in H.
  unfold GetConnection, GetItem, UpdateItem, PutItem, QueryItems, ScanConnections in H.
  served H.
  { injection H as <- <-. fields_goal. position Hserved.
    clear -Hserved. outage_cases w. }
  rewrite Hconn, bind_eq in H. cbn [connection_user] in H. unfold ret at 1 in H.
  cbn beta iota in H.
  served H.
  { injection H as <- <-. fields_goal. position Hserved. position Hserved0.
    clear -Hserved Hserved0. outage_cases w. }
  rewrite Hprev, bind_eq in H. unfold ret at 1 in H. cbn beta iota in H.
  served H.
  { injection H as <- <-. fields_goal. position Hserved. position Hserved0.
    position Hserved1. clear -Hserved Hserved0 Hserved1. outage_cases w. }
  rewrite Hinc in H. cbn beta iota in H. fields H.
  served H.
  { injection H as <- <-. fields_goal. position Hserved. position Hserved0.
    position Hserved1. position Hserved2.
    clear -Hserved Hserved0 Hserved1 Hserved2 Hnone. outage_cases w. }
  served H.
  { injection H as <- <-. fields_goal. position Hserved. position Hserved0.
    position Hserved1. position Hserved2. position Hserved3.
    clear -Hserved Hserved0 Hserved1 Hserved2 Hserved3. outage_cases w. }
  served H.
  { injection H as <- <-. fields_goal. position Hserved. position Hserved0.
    position Hserved1. position Hserved2. position Hserved3. position Hserved4.
    clear -Hserved Hserved0 Hserved1 Hserved2 Hserved3 Hserved4.
    outage_cases w. }
  rewrite bind_eq, broadcast_run in H. unfold ret in H. fields H.
  injection H as <- <-. fields_goal. position Hserved. position Hserved0.
  position Hserved1. position Hserved2. position Hserved3. position Hserved4.
  clear -Hserved Hserved0 Hserved1 Hserved2 Hserved3 Hserved4.
  outage_cases w.
Qed.

Lemma first_vote_writes_in_sequence_witness :
  statusCode (messagesHandler votes_mjs first_vote put_refused).1 = 500%Z ∧
  POLLS_TABLE (messagesHandler votes_mjs first_vote put_refused).2
  = <[(POLL "p1", OPTION (Some 1%Z)) := OptionItem 1 "Yes" (0 + 1)]>
      (POLLS_TABLE put_refused) ∧
  (<[(POLL "p1", OPTION (Some 1%Z)) := OptionItem 1 "Yes" (0 + 1)]>
     (POLLS_TABLE put_refused)) !! (POLL "p1", VOTE (email alice)) = None.
Proof.
  apply (first_vote_writes_in_sequence votes_mjs first_vote put_refused
           (messagesHandler votes_mjs first_vote put_refused).1
           (messagesHandler votes_mjs first_vote put_refused).2
           {| vb_pollId := "p1"; vb_optionId := 1 |} alice
           (<[(POLL "p1", OPTION (Some 1%Z)) := OptionItem 1 "Yes" (0 + 1)]>
              (POLLS_TABLE put_refused))).
  - apply surjective_pairing.
  - reflexivity.
  - vm_compute. reflexivity.
  - vm_compute. reflexivity.
  - unfold increment. cbn [vb_pollId vb_optionId].
    apply UpdateVotesCount_Some. exists 1%Z, "Yes", 0%Z.
    split; [vm_compute; reflexivity|reflexivity].
Defined.

(** ** Connecting and disconnecting *)

Lemma connectHandler_run event w :
  connectHandler event w =
  match registered_user event with
  | None =>
      ({| statusCode := 500; body := None |},
       with_console (LogError UndefinedValue)
         (with_console (LogConnect (ce_connectionId event)) w))
  | Some user =>
      if refused w
      then ({| statusCode := 500; body := None |},
            with_console (LogError ServiceUnavailable)
              (tick (with_console (LogConnect (ce_connectionId event)) w)))
      else ({| statusCode := 200; body := None |},
            with_connections
              (insert (ce_connectionId event) {| conn_user := Some user |})
              (tick (with_console (LogConnect (ce_connectionId event)) w)))
  end.
Proof.
  unfold connectHandler, registered_user, try_catch, PutConnection.
  rewrite bind_eq. unfold console_log at 1. cbn beta iota. rewrite bind_eq.
  destruct (ce_authorizer event) as [[uid [name|] [email|]]|];
    cbn [mbind option_bind username context_email marshall_user]; try done.
  unfold ret at 1. cbn beta iota.
  rewrite bind_eq, send_eq.
  destruct (refused w) eqn:Hw; unfold refused in *; cbn [outages with_console];
    by rewrite Hw.
Qed.

Lemma disconnectHandler_served event w :
  refused w = false →
  disconnectHandler event w =
  ({| statusCode := 200; body := None |},
   with_connections (delete (de_connectionId event))
     (tick (with_console (LogDisconnect (de_connectionId event)) w))).
Proof.
  intros Hw. unfold disconnectHandler, try_catch, DeleteConnection.
  rewrite bind_eq. unfold console_log at 1. cbn beta iota.
  rewrite bind_eq, send_eq. unfold refused in *. cbn [outages with_console].
  by rewrite Hw.
Qed.

Lemma disconnectHandler_refused event w :
  refused w = true →
  disconnectHandler event w =
  ({| statusCode := 500; body := None |},
   with_console (LogError ServiceUnavailable)
     (tick (with_console (LogDisconnect (de_connectionId event)) w))).
Proof.
  intros Hw. unfold disconnectHandler, try_catch, DeleteConnection.
  rewrite bind_eq. unfold console_log at 1. cbn beta iota.
  rewrite bind_eq, send_eq. unfold refused in *. cbn [outages with_console].
  by rewrite Hw.
Qed.

(** X8: the answers of connectHandler and disconnectHandler.  A connect
    answers 200 exactly when the authorizer context carries a name and an
    email and the store serves the put; it then maps the connection id to
    this user, replacing what was there.  Without a context, or with one that
    lacks the name or the email, it answers 500 without a request to the
    store, because the document client refuses the undefined attribute.  A
    disconnect answers 200 exactly when the store serves its request and
    then removes the id.  Every other call answers 500, leaves the registry
    as it was and logs the error.  No answer has a body, and neither handler
    touches POLLS_TABLE or broadcasts. *)
Theorem registry_handlers_answers cev dev w :
  let rc := connectHandler cev w in
  let rd := disconnectHandler dev w in
  (statusCode rc.1 = 200%Z ∨ statusCode rc.1 = 500%Z) ∧
  (statusCode rc.1 = 200%Z ↔ is_Some (registered_user cev) ∧ refused w = false) ∧
  (statusCode rd.1 = 200%Z ↔ refused w = false) ∧
  (statusCode rd.1 = 200%Z ∨ statusCode rd.1 = 500%Z) ∧
  body rc.1 = None ∧ body rd.1 = None ∧
  CONNECTIONS_TABLE rc.2 =
    match registered_user cev with
    | Some user =>
        if refused w then CONNECTIONS_TABLE w
        else <[ce_connectionId cev := {| conn_user := Some user |}]> (CONNECTIONS_TABLE w)
    | None => CONNECTIONS_TABLE w
    end ∧
  CONNECTIONS_TABLE rd.2 =
    (if refused w then CONNECTIONS_TABLE w
     else delete (de_connectionId dev) (CONNECTIONS_TABLE w)) ∧
  (registered_user cev = None → outages rc.2 = outages w) ∧
  console rc.2 =
    match registered_user cev with
    | Some _ => if refused w then [LogError ServiceUnavailable] else []
    | None => [LogError UndefinedValue]
    end ++ LogConnect (ce_connectionId cev) :: console w ∧
  console rd.2 =
    (if refused w then [LogError ServiceUnavailable] else [])
    ++ LogDisconnect (de_connectionId dev) :: console w ∧
  POLLS_TABLE rc.2 = POLLS_TABLE w ∧ POLLS_TABLE rd.2 = POLLS_TABLE w ∧
  posted rc.2 = posted w ∧ posted rd.2 = posted w.
Proof.
  cbv zeta. rewrite connectHandler_run.
  destruct (refused w) eqn:Hw.
  - rewrite disconnectHandler_refused by done.
    destruct (registered_user cev) as [user|]; fields_goal.
    + split; [by right|]. split; [by split; [|intros [_ ?]]|].
      split; [done|]. split; [by right|]. done.
    + split; [by right|]. split; [by split; [|intros [[? ?] _]]|].
      split; [done|]. split; [by right|]. done.
  - rewrite disconnectHandler_served by done.
    destruct (registered_user cev) as [user|]; fields_goal.
    + split; [by left|]. split; [by split; [eauto|]|].
      split; [done|]. split; [by left|]. done.
    + split; [by right|]. split; [by split; [|intros [[? ?] _]]|].
      split; [done|]. split; [by left|]. done.
Qed.

(** X9: connecting, with an authorizer context that carries a name and an
    email, a connection id that was not registered and then disconnecting
    it, with the store serving both requests, answers 200 twice; in between
    the registry holds the user of the context, and afterwards the registry
    and POLLS_TABLE are as they were. *)
Theorem connect_disconnect_round_trip cev dev w user :
  de_connectionId dev = ce_connectionId cev →
  CONNECTIONS_TABLE w !! ce_connectionId cev = None →
  registered_user cev = Some user →
  available w →
  let r1 := connectHandler cev w in
  let r2 := disconnectHandler dev r1.2 in
  statusCode r1.1 = 200%Z ∧ statusCode r2.1 = 200%Z ∧
  CONNECTIONS_TABLE r1.2 !! ce_connectionId cev = Some {| conn_user := Some user |} ∧
  CONNECTIONS_TABLE r2.2 = CONNECTIONS_TABLE w ∧
  POLLS_TABLE r2.2 = POLLS_TABLE w.
Proof.
  intros Hid Hnone Huser Hw. cbv zeta.
  rewrite connectHandler_run, Huser, (available_refused w Hw).
  rewrite disconnectHandler_served.
  2:{ apply (available_refused (tick w)). by apply available_tick. }
  fields_goal. rewrite Hid. split; [done|]. split; [done|].
  split; [by rewrite lookup_insert_eq|]. split; [|done].
  rewrite delete_insert_eq. by apply delete_id.
Qed.

Lemma connect_disconnect_round_trip_witness :
  let r1 := connectHandler (connect "c9" bob) pizza in
  let r2 := disconnectHandler {| de_connectionId := "c9" |} r1.2 in
  statusCode r1.1 = 200%Z ∧ statusCode r2.1 = 200%Z ∧
  CONNECTIONS_TABLE r1.2 !! "c9" = Some {| conn_user := Some bob |} ∧
  CONNECTIONS_TABLE r2.2 = CONNECTIONS_TABLE pizza ∧
  POLLS_TABLE r2.2 = POLLS_TABLE pizza.
Proof.
  apply (connect_disconnect_round_trip (connect "c9" bob) {| de_connectionId := "c9" |}
           pizza bob);
    vm_compute; reflexivity.
Defined.

(** X10: after a disconnect that the store served, a message on the closed
    connection is answered 500 and changes neither POLLS_TABLE nor what was
    broadcast; when its body parses and the store serves the lookup, the
    error is "User not found for this connection". *)
Theorem message_after_disconnect rev dev event w :
  me_connectionId event = de_connectionId dev →
  refused w = false →
  let w1 := (disconnectHandler dev w).2 in
  let r := messagesHandler rev event w1 in
  statusCode r.1 = 500%Z ∧
  POLLS_TABLE r.2 = POLLS_TABLE w ∧
  posted r.2 = posted w ∧
  (is_Some (me_body event) → refused w1 = false →
   body r.1 = Some (ErrorBody "User not found for this connection")).
Proof.
  intros Hid Hw. cbv zeta. rewrite disconnectHandler_served by done.
  cbn [snd]. set (w1 := with_connections _ _).
  assert (Hgone : CONNECTIONS_TABLE w1 !! me_connectionId event = None).
  { unfold w1. fields_goal. rewrite Hid. apply lookup_delete_eq. }
  split; [|split; [|split]].
  - destruct (messagesHandler_cases rev event w1 _ _ (surjective_pairing _))
      as [(Hst & _)|(body & user & n & _ & Hconn & _)]; [done|congruence].
  - destruct (messagesHandler_cases rev event w1 _ _ (surjective_pairing _))
      as [(_ & _ & Ht)|(body & user & n & _ & Hconn & _)]; [by rewrite Ht|congruence].
  - destruct (messagesHandler_cases rev event w1 _ _ (surjective_pairing _))
      as [(_ & Hp & _)|(body & user & n & _ & Hconn & _)]; [by rewrite Hp|congruence].
  - intros [body Hbody] Hs.
    unfold messagesHandler, try_catch. rewrite bind_eq, Hbody.
    cbn [JSON_parse ret]. cbn beta iota. unfold GetConnection.
    rewrite bind_eq, send_eq, Hs. cbn beta iota. fields_goal.
    rewrite bind_eq. unfold w1 at 1. fields_goal. rewrite Hid, lookup_delete_eq. done.
Qed.

Lemma message_after_disconnect_witness :
  let w1 := (disconnectHandler {| de_connectionId := "c1" |} pizza).2 in
  let r := messagesHandler votes_mjs first_vote w1 in
  statusCode r.1 = 500%Z ∧ POLLS_TABLE r.2 = POLLS_TABLE pizza ∧ posted r.2 = posted pizza ∧
  (is_Some (me_body first_vote) → refused w1 = false →
   body r.1 = Some (ErrorBody "User not found for this connection")).
Proof.
  apply (message_after_disconnect votes_mjs {| de_connectionId := "c1" |} first_vote pizza);
    reflexivity.
Defined.

(** X11: when a connect was answered 200, a successful vote on that
    connection stores the Vote record of the user of the authorizer context
    given at connect, under the key of that user's email, and broadcasts a
    payload that names this user; the voter's own connection receives it
    unless its transport is closed. *)
Theorem connect_then_vote rev cev event w resp w' :
  me_connectionId event = ce_connectionId cev →
  statusCode (connectHandler cev w).1 = 200%Z →
  messagesHandler rev event (connectHandler cev w).2 = (resp, w') →
  statusCode resp = 200%Z →
  ∃ user body,
    registered_user cev = Some user ∧
    me_body event = Some body ∧
    POLLS_TABLE w' !! (POLL (vb_pollId body), VOTE (email user))
      = Some (VoteItem (vb_optionId body) user (stamp rev event)) ∧
    ∃ data, (ce_connectionId cev ∉ stale w → (ce_connectionId cev, data) ∈ posted w') ∧
            p_user data = user.
Proof.
  intros Hid Hok Hrun Hst. rewrite connectHandler_run in Hok, Hrun.
  destruct (registered_user cev) as [connected|]; [|done].
  destruct (refused w); [done|]. clear Hok.
  cbn [snd] in Hrun.
  destruct (messagesHandler_cases _ _ _ _ _ Hrun)
    as [(Hst' & _)|(body & user & n & Hbody & Hconn & Hpre & Hend)]; [congruence|].
  destruct Hend as [[? _]|(-> & _ & Hposted & _)]; [congruence|].
  fields Hconn. rewrite Hid, lookup_insert_eq in Hconn. injection Hconn as <-.
  exists connected, body. split; [done|]. split; [done|]. split.
  { inversion Hpre; subst. unfold record. by rewrite lookup_insert_eq. }
  exists (payload rev event body connected (POLLS_TABLE w')).
  split; [|reflexivity].
  intros Hlive. rewrite Hposted. apply elem_of_app. left.
  apply elem_of_deliveries.
  exists (ce_connectionId cev, {| conn_user := Some connected |}).
  split; [|done]. fields_goal.
  apply elem_of_map_to_list. by rewrite lookup_insert_eq.
Qed.

Lemma connect_then_vote_witness :
  ∃ body,
    me_body carol_votes_no = Some body ∧
    POLLS_TABLE (messagesHandler votes_mjs carol_votes_no
                   (connectHandler (connect "c3" carol) pizza).2).2
      !! (POLL (vb_pollId body), VOTE (email carol))
      = Some (VoteItem (vb_optionId body) carol None).
Proof.
  destruct (connect_then_vote votes_mjs (connect "c3" carol) carol_votes_no pizza
              _ _ eq_refl eq_refl (surjective_pairing _))
    as (user & body & Huser & Hbody & Hvote & _).
  - vm_compute. reflexivity.
  - injection Huser as <-. exists body. split; [exact Hbody|exact Hvote].
Defined.

(** ** Creating a poll: answers and writes *)

Lemma createPollHandler_run event w :
  createPollHandler event w =
  match cp_body event with
  | None =>
      ({| statusCode := 500;
          body := Some (FailureBody "Failed to create poll" (message SyntaxError)) |},
       with_console (LogCreateError SyntaxError) w)
  | Some body =>
      if decide (pb_question body = "" ∨ pb_options body = [])
      then ({| statusCode := 400; body := Some (MessageBody "Invalid input") |}, w)
      else if refused w
      then ({| statusCode := 500;
               body := Some (FailureBody "Failed to create poll"
                               (message ServiceUnavailable)) |},
            with_console (LogCreateError ServiceUnavailable) (tick w))
      else if decide (length (pb_options body) ≤ 24)
      then ({| statusCode := 201;
               body := Some (CreatedBody (cp_uuid event) "Poll created successfully") |},
            with_polls (λ _, put_all (poll_items event body) (POLLS_TABLE w)) (tick w))
      else ({| statusCode := 500;
               body := Some (FailureBody "Failed to create poll"
                               (message ValidationException)) |},
            with_console (LogCreateError ValidationException) (tick w))
  end.
Proof.
  unfold createPollHandler, try_catch. rewrite bind_eq.
  destruct (cp_body event) as [body|]; cbn [JSON_parse ret throw]; cbn beta iota; [|done].
  destruct (decide (pb_question body = "" ∨ pb_options body = [])); [done|].
  unfold BatchWriteItems. rewrite bind_eq, send_eq.
  destruct (refused w); cbn beta iota; [done|]. fields_goal.
  unfold BatchWrite.
  destruct (decide (length (_ :: option_items _ _) ≤ 25)) as [H25|H25];
    destruct (decide (length (pb_options body) ≤ 24)) as [H24|H24];
    cbn beta iota; try done;
    exfalso; cbn [length] in H25; unfold option_items in H25;
    rewrite length_imap in H25; lia.
Qed.


Lemma put_all_notin (items : list (Key * Item)) t key :
  key ∉ items.*1 → put_all items t !! key = t !! key.
Proof.
  unfold put_all. revert t. induction items as [|[k v] items IH]; intros t Hkey; [done|].
  rewrite fmap_cons, not_elem_of_cons in Hkey. destruct Hkey as [Hne Hkey].
  simpl. rewrite IH by done. by rewrite lookup_insert_ne.
Qed.

Lemma put_all_in (items : list (Key * Item)) t key it :
  NoDup items.*1 → (key, it) ∈ items → put_all items t !! key = Some it.
Proof.
  unfold put_all. revert t. induction items as [|[k v] items IH]; intros t Hnd Hin.
  { by apply elem_of_nil in Hin. }
  rewrite fmap_cons in Hnd. apply NoDup_cons in Hnd as [Hk Hnd].
  apply elem_of_cons in Hin as [[= <- <-]|Hin]; simpl.
  - fold (put_all items (<[key:=it]> t)). rewrite put_all_notin by done.
    apply lookup_insert_eq.
  - by apply IH.
Qed.

Lemma option_items_lookup pollId (options : list string) (i : nat) :
  option_items pollId options !! i
  = (λ opt : string, ((POLL pollId, OPTION (Some (Z.of_nat i + 1)%Z)),
             OptionItem (Z.of_nat i + 1) opt 0)) <$> options !! i.
Proof. unfold option_items. by rewrite list_lookup_imap. Qed.

Lemma NoDup_poll_items event body : NoDup (poll_items event body).*1.
Proof.
  unfold poll_items. rewrite fmap_cons. apply NoDup_cons. split.
  - rewrite elem_of_option_items_keys. by intros (i & _ & [= Heq]).
  - apply NoDup_alt. intros i j key.
    rewrite !list_lookup_fmap, !option_items_lookup.
    destruct (pb_options body !! i) as [a|]; [|done].
    destruct (pb_options body !! j) as [b|]; [|done].
    cbn [fmap option_fmap option_map fst]. intros [= <-] Heq.
    assert (Hk : OPTION (Some (Z.of_nat j + 1)%Z) = OPTION (Some (Z.of_nat i + 1)%Z))
      by congruence.
    apply (inj (λ i : Z, OPTION (Some i))) in Hk. lia.
Qed.

Lemma createPollHandler_created event w body :
  cp_body event = Some body →
  statusCode (createPollHandler event w).1 = 201%Z →
  createPollHandler event w =
  ({| statusCode := 201;
      body := Some (CreatedBody (cp_uuid event) "Poll created successfully") |},
   with_polls (λ _, put_all (poll_items event body) (POLLS_TABLE w)) (tick w)).
Proof.
  intros Hbody Hst. rewrite createPollHandler_run in *. rewrite Hbody in *.
  destruct (decide (pb_question body = "" ∨ pb_options body = [])); [done|].
  destruct (refused w); [done|].
  by destruct (decide (length (pb_options body) ≤ 24)).
Qed.

Lemma poll_items_header event body t :
  put_all (poll_items event body) t !! (POLL (cp_uuid event), "POLL")
  = Some (PollItem (cp_uuid event) (pb_question body) (owner_of (cp_claims event))
            (cp_now event)).
Proof. apply put_all_in; [apply NoDup_poll_items|]. unfold poll_items. left. Qed.

Lemma poll_items_option event body t (i : nat) (txt : string) :
  pb_options body !! i = Some txt →
  put_all (poll_items event body) t !! (POLL (cp_uuid event), OPTION (Some (Z.of_nat i + 1)%Z))
  = Some (OptionItem (Z.of_nat i + 1) txt 0).
Proof.
  intros Hopt. apply put_all_in; [apply NoDup_poll_items|].
  unfold poll_items. right. apply list_elem_of_lookup. exists i.
  by rewrite option_items_lookup, Hopt.
Qed.

Lemma poll_items_other event body t key :
  key ≠ (POLL (cp_uuid event), "POLL") →
  (∀ i, (1 ≤ i ≤ Z.of_nat (length (pb_options body)))%Z →
        key ≠ (POLL (cp_uuid event), OPTION (Some i))) →
  put_all (poll_items event body) t !! key = t !! key.
Proof.
  intros Hhead Hopts. apply put_all_notin.
  unfold poll_items. rewrite fmap_cons, not_elem_of_cons. split; [done|].
  rewrite elem_of_option_items_keys. intros (i & Hi & ->). by eapply Hopts.
Qed.

(** X13: a createPollHandler call answered 201 returns the poll id, stores
    the header under the sort key POLL with the question, the owner (whose
    name falls back to the email) and the creation time, stores option i of
    the body under OPTION#(i+1) with optionId i+1 and votesCount 0, and leaves
    every other item of POLLS_TABLE as it was. *)
Theorem createPollHandler_writes event w body :
  cp_body event = Some body →
  statusCode (createPollHandler event w).1 = 201%Z →
  let t' := POLLS_TABLE (createPollHandler event w).2 in
  (createPollHandler event w).1
    = {| statusCode := 201;
         body := Some (CreatedBody (cp_uuid event) "Poll created successfully") |} ∧
  t' !! (POLL (cp_uuid event), "POLL")
    = Some (PollItem (cp_uuid event) (pb_question body) (owner_of (cp_claims event))
              (cp_now event)) ∧
  (∀ (i : nat) (opt : string), pb_options body !! i = Some opt →
     t' !! (POLL (cp_uuid event), OPTION (Some (Z.of_nat i + 1)%Z))
       = Some (OptionItem (Z.of_nat i + 1) opt 0)) ∧
  (∀ key, key ≠ (POLL (cp_uuid event), "POLL") →
     (∀ i, (1 ≤ i ≤ Z.of_nat (length (pb_options body)))%Z →
           key ≠ (POLL (cp_uuid event), OPTION (Some i))) →
     t' !! key = POLLS_TABLE w !! key).
Proof.
  intros Hbody Hst. cbv zeta. rewrite (createPollHandler_created event w body) by done.
  fields_goal. split; [done|]. split; [apply poll_items_header|]. split.
  - intros i opt Hopt. by apply poll_items_option.
  - intros key Hhead Hopts. by apply poll_items_other.
Qed.

Lemma createPollHandler_writes_witness :
  let event := create_poll "p1" ["Yes"; "No"] in
  let t' := POLLS_TABLE (createPollHandler event empty_world).2 in
  t' !! (POLL "p1", "POLL")
    = Some (PollItem "p1" "Pizza?" alice "2025-01-01T00:00:00.000Z") ∧
  t' !! (POLL "p1", OPTION (Some 2%Z)) = Some (OptionItem 2 "No" 0).
Proof.
  destruct (createPollHandler_writes (create_poll "p1" ["Yes"; "No"]) empty_world
              {| pb_question := "Pizza?"; pb_options := ["Yes"; "No"] |} eq_refl)
    as (_ & Hhead & Hopts & _).
  - vm_compute. reflexivity.
  - split; [exact Hhead|]. apply (Hopts 1 "No"). reflexivity.
Defined.

(** X14: a poll created under a fresh id has no Vote record and counts that
    add up to 0, satisfies V1 and V2, and keeps a table in which Vote records
    are keyed by voter and every count is the number of Vote records naming
    its option in that state. *)
Theorem created_poll_is_consistent event w :
  statusCode (createPollHandler event w).1 = 201%Z →
  (∀ sk, POLLS_TABLE w !! (POLL (cp_uuid event), sk) = None) →
  votes_well_keyed (POLLS_TABLE w) → counts_match (POLLS_TABLE w) →
  let t' := POLLS_TABLE (createPollHandler event w).2 in
  vote_records (cp_uuid event) t' = [] ∧
  sum_votesCount (cp_uuid event) t' = 0%Z ∧
  V1 (cp_uuid event) t' ∧ V2 (cp_uuid event) t' ∧
  votes_well_keyed t' ∧ counts_match t'.
Proof.
  intros Hst Hfresh Hwk Hcm. cbv zeta.
  destruct (createPollHandler_invariants event w Hst Hfresh Hwk Hcm) as (Hwk' & Hcm' & HV2).
  destruct (createPollHandler_has_options event w Hst Hfresh) as (body & Hbody & _).
  assert (Hnone : vote_records (cp_uuid event) (POLLS_TABLE (createPollHandler event w).2) = []).
  { apply Query_nil. intros sk it Hit.
    destruct (String.prefix "VOTE#" sk) eqn:Hsk; [|done].
    rewrite (createPollHandler_created event w body Hbody Hst) in Hit. fields Hit.
    rewrite poll_items_other, Hfresh in Hit; [done| |].
    - intros [= ->]. done.
    - intros i _ [= ->]. by rewrite OPTION_not_vote in Hsk. }
  split; [done|]. split.
  { rewrite HV2. unfold count_votes. by rewrite Hnone. }
  split; [by apply well_keyed_V1|]. done.
Qed.

Lemma created_poll_is_consistent_witness :
  let t' := POLLS_TABLE (createPollHandler (create_poll "p1" ["Yes"; "No"]) empty_world).2 in
  vote_records "p1" t' = [] ∧ sum_votesCount "p1" t' = 0%Z ∧
  V1 "p1" t' ∧ V2 "p1" t' ∧ votes_well_keyed t' ∧ counts_match t'.
Proof.
  apply (created_poll_is_consistent (create_poll "p1" ["Yes"; "No"]) empty_world).
  - vm_compute. reflexivity.
  - intros sk. apply lookup_empty.
  - intros pk sk it Hit. change (POLLS_TABLE empty_world) with (∅ : Table) in Hit.
    by rewrite lookup_empty in Hit.
  - intros pk sk o txt n Hit. change (POLLS_TABLE empty_world) with (∅ : Table) in Hit.
    by rewrite lookup_empty in Hit.
Defined.

(** ** The options of a created poll *)

Lemma has_options_range pollId (N : nat) t o :
  has_options pollId N t →
  is_Some (t !! (POLL pollId, OPTION (Some o))) ↔ (1 ≤ o ≤ Z.of_nat N)%Z.
Proof.
  intros Hopts. rewrite (Hopts _ (OPTION_prefix _)), elem_of_option_keys. split.
  - intros (i & Hi & Heq). apply (inj (λ i : Z, OPTION (Some i))) in Heq. by subst.
  - intros Ho. eauto.
Qed.

Lemma write_prefix_intact p user o c t (n : nat) t' pollId (N : nat) :
  write_prefix p user o c t n t' → poll_intact pollId N t → poll_intact pollId N t'.
Proof.
  intros Hpre (Hopts & Hitems & Hvotes). split; [|split].
  - intros sk Hsk. rewrite <-(Hopts sk Hsk). by eapply write_prefix_option_keys.
  - intros i Hi. destruct (Hitems i Hi) as (txt & m & Hlook).
    destruct (write_prefix_option _ _ _ _ _ _ _ (POLL pollId, OPTION (Some i)) _ _ _
                Hpre (OPTION_prefix _) Hlook) as (m' & Hlook' & _).
    eauto.
  - intros sk it Hlook Hsk.
    assert (Hfr : ∀ t1, decrement p user t = Some t1 →
              t1 !! (POLL pollId, sk) = t !! (POLL pollId, sk)).
    { intros t1 Hd. eapply decrement_frame; [done|]. right.
      by apply vote_prefix_not_option. }
    assert (Hfr2 : ∀ t1 t2, increment p o t1 = Some t2 →
              t2 !! (POLL pollId, sk) = t1 !! (POLL pollId, sk)).
    { intros t1 t2 Hi. eapply increment_frame; [done|]. right.
      by apply vote_prefix_not_option. }
    destruct Hpre as [|item t1 _ Hd|t1 t2 Hd Hi|t1 t2 Hd Hi].
    + by eapply Hvotes.
    + rewrite (Hfr _ Hd) in Hlook. by eapply Hvotes.
    + rewrite (Hfr2 _ _ Hi), (Hfr _ Hd) in Hlook. by eapply Hvotes.
    + unfold record in Hlook.
      destruct (decide ((POLL p, VOTE (email user)) = (POLL pollId, sk))) as [Heq|Hne].
      * rewrite Heq, lookup_insert_eq in Hlook. injection Hlook as <-.
        exists o, user, c. split; [done|].
        apply (has_options_range pollId N t); [done|].
        assert (Hp : POLL p = POLL pollId) by congruence. rewrite <-Hp.
        apply elem_of_dom. rewrite <-(decrement_dom _ _ _ _ Hd).
        rewrite <-(UpdateVotesCount_dom _ _ _ _ Hi). apply elem_of_dom.
        apply UpdateVotesCount_Some in Hi as (? & ? & ? & _ & ->).
        rewrite lookup_insert_eq. eauto.
      * rewrite lookup_insert_ne in Hlook by done.
        rewrite (Hfr2 _ _ Hi), (Hfr _ Hd) in Hlook. by eapply Hvotes.
Qed.

Lemma messagesHandler_intact rev event w pollId (N : nat) :
  poll_intact pollId N (POLLS_TABLE w) →
  poll_intact pollId N (POLLS_TABLE (messagesHandler rev event w).2).
Proof.
  intros Hin.
  destruct (messagesHandler_cases rev event w _ _ (surjective_pairing _))
    as [(_ & _ & ->)|(body & user & n & _ & _ & Hpre & _)]; [done|].
  by eapply write_prefix_intact.
Qed.

Lemma handle_all_intact rev events w pollId (N : nat) :
  poll_intact pollId N (POLLS_TABLE w) →
  poll_intact pollId N (POLLS_TABLE (handle_all rev events w)).
Proof.
  revert w. induction events as [|ev events IH]; intros w Hin; [done|].
  simpl. by apply IH, messagesHandler_intact.
Qed.

Lemma createPollHandler_intact event w :
  statusCode (createPollHandler event w).1 = 201%Z →
  (∀ sk, POLLS_TABLE w !! (POLL (cp_uuid event), sk) = None) →
  ∃ body, cp_body event = Some body ∧
    length (pb_options body) ≤ 24 ∧
    poll_intact (cp_uuid event) (length (pb_options body))
      (POLLS_TABLE (createPollHandler event w).2).
Proof.
  intros Hst Hfresh.
  destruct (createPollHandler_has_options event w Hst Hfresh) as (body & Hbody & HN & Hopts).
  exists body. split; [done|]. split; [done|].
  rewrite (createPollHandler_created event w body Hbody Hst) in *. fields_goal.
  fields Hopts. split; [done|]. split.
  - intros i Hi.
    destruct (lookup_lt_is_Some_2 (pb_options body) (Z.to_nat (i - 1))) as [txt Htxt]; [lia|].
    pose proof (poll_items_option event body (POLLS_TABLE w) _ _ Htxt) as Hitem.
    replace (Z.of_nat (Z.to_nat (i - 1)) + 1)%Z with i in Hitem by lia. eauto.
  - intros sk it Hlook Hsk. rewrite poll_items_other, Hfresh in Hlook; [done| |].
    + intros [= ->]. done.
    + intros i _ [= ->]. by rewrite OPTION_not_vote in Hsk.
Qed.

Lemma intact_ledger pollId (N : nat) t user o c :
  poll_intact pollId N t →
  is_Some (ledger pollId user o c t) ↔ (1 ≤ o ≤ Z.of_nat N)%Z.
Proof.
  intros (Hopts & Hitems & Hvotes).
  assert (Hdec : ∃ t1, decrement pollId user t = Some t1).
  { unfold decrement.
    destruct (t !! (POLL pollId, VOTE (email user))) as [item|] eqn:Hprev; [|eauto].
    destruct (Hvotes _ _ Hprev (VOTE_prefix _)) as (a & u & created & -> & Ha).
    destruct (Hitems a Ha) as (txt & n & Hlook). cbn [get_optionId].
    unfold UpdateVotesCount. rewrite Hlook. eauto. }
  destruct Hdec as [t1 Hdec]. unfold ledger. rewrite Hdec. cbn [mbind option_bind].
  rewrite <-(has_options_range pollId N t o Hopts).
  rewrite <-!elem_of_dom, <-(decrement_dom _ _ _ _ Hdec), elem_of_dom.
  unfold increment.
  destruct (UpdateVotesCount _ 1 t1) as [t2|] eqn:Hinc; cbn [mbind option_bind].
  - apply UpdateVotesCount_Some in Hinc as (? & ? & ? & Hl & _). rewrite Hl.
    split; eauto.
  - split; [by intros [? [=]]|]. intros [it Hit].
    assert (His : is_Some (t !! (POLL pollId, OPTION (Some o)))).
    { apply elem_of_dom. rewrite <-(decrement_dom _ _ _ _ Hdec).
      apply elem_of_dom. eauto. }
    apply (has_options_range pollId N t o Hopts) in His.
    destruct (Hitems o His) as (txt & n & Hlook).
    destruct (decrement_option _ _ _ _ _ _ _ _ Hdec Hlook) as (n' & Hl' & _).
    unfold UpdateVotesCount in Hinc. by rewrite Hl' in Hinc.
Qed.

(** X15: after a poll was created under a fresh id with N options, and
    after any sequence of vote events whatever their outcomes, a vote of a
    registered user on that poll, with the store serving every request, is
    answered 200 when its optionId is one of 1..N and 500 otherwise. *)
Theorem created_poll_accepts_its_options rev cev w0 w1 events event body user :
  statusCode (createPollHandler cev w0).1 = 201%Z →
  (∀ sk, POLLS_TABLE w0 !! (POLL (cp_uuid cev), sk) = None) →
  POLLS_TABLE w1 = POLLS_TABLE (createPollHandler cev w0).2 →
  let w := handle_all rev events w1 in
  available w →
  me_body event = Some body →
  vb_pollId body = cp_uuid cev →
  CONNECTIONS_TABLE w !! me_connectionId event = Some {| conn_user := Some user |} →
  ∃ created, cp_body cev = Some created ∧
    statusCode (messagesHandler rev event w).1 =
    if decide (1 ≤ vb_optionId body ≤ Z.of_nat (length (pb_options created)))%Z
    then 200%Z else 500%Z.
Proof.
  intros Hst Hfresh Hw1 w Hw Hbody Hpoll Hconn.
  destruct (createPollHandler_intact cev w0 Hst Hfresh) as (created & Hcreated & _ & Hin).
  exists created. split; [done|].
  assert (Hin' : poll_intact (cp_uuid cev) (length (pb_options created)) (POLLS_TABLE w)).
  { apply handle_all_intact. by rewrite Hw1. }
  pose proof (intact_ledger _ _ _ user (vb_optionId body) (stamp rev event) Hin') as Hiff.
  rewrite (messagesHandler_available rev event w body user Hw Hbody Hconn), Hpoll.
  destruct (ledger _ _ _ _ _) as [t'|]; fields_goal.
  - rewrite decide_True; [done|]. apply Hiff. eauto.
  - rewrite decide_False; [done|]. intros Hr. apply Hiff in Hr. by destruct Hr.
Qed.

Lemma created_poll_accepts_its_options_witness :
  statusCode (messagesHandler votes_mjs bob_votes_no
                (handle_all votes_mjs [first_vote; vote_99] pizza)).1 = 200%Z.
Proof.
  destruct (created_poll_accepts_its_options votes_mjs (create_poll "p1" ["Yes"; "No"])
              empty_world pizza [first_vote; vote_99] bob_votes_no (vote_body "p1" 2) bob)
    as (created & Hcreated & Hst).
  - vm_compute. reflexivity.
  - intros sk. apply lookup_empty.
  - reflexivity.
  - vm_compute. reflexivity.
  - reflexivity.
  - reflexivity.
  - vm_compute. reflexivity.
  - injection Hcreated as <-. exact Hst.
Defined.

(** ** Sort keys written and read back *)

Lemma is_nat_pretty_N_char (d : N) :
  (d < 10)%N → Ascii.is_nat (pretty_N_char d) = Some (N.to_nat d).
Proof.
  intros Hd.
  assert (d = 0 ∨ d = 1 ∨ d = 2 ∨ d = 3 ∨ d = 4 ∨ d = 5 ∨ d = 6 ∨ d = 7 ∨ d = 8 ∨ d = 9)%N
    as Hcases by lia.
  repeat (destruct Hcases as [->|Hcases]; [done|]). by subst.
Qed.

Lemma digits_pretty_N_go (x : N) (s : string) :
  digits 0 (pretty_N_go x s) = digits (Z.of_N x) s.
Proof.
  revert s. induction (N.lt_wf_0 x) as [x _ IH]; intros s.
  assert (x = 0 ∨ 0 < x)%N as [->|Hx] by lia.
  { by rewrite pretty_N_go_0. }
  rewrite pretty_N_go_step by done.
  rewrite IH by by apply N.div_lt.
  cbn [digits]. rewrite is_nat_pretty_N_char by (apply N.mod_lt; lia).
  f_equal. rewrite N_nat_Z, N2Z.inj_div, N2Z.inj_mod.
  pose proof (Z.div_mod (Z.of_N x) 10). lia.
Qed.

(** A string of decimal digits has no separator in it. *)
Lemma split_digits (acc : Z) (s : string) :
  is_Some (digits acc s) → split "#" s = [s].
Proof.
  revert acc. induction s as [|a s IH]; intros acc Hs; [done|].
  cbn [digits] in Hs. destruct (Ascii.is_nat a) as [d|] eqn:Hd; [|by destruct Hs].
  cbn [split]. rewrite decide_False by (intros ->; done).
  by rewrite (IH _ Hs).
Qed.

(** Every integer of magnitude up to 2^53 is a double. *)
Lemma nearest_double_exact (i : Z) :
  (- 2 ^ 53 ≤ i ≤ 2 ^ 53)%Z → nearest_double i = Some i.
Proof.
  intros Hi. unfold nearest_double.
  rewrite (proj2 (Z.leb_le (Z.abs i) (2 ^ 53))); [done|].
  change (2 ^ 53)%Z with 9007199254740992%Z in *. lia.
Qed.

Lemma Number_pretty (i : Z) :
  Number (Some (pretty i)) = nearest_double i ∧ split "#" (pretty i) = [pretty i].
Proof.
  destruct i as [|p|p].
  - done.
  - change (pretty (Z.pos p)) with (pretty (N.pos p)).
    unfold pretty, pretty_N. rewrite decide_False by done.
    pose proof (digits_pretty_N_go (N.pos p) "") as Hd. cbn [digits] in Hd.
    change (Z.of_N (N.pos p)) with (Z.pos p) in Hd.
    split; [|apply (split_digits 0); rewrite Hd; eauto].
    change (nearest_double (Z.pos p)) with (Some (Z.pos p) ≫= nearest_double).
    rewrite <-Hd.
    destruct (pretty_N_go (N.pos p) "") as [|a [|b s]] eqn:Hs.
    + done.
    + unfold Number. destruct a as [[] [] [] [] [] [] [] []]; done.
    + destruct (decide (a = "-"%char)) as [->|Hne].
      { by destruct (pretty_N_go_ne_dash (N.pos p) "" (String b s)). }
      unfold Number.
      destruct a as [[] [] [] [] [] [] [] []]; done.
  - change (pretty (Z.neg p)) with ("-" +:+ pretty (N.pos p)).
    unfold pretty, pretty_N. rewrite decide_False by done.
    pose proof (digits_pretty_N_go (N.pos p) "") as Hd. cbn [digits] in Hd.
    change (Z.of_N (N.pos p)) with (Z.pos p) in Hd.
    destruct (pretty_N_go (N.pos p) "") as [|b s] eqn:Hs; [done|].
    split.
    + change ("-" +:+ String b s) with (String "-" (String b s)).
      change (Number (Some (String "-" (String b s))))
        with (digits 0 (String b s) ≫= λ n, nearest_double (- n)).
      by rewrite Hd.
    + assert (Hsp : split "#" (String b s) = [String b s])
        by (apply (split_digits 0); rewrite Hd; eauto).
      change ("-" +:+ String b s) with (String "-" (String b s)).
      revert Hsp. generalize (String b s). intros s' Hsp.
      cbn [split]. rewrite decide_False by done. by rewrite Hsp.
Qed.

Lemma id_of_SK_OPTION (i : Z) : id_of_SK (OPTION (Some i)) = nearest_double i.
Proof.
  destruct (Number_pretty i) as [Hn Hs].
  unfold id_of_SK, OPTION, template.
  change ("OPTION#" +:+ pretty i) with
    (String "O" (String "P" (String "T" (String "I" (String "O" (String "N"
       (String "#" (pretty i)))))))).
  cbn [split]. rewrite Hs.
  repeat (rewrite decide_False by done). rewrite decide_True by done.
  cbn [lookup list_lookup]. done.
Qed.

(** X16: the sort key of an option read back.  For every integer i of
    magnitude up to 2^53, the range in which a JavaScript number holds every
    integer, splitting OPTION#i at "#" gives the two segments OPTION and i,
    [Number] of the second segment is i, and so the id that the broadcast
    computes for an item stored under OPTION#i is i. *)
Theorem sort_key_round_trip (i : Z) (it : Item) (pk : string) :
  (- 2 ^ 53 ≤ i ≤ 2 ^ 53)%Z →
  split "#" (OPTION (Some i)) = ["OPTION"; template (Some i)] ∧
  Number (Some (template (Some i))) = Some i ∧
  id (option_entry ((pk, OPTION (Some i)), it)) = Some i.
Proof.
  intros Hi. destruct (Number_pretty i) as [Hn Hs]. split; [|split].
  - unfold OPTION, template.
    change ("OPTION#" +:+ pretty i) with
      (String "O" (String "P" (String "T" (String "I" (String "O" (String "N"
         (String "#" (pretty i)))))))).
    cbn [split]. rewrite Hs.
    repeat (rewrite decide_False by done). by rewrite decide_True by done.
  - cbn [template]. by rewrite Hn, nearest_double_exact.
  - unfold option_entry. cbn [id fst snd].
    change (id_of_SK (OPTION (Some i)) = Some i).
    by rewrite id_of_SK_OPTION, nearest_double_exact.
Qed.

Lemma sort_key_round_trip_witness :
  split "#" (OPTION (Some 9007199254740992%Z)) = ["OPTION"; "9007199254740992"] ∧
  id (option_entry ((POLL "p1", OPTION (Some 9007199254740992%Z)), OptionItem 1 "Yes" 0))
    = Some 9007199254740992%Z.
Proof.
  destruct (sort_key_round_trip 9007199254740992 (OptionItem 1 "Yes" 0) (POLL "p1"))
    as (Hsplit & _ & Hid).
  - vm_compute. split; discriminate.
  - split; [exact Hsplit|exact Hid].
Defined.

(** ** The polls Lambda *)

Lemma and_then_eq {A B} (c : R A) (k : A → R B) pw :
  and_then c k pw = match c pw with
                    | (Ok a, pw') => k a pw'
                    | (Raise exn, pw') => (Raise exn, pw')
                    end.
Proof. done. Qed.

Lemma request_send {A} (cmd : World → Outcome A * World) pw :
  request (send cmd) pw =
  if refused (world pw)
  then (Raise (StoreError ServiceUnavailable), with_world (tick (world pw)) pw)
  else match cmd (tick (world pw)) with
       | (Return a, w') => (Ok a, with_world w' pw)
       | (Throw err, w') => (Raise (StoreError err), with_world w' pw)
       end.
Proof. unfold request. rewrite send_eq. by destruct (refused (world pw)). Qed.

(** *** Reading leaves the world alone *)

Lemma reads_ok {A} (a : A) : reads (ok a).
Proof. by intros pw. Qed.

Lemma reads_raise {A} exn : reads (@raise A exn).
Proof. by intros pw. Qed.

Lemma reads_defined {A} property (x : option A) : reads (defined property x).
Proof. destruct x; [apply reads_ok|apply reads_raise]. Qed.

Lemma reads_and_then {A B} (c : R A) (k : A → R B) :
  reads c → (∀ a, reads (k a)) → reads (and_then c k).
Proof.
  intros Hc Hk pw. rewrite and_then_eq. specialize (Hc pw).
  destruct (c pw) as [[a|exn] pw1]; simpl in *; [|done].
  by rewrite Hk.
Qed.

Lemma reads_request {A} (c : M A) : keeps contents c → reads (request c).
Proof.
  intros Hc pw. unfold request. specialize (Hc (world pw)).
  by destruct (c (world pw)) as [[a|err] w1].
Qed.

Lemma reads_for_of {A B} (items : list A) (body : A → R B) :
  (∀ item : A, reads (body item)) → reads (for_of items body).
Proof.
  intros Hbody. induction items as [|item rest IH]; simpl; [apply reads_ok|].
  apply reads_and_then; [done|intros b].
  apply reads_and_then; [done|intros bs]. apply reads_ok.
Qed.

Lemma reads_catching {A} (c : R A) (h : Exception → PollsWorld → A * PollsWorld) :
  reads c → (∀ exn pw, world (h exn pw).2 = world pw) →
  ∀ pw, contents (world (catching c h pw).2) = contents (world pw).
Proof.
  intros Hc Hh pw. unfold catching. specialize (Hc pw).
  destruct (c pw) as [[a|exn] pw1]; simpl in *; [done|].
  by rewrite Hh.
Qed.

Lemma keeps_contents_read {A} (f : World → A) :
  keeps contents (send (λ w, (Return (f w), w))).
Proof. by apply keeps_send. Qed.

Lemma reads_list_options (pollId : option string) : reads (list_options pollId).
Proof.
  apply reads_and_then; [|intros; apply reads_ok].
  apply reads_request, (keeps_contents_read (λ w, Query _ _ (POLLS_TABLE w))).
Qed.

Ltac reads_step :=
  first [ apply reads_ok | apply reads_raise | apply reads_defined
        | apply reads_list_options
        | apply reads_request;
          first [ apply (keeps_contents_read (λ w, QueryPK _ (POLLS_TABLE w)))
                | apply (keeps_contents_read (λ w, filter _ (map_to_list (POLLS_TABLE w))))
                | apply (keeps_contents_read (λ w, POLLS_TABLE w !! _)) ]
        | apply reads_for_of; intros ?
        | apply reads_and_then; [|intros ?]
        | match goal with |- reads (if ?b then _ else _) => destruct b end
        | match goal with |- reads (match ?b with _ => _ end) => destruct b end ].

Lemma reads_getPollHandler rev event pw :
  contents (world (getPollHandler rev event pw).2) = contents (world pw).
Proof.
  apply reads_catching; [|done]. cbv zeta.
  destruct (falsy (pathParameters event)); repeat reads_step.
Qed.

Lemma reads_listPollsHandler pw :
  contents (world (listPollsHandler pw).2) = contents (world pw).
Proof. apply reads_catching; [|done]. repeat reads_step. Qed.

Lemma reads_authListPolls event pw :
  contents (world (authListPolls event pw).2) = contents (world pw).
Proof. apply reads_catching; [|done]. repeat reads_step. Qed.

Lemma reads_authGetPoll rev event pw :
  contents (world (authGetPoll rev event pw).2) = contents (world pw).
Proof. apply reads_catching; [|done]. repeat reads_step. Qed.

(** X17: getPollHandler, listPollsHandler, authListPolls and authGetPoll
    leave POLLS_TABLE, the registry and the broadcast messages as they were,
    whatever the event, the state of the store and the answer. *)
Theorem read_handlers_write_nothing rev event pw :
  contents (world (getPollHandler rev event pw).2) = contents (world pw) ∧
  contents (world (listPollsHandler pw).2) = contents (world pw) ∧
  contents (world (authListPolls event pw).2) = contents (world pw) ∧
  contents (world (authGetPoll rev event pw).2) = contents (world pw).
Proof.
  split; [apply reads_getPollHandler|].
  split; [apply reads_listPollsHandler|].
  split; [apply reads_authListPolls|apply reads_authGetPoll].
Qed.

(** *** Partitions *)

Lemma QueryPK_Permutation pk t :
  QueryPK pk t ≡ₚ filter (λ kv, kv.1.1 = pk) (map_to_list t).
Proof. apply merge_sort_Permutation. Qed.

Lemma elem_of_QueryPK pk t (kv : Key * Item) :
  kv ∈ QueryPK pk t ↔ t !! kv.1 = Some kv.2 ∧ kv.1.1 = pk.
Proof.
  rewrite QueryPK_Permutation, list_elem_of_filter.
  destruct kv as [k v]. rewrite elem_of_map_to_list. simpl. tauto.
Qed.

Lemma NoDup_QueryPK_keys pk t : NoDup (QueryPK pk t).*1.
Proof.
  rewrite QueryPK_Permutation.
  eapply sublist_NoDup; [apply (NoDup_fst_map_to_list t)|].
  apply fmap_sublist, sublist_filter.
Qed.

Lemma QueryPK_nil pk t : QueryPK pk t = [] ↔ ∀ sk, t !! (pk, sk) = None.
Proof.
  split.
  - intros Hnil sk. destruct (t !! (pk, sk)) as [it|] eqn:Hit; [|done].
    assert (Hin : ((pk, sk), it) ∈ QueryPK pk t) by by apply elem_of_QueryPK.
    rewrite Hnil in Hin. by apply elem_of_nil in Hin.
  - intros Hnone. destruct (QueryPK pk t) as [|[[pk' sk] it] l] eqn:Hq; [done|].
    assert (Hin : ((pk', sk), it) ∈ QueryPK pk t) by (rewrite Hq; left).
    apply elem_of_QueryPK in Hin as [Hit Hpk]. simpl in *. subst pk'.
    by rewrite Hnone in Hit.
Qed.

(** Two lists of items of a table in sort-key order, with the same
    elements from one partition, are the same list. *)
Lemma sorted_items_unique (l1 l2 : list (Key * Item)) pk :
  Sorted by_SK l1 → Sorted by_SK l2 → l1 ≡ₚ l2 →
  NoDup l1.*1 → (∀ kv, kv ∈ l1 → kv.1.1 = pk) → l1 = l2.
Proof.
  intros Hs1 Hs2 Hperm Hnd Hpk.
  assert (Hsk : (λ kv : Key * Item, kv.1.2) <$> l1 = (λ kv : Key * Item, kv.1.2) <$> l2).
  { apply (Sorted_unique String.le).
    - by apply (Sorted_fmap _ by_SK).
    - by apply (Sorted_fmap _ by_SK).
    - by rewrite Hperm. }
  apply list_eq. intros i.
  pose proof (f_equal (λ l, l !! i) Hsk) as Hi. cbn beta in Hi.
  rewrite !list_lookup_fmap in Hi.
  destruct (l1 !! i) as [x|] eqn:Hx, (l2 !! i) as [y|] eqn:Hy; simplify_eq/=; [|done].
  f_equal.
  assert (Hyin : y ∈ l1) by (rewrite Hperm; by eapply list_elem_of_lookup_2).
  apply list_elem_of_lookup_1 in Hyin as [j Hj].
  assert (Hkey : x.1 = y.1).
  { assert (Hx1 : x.1.1 = pk) by (apply Hpk; by eapply list_elem_of_lookup_2).
    assert (Hy1 : y.1.1 = pk) by (apply Hpk; by eapply list_elem_of_lookup_2).
    destruct x as [[px sx] vx], y as [[py sy] vy]. simpl in *. congruence. }
  assert (i = j) as ->; [|congruence].
  eapply NoDup_lookup; [done| |].
  - by rewrite list_lookup_fmap, Hx.
  - by rewrite list_lookup_fmap, Hj, Hkey.
Qed.

Lemma Sorted_filter {A} (Rel : relation A) `{!Transitive Rel}
    (P : A → Prop) `{∀ x, Decision (P x)} (l : list A) :
  Sorted Rel l → Sorted Rel (filter P l).
Proof.
  intros Hs. apply Sorted_StronglySorted in Hs; [|done].
  apply StronglySorted_Sorted.
  induction Hs as [|x l Hl IH Hall]; [constructor|].
  rewrite filter_cons. destruct (decide (P x)); [|done].
  constructor; [done|]. apply Forall_forall. intros y [_ Hy]%list_elem_of_filter.
  rewrite Forall_forall in Hall. by apply Hall.
Qed.

#[global] Instance by_SK_trans : Transitive by_SK.
Proof. intros a b c. unfold by_SK. apply (transitivity (R := String.le)). Qed.

(** Filtering a partition by a sort-key prefix gives what the query with
    that prefix returns. *)
Lemma startsWith_QueryPK prefix pk t :
  startsWith prefix (QueryPK pk t) = Query pk prefix t.
Proof.
  apply (sorted_items_unique _ _ pk).
  - apply Sorted_filter; [apply _|]. apply (Sorted_merge_sort by_SK).
  - apply (Sorted_merge_sort by_SK).
  - apply NoDup_Permutation.
    + eapply NoDup_fmap_1 with (f := fst).
      eapply sublist_NoDup; [apply (NoDup_QueryPK_keys pk t)|].
      apply fmap_sublist, sublist_filter.
    + eapply NoDup_fmap_1, NoDup_Query_keys.
    + intros kv. unfold startsWith.
      rewrite list_elem_of_filter, elem_of_QueryPK, elem_of_Query. unfold matches. tauto.
  - eapply sublist_NoDup; [apply (NoDup_QueryPK_keys pk t)|].
    apply fmap_sublist, sublist_filter.
  - intros kv [_ [_ Hpk]%elem_of_QueryPK]%list_elem_of_filter. done.
Qed.

Lemma find_SK_QueryPK pk sk t :
  find_SK sk (QueryPK pk t) = (λ it, ((pk, sk), it)) <$> t !! (pk, sk).
Proof.
  unfold find_SK.
  set (l := filter (λ item : Key * Item, item.1.2 = sk) (QueryPK pk t)).
  assert (Hall : ∀ kv, kv ∈ l ↔ t !! kv.1 = Some kv.2 ∧ kv.1 = (pk, sk)).
  { intros [[pk' sk'] it]. unfold l.
    rewrite list_elem_of_filter, elem_of_QueryPK. simpl. split.
    - intros (-> & ? & ->). done.
    - intros (? & [= -> ->]). done. }
  assert (Hlen : length l ≤ 1).
  { apply (length_same_key _ (pk, sk)).
    - eapply sublist_NoDup; [apply (NoDup_QueryPK_keys pk t)|].
      apply fmap_sublist, sublist_filter.
    - intros kv Hkv. by apply Hall in Hkv as [_ ?]. }
  destruct (t !! (pk, sk)) as [it|] eqn:Hit; simpl.
  - assert (Hin : ((pk, sk), it) ∈ l) by by apply Hall.
    destruct l as [|a [|b l']]; simpl in *; [by apply elem_of_nil in Hin| |lia].
    apply list_elem_of_singleton in Hin. by subst.
  - destruct l as [|a l']; [done|].
    destruct (proj1 (Hall a)) as [Ha Hk]; [left|].
    destruct a as [k v]. simpl in *. subst k. congruence.
Qed.

(** *** Reading one poll *)

Lemma votes_field_QueryPK rev pollId t :
  votes_field rev (QueryPK (POLL pollId) t) = votes_of rev pollId t.
Proof.
  destruct rev; [done|]. unfold votes_field, votes_of, vote_records.
  by rewrite startsWith_QueryPK.
Qed.

Lemma falsy_false (x : option string) :
  falsy x = false ↔ ∃ s, x = Some s ∧ s ≠ "".
Proof.
  destruct x as [[|a s]|]; simpl; split; try done.
  - intros (s & [= <-] & Hs). done.
  - intros _. eauto.
  - intros (s & [=] & _).
Qed.

Lemma getPollHandler_run rev event pw pollId :
  pathParameters event = Some pollId → pollId ≠ "" →
  refused (world pw) = false →
  getPollHandler rev event pw =
  let t := POLLS_TABLE (world pw) in
  let pw' := with_world (tick (world pw)) pw in
  if decide (QueryPK (POLL pollId) t = [])
  then (respond 404 (Plain (MessageBody "Poll not found")), pw')
  else match t !! (POLL pollId, "POLL") with
       | Some header => (respond 200 (PollJSON (poll_view rev pollId header t)), pw')
       | None =>
           (respond 500 (Plain (FailureBody "Failed to fetch poll"
                                  (exception_message (TypeError "pollId")))),
            with_report (LogFetchPoll (TypeError "pollId")) pw')
       end.
Proof.
  intros Hpath Hne Hs. unfold getPollHandler, catching. rewrite Hpath.
  cbv zeta. replace (falsy (Some pollId)) with false.
  2:{ symmetry. apply falsy_false. eauto. }
  change (template_string (Some pollId)) with pollId. unfold QueryPartition.
  rewrite and_then_eq, request_send, Hs. cbn beta iota. fields_goal.
  destruct (decide (QueryPK (POLL pollId) (POLLS_TABLE (world pw)) = [])); [done|].
  rewrite and_then_eq, find_SK_QueryPK.
  destruct (POLLS_TABLE (world pw) !! (POLL pollId, "POLL")) as [header|]; [|done].
  cbn [fmap option_fmap option_map defined]. unfold ok. cbn beta iota.
  unfold poll_view. cbn [snd]. by rewrite startsWith_QueryPK, votes_field_QueryPK.
Qed.

(** X18: the answers of getPollHandler.  A missing or empty pollId is
    answered 400 without a request to the store.  Otherwise, when the store
    serves the query: 404 exactly when the partition of the poll is empty,
    200 exactly when it holds a header, and 500 exactly when it holds items
    but no header. *)
Theorem getPollHandler_statuses rev event pw :
  let r := getPollHandler rev event pw in
  let t := POLLS_TABLE (world pw) in
  (falsy (pathParameters event) = true →
     r = (respond 400 (Plain (MessageBody "Missing pollId")), pw)) ∧
  (∀ pollId, pathParameters event = Some pollId → pollId ≠ "" →
     refused (world pw) = false →
     (pr_statusCode r.1 = 404%Z ↔ ∀ sk, t !! (POLL pollId, sk) = None) ∧
     (pr_statusCode r.1 = 200%Z ↔ is_Some (t !! (POLL pollId, "POLL"))) ∧
     (pr_statusCode r.1 = 500%Z ↔
        t !! (POLL pollId, "POLL") = None ∧ ∃ sk, is_Some (t !! (POLL pollId, sk)))).
Proof.
  cbv zeta. split.
  { intros Hf. unfold getPollHandler, catching. cbv zeta. by rewrite Hf. }
  intros pollId Hpath Hne Hs. rewrite (getPollHandler_run rev event pw pollId) by done.
  cbv zeta. pose proof (QueryPK_nil (POLL pollId) (POLLS_TABLE (world pw))) as Hnil.
  destruct (decide (QueryPK (POLL pollId) (POLLS_TABLE (world pw)) = [])) as [He|He].
  - pose proof (proj1 Hnil He) as Hnone. cbn [fst respond pr_statusCode].
    split; [done|]. split.
    + split; [done|]. rewrite Hnone. by intros [? [=]].
    + split; [done|]. intros [_ [sk Hsk]]. rewrite Hnone in Hsk. by destruct Hsk.
  - assert (Hsome : ∃ sk, is_Some (POLLS_TABLE (world pw) !! (POLL pollId, sk))).
    { destruct (QueryPK (POLL pollId) (POLLS_TABLE (world pw)))
        as [|[[pk sk] it] l] eqn:Hq; [done|].
      assert (Hin : ((pk, sk), it) ∈ QueryPK (POLL pollId) (POLLS_TABLE (world pw)))
        by (rewrite Hq; left).
      apply elem_of_QueryPK in Hin as [Hit Hpk]. simpl in *. subst pk. eauto. }
    destruct (POLLS_TABLE (world pw) !! (POLL pollId, "POLL")) as [header|];
      cbn [fst respond pr_statusCode].
    + split; [|split].
      * split; [done|]. intros Hnone. apply Hnil in Hnone. done.
      * split; eauto.
      * split; [done|]. by intros [[=] _].
    + split; [|split].
      * split; [done|]. intros Hnone. apply Hnil in Hnone. done.
      * split; [done|]. by intros [? [=]].
      * split; eauto.
Qed.

Lemma messagesHandler_header rev event w pk :
  POLLS_TABLE (messagesHandler rev event w).2 !! (pk, "POLL") = POLLS_TABLE w !! (pk, "POLL").
Proof.
  destruct (messagesHandler_cases rev event w _ _ (surjective_pairing _))
    as [(_ & _ & ->)|(body & user & n & _ & _ & Hpre & _)]; [done|].
  eapply write_prefix_frame; [done|]. by right.
Qed.

Lemma handle_all_header rev events w pk :
  POLLS_TABLE (handle_all rev events w) !! (pk, "POLL") = POLLS_TABLE w !! (pk, "POLL").
Proof.
  revert w. induction events as [|ev events IH]; intros w; [done|].
  simpl. by rewrite IH, messagesHandler_header.
Qed.

(** On an intact poll of at most 24 options the [id] read from the item is
    the [id] read from its sort key: the REST handlers and the broadcast
    list the same options. *)
Lemma intact_option_view pollId (N : nat) t :
  N ≤ 24 →
  poll_intact pollId N t →
  option_view <$> Query (POLL pollId) "OPTION#" t = getTally pollId t.
Proof.
  intros HN (Hopts & Hitems & _). unfold getTally.
  apply list_fmap_ext. intros j [[pk sk] it] Hlook.
  apply list_elem_of_lookup_2, elem_of_Query in Hlook as [Hit [Hpk Hsk]].
  simpl in *. subst pk.
  assert (Hin : sk ∈ option_keys N) by (apply (Hopts _ Hsk); eauto).
  apply elem_of_option_keys in Hin as (i & Hi & ->).
  destruct (Hitems i Hi) as (txt & n & Hlook). rewrite Hlook in Hit. injection Hit as <-.
  unfold option_view, option_entry. cbn [fst snd get_optionId get_text get_votesCount].
  f_equal. symmetry.
  change (id_of_SK (OPTION (Some i)) = Some i).
  rewrite id_of_SK_OPTION. apply nearest_double_exact.
  change (2 ^ 53)%Z with 9007199254740992%Z. lia.
Qed.

(** X19: after a poll was created under a fresh id, and after any sequence
    of vote events, getPollHandler (when the store serves the query) answers
    200 with the id, the question, the creation time and the owner given at
    creation, and with the same options, in the same order, as the tally
    that messagesHandler broadcasts; the second revision adds the Vote
    records of the poll. *)
Theorem getPoll_after_create vrev rev cev w0 w1 events event pw :
  statusCode (createPollHandler cev w0).1 = 201%Z →
  (∀ sk, POLLS_TABLE w0 !! (POLL (cp_uuid cev), sk) = None) →
  POLLS_TABLE w1 = POLLS_TABLE (createPollHandler cev w0).2 →
  POLLS_TABLE (world pw) = POLLS_TABLE (handle_all vrev events w1) →
  refused (world pw) = false →
  pathParameters event = Some (cp_uuid cev) →
  cp_uuid cev ≠ "" →
  ∃ created, cp_body cev = Some created ∧
    (getPollHandler rev event pw).1 =
    respond 200
      (PollJSON {| pv_pollId := Some (cp_uuid cev);
                   pv_question := Some (pb_question created);
                   pv_createdAt := Some (cp_now cev);
                   pv_owner := Some (owner_of (cp_claims cev));
                   pv_options := getTally (cp_uuid cev) (POLLS_TABLE (world pw));
                   pv_votes := votes_of rev (cp_uuid cev) (POLLS_TABLE (world pw));
                   pv_userOption := None |}).
Proof.
  intros Hst Hfresh Hw1 Hpw Hs Hpath Hne.
  destruct (createPollHandler_intact cev w0 Hst Hfresh) as (created & Hcreated & HN & Hin).
  assert (Hhead : POLLS_TABLE (createPollHandler cev w0).2 !! (POLL (cp_uuid cev), "POLL")
                  = Some (PollItem (cp_uuid cev) (pb_question created)
                            (owner_of (cp_claims cev)) (cp_now cev))).
  { rewrite (createPollHandler_created cev w0 created Hcreated Hst). apply poll_items_header. }
  exists created. split; [done|].
  assert (Hin' : poll_intact (cp_uuid cev) (length (pb_options created))
                   (POLLS_TABLE (world pw))).
  { rewrite Hpw. apply handle_all_intact. by rewrite Hw1. }
  assert (Hhead' : POLLS_TABLE (world pw) !! (POLL (cp_uuid cev), "POLL")
                   = Some (PollItem (cp_uuid cev) (pb_question created)
                             (owner_of (cp_claims cev)) (cp_now cev))).
  { by rewrite Hpw, handle_all_header, Hw1. }
  rewrite (getPollHandler_run rev event pw (cp_uuid cev)) by done. cbv zeta.
  destruct (decide (QueryPK _ _ = [])) as [He|_].
  { apply QueryPK_nil with (sk := "POLL") in He. congruence. }
  rewrite Hhead'. cbn [fst]. unfold poll_view.
  by rewrite (intact_option_view _ _ _ HN Hin').
Qed.

Lemma getPoll_after_create_witness :
  ∃ created, cp_body (create_poll "p1" ["Yes"; "No"]) = Some created ∧
    (getPollHandler polls_mjs get_p1 (lambda (handle_all votes_mjs scenario_votes pizza))).1 =
    respond 200
      (PollJSON {| pv_pollId := Some "p1";
                   pv_question := Some (pb_question created);
                   pv_createdAt := Some "2025-01-01T00:00:00.000Z";
                   pv_owner := Some alice;
                   pv_options :=
                     getTally "p1" (POLLS_TABLE (handle_all votes_mjs scenario_votes pizza));
                   pv_votes := None;
                   pv_userOption := None |}).
Proof.
  apply (getPoll_after_create votes_mjs polls_mjs (create_poll "p1" ["Yes"; "No"])
           empty_world pizza scenario_votes get_p1
           (lambda (handle_all votes_mjs scenario_votes pizza))).
  - vm_compute. reflexivity.
  - intros sk. apply lookup_empty.
  - reflexivity.
  - reflexivity.
  - vm_compute. reflexivity.
  - reflexivity.
  - discriminate.
Defined.

(** *** Reading one poll as its voter *)

Lemma request_available {A} (cmd : World → Outcome A * World) pw :
  available (world pw) →
  request (send cmd) pw =
  match cmd (tick (world pw)) with
  | (Return a, w') => (Ok a, with_world w' pw)
  | (Throw err, w') => (Raise (StoreError err), with_world w' pw)
  end.
Proof. intros Hw. by rewrite request_send, available_refused. Qed.

Lemma authGetPoll_run rev event pw claims :
  authorizer event = Some claims →
  available (world pw) →
  authGetPoll rev event pw =
  let pollId := template_string (pathParameters event) in
  let t := POLLS_TABLE (world pw) in
  if decide (QueryPK (POLL pollId) t = [])
  then (respond 404 (Plain (MessageBody "Poll not found")),
        with_world (tick (world pw)) pw)
  else match t !! (POLL pollId, "POLL") with
       | Some header =>
           (respond 200 (PollJSON (auth_poll_view rev event claims header t)),
            with_world (tick (tick (world pw))) pw)
       | None =>
           (respond 500 (Plain (ErrorBody (exception_message (TypeError "question")))),
            with_report (LogAuthPoll (TypeError "question"))
              (with_world (tick (tick (world pw))) pw))
       end.
Proof.
  intros Hauth Hw. unfold authGetPoll, catching. rewrite Hauth.
  rewrite and_then_eq. cbn [defined]. unfold ok at 1. cbn beta iota.
  unfold QueryPartition, GetItem.
  rewrite and_then_eq, request_available by done. cbn beta iota. fields_goal.
  cbv zeta.
  destruct (decide (QueryPK _ (POLLS_TABLE (world pw)) = [])); [done|].
  rewrite and_then_eq, request_available.
  2:{ cbn [world with_world]. by apply available_tick. }
  cbn beta iota. cbn [world with_world]. fields_goal.
  rewrite and_then_eq, find_SK_QueryPK.
  destruct (POLLS_TABLE (world pw) !! (POLL _, "POLL")) as [header|]; [|done].
  cbn [fmap option_fmap option_map defined]. unfold ok. cbn beta iota.
  unfold auth_poll_view. cbn [snd]. by rewrite startsWith_QueryPK, votes_field_QueryPK.
Qed.

(** X20: the answers of authGetPoll.  Without authorizer claims it answers
    500 without a request to the store.  With claims, the store serving
    every request: 404 exactly when the partition of the poll is empty, 200
    exactly when it holds a header, 500 exactly when it holds items but no
    header.  The pollId is not checked: a missing one reads the partition
    POLL#undefined. *)
Theorem authGetPoll_statuses rev event pw :
  let r := authGetPoll rev event pw in
  let pollId := template_string (pathParameters event) in
  let t := POLLS_TABLE (world pw) in
  (authorizer event = None →
     r = (respond 500 (Plain (ErrorBody (exception_message (TypeError "claims")))),
          with_report (LogAuthPoll (TypeError "claims")) pw)) ∧
  (is_Some (authorizer event) → available (world pw) →
     (pr_statusCode r.1 = 404%Z ↔ ∀ sk, t !! (POLL pollId, sk) = None) ∧
     (pr_statusCode r.1 = 200%Z ↔ is_Some (t !! (POLL pollId, "POLL"))) ∧
     (pr_statusCode r.1 = 500%Z ↔
        t !! (POLL pollId, "POLL") = None ∧ ∃ sk, is_Some (t !! (POLL pollId, sk)))).
Proof.
  cbv zeta. split.
  { intros Hauth. unfold authGetPoll, catching. by rewrite Hauth. }
  intros [claims Hauth] Hw. rewrite (authGetPoll_run rev event pw claims) by done.
  cbv zeta. set (pollId := template_string (pathParameters event)).
  pose proof (QueryPK_nil (POLL pollId) (POLLS_TABLE (world pw))) as Hnil.
  destruct (decide (QueryPK (POLL pollId) (POLLS_TABLE (world pw)) = [])) as [He|He].
  - pose proof (proj1 Hnil He) as Hnone. cbn [fst respond pr_statusCode].
    split; [done|]. split.
    + split; [done|]. rewrite Hnone. by intros [? [=]].
    + split; [done|]. intros [_ [sk Hsk]]. rewrite Hnone in Hsk. by destruct Hsk.
  - assert (Hsome : ∃ sk, is_Some (POLLS_TABLE (world pw) !! (POLL pollId, sk))).
    { destruct (QueryPK (POLL pollId) (POLLS_TABLE (world pw)))
        as [|[[pk sk] it] l] eqn:Hq; [done|].
      assert (Hin : ((pk, sk), it) ∈ QueryPK (POLL pollId) (POLLS_TABLE (world pw)))
        by (rewrite Hq; left).
      apply elem_of_QueryPK in Hin as [Hit Hpk]. simpl in *. subst pk. eauto. }
    destruct (POLLS_TABLE (world pw) !! (POLL pollId, "POLL")) as [header|];
      cbn [fst respond pr_statusCode].
    + split; [|split].
      * split; [done|]. intros Hnone. apply Hnil in Hnone. done.
      * split; eauto.
      * split; [done|]. by intros [[=] _].
    + split; [|split].
      * split; [done|]. intros Hnone. apply Hnil in Hnone. done.
      * split; [done|]. by intros [? [=]].
      * split; eauto.
Qed.

(** X21: after a vote answered 200, authGetPoll for the voter on the poll
    voted in (the poll having a header, the store serving every request)
    answers 200 with that poll id and with userOption the option voted for;
    in the second revision its votes array holds the vote, with the voter
    and the timestamp stored. *)
Theorem authGetPoll_after_vote vrev rev mevent w resp w' body user event pw claims :
  messagesHandler vrev mevent w = (resp, w') →
  statusCode resp = 200%Z →
  me_body mevent = Some body →
  CONNECTIONS_TABLE w !! me_connectionId mevent = Some {| conn_user := Some user |} →
  is_Some (POLLS_TABLE w !! (POLL (vb_pollId body), "POLL")) →
  POLLS_TABLE (world pw) = POLLS_TABLE w' →
  available (world pw) →
  authorizer event = Some claims →
  email claims = email user →
  pathParameters event = Some (vb_pollId body) →
  ∃ poll,
    (authGetPoll rev event pw).1 = respond 200 (PollJSON poll) ∧
    pv_pollId poll = Some (vb_pollId body) ∧
    pv_userOption poll = Some (vb_optionId body) ∧
    (rev = polls_mjs_votes →
     ∃ votes, pv_votes poll = Some votes ∧
       {| v_user := Some user; v_optionId := Some (vb_optionId body);
          v_createdAt := stamp vrev mevent |} ∈ votes).
Proof.
  intros Hrun Hst Hbody Hconn [header Hheader] Hpw Hw Hauth Hemail Hpath.
  destruct (messagesHandler_cases _ _ _ _ _ Hrun)
    as [(Hst' & _)|(body' & user' & n & Hbody' & Hconn' & Hpre & Hend)]; [congruence|].
  destruct Hend as [[? _]|(-> & _)]; [congruence|]. simplify_eq.
  assert (Hvote : POLLS_TABLE (world pw) !! (POLL (vb_pollId body), VOTE (email user))
                  = Some (VoteItem (vb_optionId body) user (stamp vrev mevent))).
  { rewrite Hpw. inversion Hpre; subst. unfold record. by rewrite lookup_insert_eq. }
  assert (Hhead : POLLS_TABLE (world pw) !! (POLL (vb_pollId body), "POLL") = Some header).
  { rewrite Hpw, <-Hheader. eapply write_prefix_frame; [done|]. by right. }
  rewrite (authGetPoll_run rev event pw claims) by done. cbv zeta.
  rewrite Hpath. change (template_string (Some (vb_pollId body))) with (vb_pollId body).
  destruct (decide (QueryPK _ _ = [])) as [He|_].
  { apply QueryPK_nil with (sk := "POLL") in He. congruence. }
  rewrite Hhead. eexists. split; [reflexivity|].
  unfold auth_poll_view. cbn [pv_pollId pv_userOption pv_votes].
  rewrite Hpath. change (template_string (Some (vb_pollId body))) with (vb_pollId body).
  rewrite Hemail, Hvote. split; [done|]. split; [done|].
  intros ->. eexists. split; [reflexivity|].
  apply list_elem_of_fmap.
  exists ((POLL (vb_pollId body), VOTE (email user)),
          VoteItem (vb_optionId body) user (stamp vrev mevent)).
  split; [done|]. apply elem_of_Query. split; [done|].
  split; [done|]. apply VOTE_prefix.
Qed.

Lemma authGetPoll_after_vote_witness :
  ∃ poll,
    (authGetPoll polls_mjs_votes alice_gets_p1 (lambda (voted_yes votes_mjs_createdAt))).1
      = respond 200 (PollJSON poll) ∧
    pv_pollId poll = Some "p1" ∧
    pv_userOption poll = Some 1%Z.
Proof.
  destruct (authGetPoll_after_vote votes_mjs_createdAt polls_mjs_votes first_vote pizza
              _ _ (vote_body "p1" 1) alice alice_gets_p1
              (lambda (voted_yes votes_mjs_createdAt)) alice (surjective_pairing _))
    as (poll & Hresp & Hid & Hopt & _).
  - vm_compute. reflexivity.
  - reflexivity.
  - vm_compute. reflexivity.
  - vm_compute. eauto.
  - reflexivity.
  - vm_compute. reflexivity.
  - reflexivity.
  - reflexivity.
  - reflexivity.
  - exists poll. split; [exact Hresp|]. split; [exact Hid|exact Hopt].
Defined.

(** *** Listing *)

Lemma for_of_available {A B} (items : list A) (body : A → R B) (f : A → B) t pw :
  (∀ (item : A) pw, available (world pw) → POLLS_TABLE (world pw) = t →
     ∃ pw', body item pw = (Ok (f item), pw') ∧
            available (world pw') ∧ POLLS_TABLE (world pw') = t) →
  available (world pw) → POLLS_TABLE (world pw) = t →
  ∃ pw', for_of items body pw = (Ok (f <$> items), pw') ∧
         available (world pw') ∧ POLLS_TABLE (world pw') = t.
Proof.
  intros Hbody. revert pw. induction items as [|item rest IH]; intros pw Hw Ht; simpl.
  { by exists pw. }
  rewrite and_then_eq.
  destruct (Hbody item pw Hw Ht) as (pw1 & -> & Hw1 & Ht1).
  rewrite and_then_eq.
  destruct (IH pw1 Hw1 Ht1) as (pw2 & -> & Hw2 & Ht2).
  by exists pw2.
Qed.

Lemma list_options_available (pollId : option string) pw :
  available (world pw) →
  list_options pollId pw =
  (Ok (option_view <$> Query (POLL (template_string pollId)) "OPTION#"
                         (POLLS_TABLE (world pw))),
   with_world (tick (world pw)) pw).
Proof.
  intros Hw. unfold list_options, QueryItems.
  by rewrite and_then_eq, request_available.
Qed.

Lemma listPollsHandler_available pw :
  available (world pw) →
  (listPollsHandler pw).1
  = respond 200
      (PollsJSON (listed None (POLLS_TABLE (world pw))
                    <$> filter (λ kv : Key * Item, kv.1.2 = "POLL")
                          (map_to_list (POLLS_TABLE (world pw))))).
Proof.
  intros Hw. unfold listPollsHandler, catching, ScanSK.
  rewrite and_then_eq, request_available by done. cbn beta iota. fields_goal.
  destruct (decide (filter _ _ = [])) as [->|_]; [done|].
  rewrite and_then_eq.
  match goal with
  | |- context [for_of ?items ?body ?pw0] =>
      destruct (for_of_available items body (listed None (POLLS_TABLE (world pw)))
                  (POLLS_TABLE (world pw)) pw0) as (pw' & -> & _)
  end.
  - intros pollItem pw1 Hw1 Ht1. rewrite and_then_eq, list_options_available by done.
    eexists. split; [unfold ok; rewrite Ht1; reflexivity|].
    split; [by apply available_tick|done].
  - by apply available_tick.
  - done.
  - done.
Qed.

(** X22: when the store serves every request, listPollsHandler and
    authListPolls answer 200 with one entry for every item stored under the
    sort key POLL: its pollId, question, creation time and owner, the options
    stored in the partition of that pollId and, for authListPolls, the option
    of the caller's Vote record there. *)
Theorem list_handlers_list_every_poll event pw :
  available (world pw) →
  let t := POLLS_TABLE (world pw) in
  let headers := filter (λ kv : Key * Item, kv.1.2 = "POLL") (map_to_list t) in
  (listPollsHandler pw).1 = respond 200 (PollsJSON (listed None t <$> headers)) ∧
  (authListPolls event pw).1
    = respond 200 (PollsJSON (listed (Some (email <$> authorizer event)) t <$> headers)).
Proof.
  intros Hw. cbv zeta. split; [by apply listPollsHandler_available|].
  unfold authListPolls, catching, ScanSK.
  rewrite and_then_eq, request_available by done. cbn beta iota. fields_goal.
  rewrite and_then_eq.
  match goal with
  | |- context [for_of ?items ?body ?pw0] =>
      destruct (for_of_available items body
                  (listed (Some (email <$> authorizer event)) (POLLS_TABLE (world pw)))
                  (POLLS_TABLE (world pw)) pw0) as (pw' & -> & _)
  end.
  - intros pollItem pw1 Hw1 Ht1. rewrite and_then_eq, list_options_available by done.
    unfold GetItem. rewrite and_then_eq, request_available.
    2:{ by apply available_tick. }
    cbn beta iota. cbn [world with_world]. fields_goal.
    eexists. split; [unfold ok; rewrite Ht1; reflexivity|].
    split; [by do 2 apply available_tick|done].
  - by apply available_tick.
  - done.
  - done.
Qed.

Lemma list_handlers_list_every_poll_witness :
  (listPollsHandler (lambda pizza)).1
  = respond 200
      (PollsJSON (listed None (POLLS_TABLE pizza)
                    <$> filter (λ kv : Key * Item, kv.1.2 = "POLL")
                          (map_to_list (POLLS_TABLE pizza)))).
Proof.
  destruct (list_handlers_list_every_poll get_p1 (lambda pizza)) as [Hlist _].
  - vm_compute. reflexivity.
  - exact Hlist.
Defined.

(** X23: after a poll was created under a fresh id, and after any sequence
    of vote events, listPollsHandler (the store serving every request)
    answers 200 with a list that holds the poll, with the question and owner
    given at creation and the tally of its options. *)
Theorem created_poll_is_listed vrev cev w0 w1 events pw :
  statusCode (createPollHandler cev w0).1 = 201%Z →
  (∀ sk, POLLS_TABLE w0 !! (POLL (cp_uuid cev), sk) = None) →
  POLLS_TABLE w1 = POLLS_TABLE (createPollHandler cev w0).2 →
  POLLS_TABLE (world pw) = POLLS_TABLE (handle_all vrev events w1) →
  available (world pw) →
  ∃ created polls,
    cp_body cev = Some created ∧
    (listPollsHandler pw).1 = respond 200 (PollsJSON polls) ∧
    {| pv_pollId := Some (cp_uuid cev);
       pv_question := Some (pb_question created);
       pv_createdAt := Some (cp_now cev);
       pv_owner := Some (owner_of (cp_claims cev));
       pv_options := getTally (cp_uuid cev) (POLLS_TABLE (world pw));
       pv_votes := None;
       pv_userOption := None |} ∈ polls.
Proof.
  intros Hst Hfresh Hw1 Hpw Hw.
  destruct (createPollHandler_intact cev w0 Hst Hfresh) as (created & Hcreated & HN & Hin).
  assert (Hhead : POLLS_TABLE (createPollHandler cev w0).2 !! (POLL (cp_uuid cev), "POLL")
                  = Some (PollItem (cp_uuid cev) (pb_question created)
                            (owner_of (cp_claims cev)) (cp_now cev))).
  { rewrite (createPollHandler_created cev w0 created Hcreated Hst). apply poll_items_header. }
  assert (Hin' : poll_intact (cp_uuid cev) (length (pb_options created))
                   (POLLS_TABLE (world pw))).
  { rewrite Hpw. apply handle_all_intact. by rewrite Hw1. }
  assert (Hhead' : POLLS_TABLE (world pw) !! (POLL (cp_uuid cev), "POLL")
                   = Some (PollItem (cp_uuid cev) (pb_question created)
                             (owner_of (cp_claims cev)) (cp_now cev))).
  { by rewrite Hpw, handle_all_header, Hw1. }
  eexists created, _. split; [done|].
  split; [by apply listPollsHandler_available|].
  apply list_elem_of_fmap.
  exists ((POLL (cp_uuid cev), "POLL"),
          PollItem (cp_uuid cev) (pb_question created) (owner_of (cp_claims cev))
            (cp_now cev)).
  split.
  - unfold listed. cbn [snd get_pollId get_question get_createdAt get_owner mbind option_bind].
    change (template_string (Some (cp_uuid cev))) with (cp_uuid cev).
    by rewrite (intact_option_view _ _ _ HN Hin').
  - apply list_elem_of_filter. split; [done|]. by apply elem_of_map_to_list.
Qed.

Lemma created_poll_is_listed_witness :
  ∃ created polls,
    cp_body (create_poll "p1" ["Yes"; "No"]) = Some created ∧
    (listPollsHandler (lambda (voted_yes votes_mjs))).1 = respond 200 (PollsJSON polls) ∧
    {| pv_pollId := Some "p1";
       pv_question := Some (pb_question created);
       pv_createdAt := Some "2025-01-01T00:00:00.000Z";
       pv_owner := Some alice;
       pv_options := getTally "p1" (POLLS_TABLE (voted_yes votes_mjs));
       pv_votes := None;
       pv_userOption := None |} ∈ polls.
Proof.
  apply (created_poll_is_listed votes_mjs (create_poll "p1" ["Yes"; "No"])
           empty_world pizza [first_vote] (lambda (voted_yes votes_mjs))).
  - vm_compute. reflexivity.
  - intros sk. apply lookup_empty.
  - reflexivity.
  - reflexivity.
  - vm_compute. reflexivity.
Defined.

(** *** Deleting a poll *)

Lemma delete_all_lookup (keys : list Key) t (key : Key) :
  delete_all keys t !! key = if decide (key ∈ keys) then None else t !! key.
Proof.
  unfold delete_all. revert t. induction keys as [|k keys IH]; intros t; simpl; [done|].
  rewrite IH. destruct (decide (key ∈ keys)) as [Hin|Hin].
  - rewrite decide_True by by right. done.
  - destruct (decide (key = k)) as [->|Hne].
    + rewrite decide_True by left. apply lookup_delete_eq.
    + rewrite decide_False by (rewrite elem_of_cons; tauto).
      by rewrite lookup_delete_ne.
Qed.

Lemma delete_chunks_available (fuel : nat) (keys : list Key) pw :
  length keys ≤ fuel → available (world pw) →
  ∃ w', delete_chunks fuel keys pw = (Ok tt, with_world w' pw) ∧
        POLLS_TABLE w' = delete_all keys (POLLS_TABLE (world pw)) ∧
        CONNECTIONS_TABLE w' = CONNECTIONS_TABLE (world pw) ∧
        posted w' = posted (world pw) ∧
        available w'.
Proof.
  revert keys pw. induction fuel as [|fuel IH]; intros keys pw Hlen Hw; simpl.
  { destruct keys; [|simpl in Hlen; lia]. exists (world pw). by destruct pw. }
  destruct (decide (keys = [])) as [->|Hne].
  { exists (world pw). by destruct pw. }
  unfold BatchDeleteItems. rewrite and_then_eq, request_available by done.
  unfold BatchDelete. rewrite decide_True by (rewrite length_take; lia).
  cbn beta iota. fields_goal.
  set (pw1 := with_world _ pw).
  destruct (IH (drop 25 keys) pw1) as (w' & Hrun & Ht & Hc & Hp & Hw').
  { rewrite length_drop. destruct keys; [done|]. simpl in *. lia. }
  { unfold pw1. cbn [world with_world]. unfold available. fields_goal.
    by apply first_outage_tail. }
  exists w'. rewrite Hrun. split; [by destruct pw|].
  split; [|done]. rewrite Ht. unfold pw1. cbn [world with_world]. fields_goal.
  unfold delete_all. rewrite <-foldl_app. by rewrite take_drop.
Qed.

Lemma QueryPK_keys pk t (key : Key) :
  key ∈ (QueryPK pk t).*1 ↔ key.1 = pk ∧ is_Some (t !! key).
Proof.
  rewrite list_elem_of_fmap. split.
  - intros ([k it] & -> & [Hit Hpk]%elem_of_QueryPK). simpl in *. eauto.
  - intros [Hpk [it Hit]]. exists (key, it). split; [done|].
    by apply elem_of_QueryPK.
Qed.

Lemma deletePollHandler_checks event pw claims :
  authorizer event = Some claims → refused (world pw) = false →
  deletePollHandler event pw =
  let pollId := template_string (pathParameters event) in
  let pw1 := with_world (tick (world pw)) pw in
  match POLLS_TABLE (world pw) !! (POLL pollId, "POLL") with
  | None => (respond 404 (Plain (MessageBody "Poll not found")), pw1)
  | Some header =>
      match get_owner header with
      | None =>
          (respond 500 (Plain (FailureBody "Failed to delete poll"
                                 (exception_message (TypeError "email")))),
           with_report (LogDeletePoll (TypeError "email")) pw1)
      | Some owner =>
          if decide (email owner ≠ email claims)
          then (respond 403 (Plain (MessageBody "You are not the owner of this poll")), pw1)
          else
            catching
              (await pollItems ← request (QueryPartition (POLL pollId)) ;;
               if decide (pollItems = [])
               then ok (respond 404 (Plain (MessageBody "No items found for this poll")))
               else
                 let deleteRequests := pollItems.*1 in
                 run delete_chunks (length deleteRequests) deleteRequests ;;
                 ok (respond 200 (Plain (MessageBody "Poll deleted successfully"))))%polls
              (λ err pw,
                 (respond 500 (Plain (FailureBody "Failed to delete poll"
                                        (exception_message err))),
                  with_report (LogDeletePoll err) pw)) pw1
      end
  end.
Proof.
  intros Hauth Hs. unfold deletePollHandler, catching. rewrite Hauth.
  rewrite and_then_eq. cbn [defined]. unfold ok at 1. cbn beta iota.
  unfold GetItem. rewrite and_then_eq, request_send, Hs. cbn beta iota. fields_goal.
  cbv zeta.
  destruct (POLLS_TABLE (world pw) !! (POLL _, "POLL")) as [header|]; [|done].
  rewrite and_then_eq. destruct (get_owner header) as [owner|]; [|done].
  cbn [defined]. unfold ok at 1. cbn beta iota.
  destruct (decide (email owner ≠ email claims)); done.
Qed.

(** X24: what deletePollHandler refuses.  Without authorizer claims it
    answers 500 and leaves the world as it was; for a poll without header it
    answers 404, and for a caller whose email is not the owner's it answers
    403, in both cases with POLLS_TABLE unchanged. *)
Theorem deletePollHandler_guards event pw :
  let pollId := template_string (pathParameters event) in
  let t := POLLS_TABLE (world pw) in
  let r := deletePollHandler event pw in
  (authorizer event = None →
     pr_statusCode r.1 = 500%Z ∧ world r.2 = world pw) ∧
  (∀ claims, authorizer event = Some claims → refused (world pw) = false →
     t !! (POLL pollId, "POLL") = None →
     r.1 = respond 404 (Plain (MessageBody "Poll not found")) ∧
     POLLS_TABLE (world r.2) = t) ∧
  (∀ claims header owner,
     authorizer event = Some claims → refused (world pw) = false →
     t !! (POLL pollId, "POLL") = Some header →
     get_owner header = Some owner → email owner ≠ email claims →
     r.1 = respond 403 (Plain (MessageBody "You are not the owner of this poll")) ∧
     POLLS_TABLE (world r.2) = t).
Proof.
  cbv zeta. split; [|split].
  - intros Hauth. unfold deletePollHandler, catching. by rewrite Hauth.
  - intros claims Hauth Hs Hnone.
    rewrite (deletePollHandler_checks event pw claims) by done. cbv zeta.
    by rewrite Hnone.
  - intros claims header owner Hauth Hs Hhead Howner Hne.
    rewrite (deletePollHandler_checks event pw claims) by done. cbv zeta.
    rewrite Hhead, Howner. by rewrite decide_True by done.
Qed.

Lemma delete_partition_lookup pk t (key : Key) :
  delete_all (QueryPK pk t).*1 t !! key = if decide (key.1 = pk) then None else t !! key.
Proof.
  rewrite delete_all_lookup.
  destruct (decide (key ∈ (QueryPK pk t).*1)) as [Hin|Hnot].
  - apply QueryPK_keys in Hin as [Hpk _]. by rewrite decide_True.
  - destruct (decide (key.1 = pk)) as [Hpk|]; [|done].
    apply eq_None_not_Some. intros Hsome. apply Hnot, QueryPK_keys. done.
Qed.

Lemma deletePollHandler_owner event pw claims header owner :
  let pollId := template_string (pathParameters event) in
  let t := POLLS_TABLE (world pw) in
  authorizer event = Some claims →
  available (world pw) →
  t !! (POLL pollId, "POLL") = Some header →
  get_owner header = Some owner → email owner = email claims →
  ∃ w', deletePollHandler event pw
        = (respond 200 (Plain (MessageBody "Poll deleted successfully")), with_world w' pw) ∧
        POLLS_TABLE w' = delete_all (QueryPK (POLL pollId) t).*1 t ∧
        CONNECTIONS_TABLE w' = CONNECTIONS_TABLE (world pw) ∧
        posted w' = posted (world pw).
Proof.
  cbv zeta. intros Hauth Hw Hhead Howner Hemail.
  rewrite (deletePollHandler_checks event pw claims)
    by (try apply available_refused; done).
  cbv zeta. rewrite Hhead, Howner.
  rewrite decide_False by (intros Hne; by apply Hne).
  set (pollId := template_string (pathParameters event)) in *.
  set (t := POLLS_TABLE (world pw)) in *.
  unfold catching, QueryPartition.
  rewrite and_then_eq, request_available by by apply available_tick.
  cbn beta iota. cbn [world with_world]. fields_goal. fold t.
  destruct (decide (QueryPK (POLL pollId) t = [])) as [He|_].
  { apply QueryPK_nil with (sk := "POLL") in He. congruence. }
  cbv zeta. rewrite and_then_eq.
  match goal with
  | |- context [delete_chunks ?fuel ?keys ?pw0] =>
      destruct (delete_chunks_available fuel keys pw0) as (w' & -> & Ht & Hc & Hp & _)
  end.
  { done. }
  { cbn [world with_world]. by do 2 apply available_tick. }
  cbn [world with_world] in *. fields Ht. fields Hc. fields Hp.
  exists w'. split; [by destruct pw|]. done.
Qed.

(** X25: when the caller is the owner and the store serves every request,
    deletePollHandler answers 200, no item is left in the partition of the
    poll (however many batches of 25 it took), and every item of other
    partitions, the registry and the broadcast messages are as they were. *)
Theorem deletePollHandler_deletes event pw claims header owner :
  let pollId := template_string (pathParameters event) in
  let t := POLLS_TABLE (world pw) in
  let r := deletePollHandler event pw in
  authorizer event = Some claims →
  available (world pw) →
  t !! (POLL pollId, "POLL") = Some header →
  get_owner header = Some owner → email owner = email claims →
  r.1 = respond 200 (Plain (MessageBody "Poll deleted successfully")) ∧
  (∀ sk, POLLS_TABLE (world r.2) !! (POLL pollId, sk) = None) ∧
  (∀ key, key.1 ≠ POLL pollId → POLLS_TABLE (world r.2) !! key = t !! key) ∧
  CONNECTIONS_TABLE (world r.2) = CONNECTIONS_TABLE (world pw) ∧
  posted (world r.2) = posted (world pw).
Proof.
  cbv zeta. intros Hauth Hw Hhead Howner Hemail.
  destruct (deletePollHandler_owner event pw claims header owner)
    as (w' & -> & Ht & Hc & Hp); [done..|].
  cbn [fst snd world with_world]. split; [done|]. rewrite Ht.
  split; [|split; [|done]].
  - intros sk. rewrite delete_partition_lookup. by rewrite decide_True.
  - intros key Hkey. rewrite delete_partition_lookup. by rewrite decide_False.
Qed.

Lemma deletePollHandler_deletes_witness :
  let r := deletePollHandler alice_deletes_p1 (lambda (voted_yes votes_mjs)) in
  r.1 = respond 200 (Plain (MessageBody "Poll deleted successfully")) ∧
  POLLS_TABLE (world r.2) !! (POLL "p1", "POLL") = None ∧
  POLLS_TABLE (world r.2) !! (POLL "p1", OPTION (Some 1%Z)) = None ∧
  POLLS_TABLE (world r.2) !! (POLL "p1", VOTE (email alice)) = None.
Proof.
  destruct (deletePollHandler_deletes alice_deletes_p1 (lambda (voted_yes votes_mjs))
              alice (PollItem "p1" "Pizza?" alice "2025-01-01T00:00:00.000Z") alice)
    as (Hresp & Hgone & _).
  - reflexivity.
  - vm_compute. reflexivity.
  - vm_compute. reflexivity.
  - reflexivity.
  - reflexivity.
  - split; [exact Hresp|]. split; [apply Hgone|]. split; apply Hgone.
Defined.

(** X26: after a successful deletePollHandler call, getPollHandler for the
    poll answers 404, and a vote of a registered user on the poll is answered
    500 and writes nothing. *)
Theorem deleted_poll_is_gone event pw claims pollId header owner :
  let t' := POLLS_TABLE (world (deletePollHandler event pw).2) in
  authorizer event = Some claims →
  pathParameters event = Some pollId → pollId ≠ "" →
  available (world pw) →
  POLLS_TABLE (world pw) !! (POLL pollId, "POLL") = Some header →
  get_owner header = Some owner → email owner = email claims →
  (∀ rev pw', POLLS_TABLE (world pw') = t' → refused (world pw') = false →
     (getPollHandler rev event pw').1 = respond 404 (Plain (MessageBody "Poll not found"))) ∧
  (∀ vrev mevent w body user,
     POLLS_TABLE w = t' → available w →
     me_body mevent = Some body → vb_pollId body = pollId →
     CONNECTIONS_TABLE w !! me_connectionId mevent = Some {| conn_user := Some user |} →
     (messagesHandler vrev mevent w).1
       = {| statusCode := 500; body := Some (ErrorBody (message ValidationException)) |} ∧
     POLLS_TABLE (messagesHandler vrev mevent w).2 = t').
Proof.
  cbv zeta. intros Hauth Hpath Hne Hw Hhead Howner Hemail.
  pose proof (deletePollHandler_owner event pw claims header owner Hauth Hw) as Heff.
  cbv zeta in Heff. rewrite Hpath in Heff.
  change (template_string (Some pollId)) with pollId in Heff.
  destruct (Heff Hhead Howner Hemail) as (w' & Hrun & Ht & _). clear Heff.
  assert (Hgone : ∀ sk, POLLS_TABLE (world (deletePollHandler event pw).2)
                          !! (POLL pollId, sk) = None).
  { intros sk. rewrite Hrun. cbn [snd world with_world]. rewrite Ht.
    rewrite delete_partition_lookup. by rewrite decide_True. }
  clear Hrun Ht.
  set (t' := POLLS_TABLE (world (deletePollHandler event pw).2)) in *.
  split.
  - intros rev pw' Ht Hs.
    rewrite (getPollHandler_run rev event pw' pollId) by done. cbv zeta.
    rewrite decide_True; [done|]. apply QueryPK_nil. intros sk. by rewrite Ht.
  - intros vrev mevent w body user Ht Hw' Hbody Hpoll Hconn.
    assert (Hl : ledger (vb_pollId body) user (vb_optionId body) (stamp vrev mevent)
                   (POLLS_TABLE w) = None).
    { unfold ledger, decrement, increment, UpdateVotesCount.
      rewrite Hpoll, Ht, !Hgone. cbn [mbind option_bind]. by rewrite Hgone. }
    split.
    + rewrite (messagesHandler_available vrev mevent w body user) by done. by rewrite Hl.
    + destruct (messagesHandler_cases vrev mevent w _ _ (surjective_pairing _))
        as [(_ & _ & Hsame)|(body' & user' & n & Hbody' & Hconn' & Hpre & _)];
        [by rewrite Hsame|].
      rewrite Hbody in Hbody'. injection Hbody' as <-.
      rewrite Hconn in Hconn'. injection Hconn' as <-.
      rewrite Ht in Hpre. rewrite <-Ht.
      inversion Hpre as [|item t1 Hprev Hd|t1 t2 Hd Hi|t1 t2 Hd Hi].
      * by rewrite Ht.
      * rewrite Hpoll, Hgone in Hprev. done.
      * exfalso. rewrite Ht in Hl. unfold ledger in Hl. rewrite Hd in Hl.
        cbn [mbind option_bind] in Hl. by rewrite Hi in Hl.
      * exfalso. rewrite Ht in Hl. unfold ledger in Hl. rewrite Hd in Hl.
        cbn [mbind option_bind] in Hl. by rewrite Hi in Hl.
Qed.

Lemma deleted_poll_is_gone_witness :
  let pw' := (deletePollHandler alice_deletes_p1 (lambda (voted_yes votes_mjs))).2 in
  (getPollHandler polls_mjs alice_deletes_p1 pw').1
    = respond 404 (Plain (MessageBody "Poll not found")) ∧
  (messagesHandler votes_mjs bob_votes_no (world pw')).1
    = {| statusCode := 500; body := Some (ErrorBody (message ValidationException)) |}.
Proof.
  destruct (deleted_poll_is_gone alice_deletes_p1 (lambda (voted_yes votes_mjs))
              alice "p1" (PollItem "p1" "Pizza?" alice "2025-01-01T00:00:00.000Z") alice)
    as [Hget Hvote].
  - reflexivity.
  - reflexivity.
  - discriminate.
  - vm_compute. reflexivity.
  - vm_compute. reflexivity.
  - reflexivity.
  - reflexivity.
  - split.
    + apply Hget; [reflexivity|]. vm_compute. reflexivity.
    + apply (Hvote votes_mjs bob_votes_no _ (vote_body "p1" 2) bob); [reflexivity| | | |].
      * vm_compute. reflexivity.
      * reflexivity.
      * reflexivity.
      * vm_compute. reflexivity.
Defined.

(** *** The dispatcher *)

Lemma includeHeader_cors response :
  ∃ h, pr_headers (includeHeader response) = Some h ∧
       h !! "Access-Control-Allow-Origin" = Some "*".
Proof. eexists. split; [reflexivity|]. apply lookup_insert_eq. Qed.

(** X27: the dispatcher of the first revision.  Every answer carries the
    header Access-Control-Allow-Origin: *; a request whose method is not POST
    changes neither table nor the broadcast messages; and a request that is
    neither a POST nor a GET on one of the four read routes is answered 400
    "Unsupported route" with the state untouched. *)
Theorem pollsHandler_routes event pw :
  let r := pollsHandler event pw in
  (∃ h, pr_headers r.1 = Some h ∧ h !! "Access-Control-Allow-Origin" = Some "*") ∧
  (httpMethod event ≠ "POST" → contents (world r.2) = contents (world pw)) ∧
  (httpMethod event ≠ "POST" →
   ¬ (httpMethod event = "GET" ∧
      resource event ∈ ["/polls"; "/polls/{pollId}"; "/pollsAuth"; "/pollsAuth/{pollId}"]) →
   r = (includeHeader (respond 400 (Plain (ErrorBody "Unsupported route"))), pw)).
Proof.
  cbv zeta.
  assert (Hget := reads_getPollHandler polls_mjs event pw).
  assert (Hlist := reads_listPollsHandler pw).
  assert (Hauths := reads_authListPolls event pw).
  assert (Hauth := reads_authGetPoll polls_mjs event pw).
  unfold pollsHandler.
  destruct (decide (httpMethod event = "POST")) as [Hpost|Hpost].
  { cbn [fst snd]. split; [apply includeHeader_cors|]. by split. }
  destruct (decide (httpMethod event = "GET" ∧ resource event = "/polls")) as [[Hm Hr]|H1].
  { cbn [fst snd]. split; [apply includeHeader_cors|]. split; [done|].
    intros _ Hroute. exfalso. apply Hroute. split; [done|]. rewrite Hr. left. }
  destruct (decide (httpMethod event = "GET" ∧ resource event = "/polls/{pollId}"))
    as [[Hm Hr]|H2].
  { cbn [fst snd]. split; [apply includeHeader_cors|]. split; [done|].
    intros _ Hroute. exfalso. apply Hroute. split; [done|]. rewrite Hr. right. left. }
  destruct (decide (httpMethod event = "GET" ∧ resource event = "/pollsAuth"))
    as [[Hm Hr]|H3].
  { cbn [fst snd]. split; [apply includeHeader_cors|]. split; [done|].
    intros _ Hroute. exfalso. apply Hroute. split; [done|]. rewrite Hr.
    right. right. left. }
  destruct (decide (httpMethod event = "GET" ∧ resource event = "/pollsAuth/{pollId}"))
    as [[Hm Hr]|H4].
  { cbn [fst snd]. split; [apply includeHeader_cors|]. split; [done|].
    intros _ Hroute. exfalso. apply Hroute. split; [done|]. rewrite Hr.
    right. right. right. left. }
  cbn [fst snd]. split; [apply includeHeader_cors|]. by split.
Qed.

(** ** The WebSocket authorizer *)

(** X28: the WebSocket authorizer returns one statement for
    execute-api:Invoke on the method ARN of the event, with effect Allow or
    Deny.  It is Allow exactly when the event carries a non-empty token that
    verifyToken accepts; the principal and the context are then the sub, name
    and email of the decoded token.  A Deny names the principal "user" and
    has an empty context. *)
Theorem authorizer_allows_verified_tokens (verifyToken : string → option Decoded) event :
  let policy := (webSocketAuthorizerHandler verifyToken event).1 in
  ∃ effect,
    Statement (policyDocument policy)
      = [ {| Action := "execute-api:Invoke"; Effect := effect;
             Resource := methodArn event |} ] ∧
    (effect = "Allow" ∨ effect = "Deny") ∧
    (effect = "Allow" ↔
       ∃ token decoded,
         query_token event = Some token ∧ token ≠ "" ∧
         verifyToken token = Some decoded ∧
         principalId policy = sub decoded ∧
         context policy = Some {| userId := sub decoded;
                                  username := decoded_name decoded;
                                  context_email := decoded_email decoded |}) ∧
    (effect = "Deny" → principalId policy = Some "user" ∧ context policy = None).
Proof.
  cbv zeta. unfold webSocketAuthorizerHandler.
  destruct (falsy (query_token event)) eqn:Hf.
  { exists "Deny". split; [done|]. split; [by right|]. split; [|done].
    split; [done|]. intros (token & decoded & Htok & Hne & _).
    rewrite Htok in Hf. assert (falsy (Some token) = false); [|congruence].
    apply falsy_false. eauto. }
  apply falsy_false in Hf as (token & Htok & Hne). rewrite Htok.
  change (template_string (Some token)) with token.
  destruct (verifyToken token) as [decoded|] eqn:Hv.
  - exists "Allow". split; [done|]. split; [by left|]. split; [|done].
    split; [|done]. intros _. exists token, decoded. done.
  - exists "Deny". split; [done|]. split; [by right|]. split; [|done].
    split; [done|]. intros (token' & decoded & [= <-] & _ & Hv' & _). congruence.
Qed.
